(** * dicomity: loading a 3D volume from DICOM slices

    A shallow embedding of [dicomity/dicom.py] and [dicomity/load.py].

    The Python code talks to three collaborators that are not part of the
    two modules: the pydicom decoder, NumPy, and a reporting object.  Calls
    to the reporting object and to the decoder are recorded in a trace of
    events; the decoder and the file system are read from a [World] record;
    exceptions are values of [PyExc] carried by [Result]. *)

From Stdlib Require Import String Ascii List ZArith Lia Bool Arith.
From Stdlib Require Import Permutation Sorted Strings.Byte QArith Qcanon Lqa.
Import ListNotations.

Set Implicit Arguments.
Close Scope Q_scope.
Close Scope Qc_scope.
Open Scope nat_scope.
Open Scope string_scope.
Open Scope list_scope.

(** ** Python exceptions and results *)

Inductive PyExc : Type :=
| FileNotFoundError (path : string)
| IndexError (msg : string)
| ValueError (msg : string)
| TypeError (msg : string)
| AttributeError (msg : string)
| ZeroDivisionError
| InvalidDicomError (msg : string).

Inductive Result (A : Type) : Type :=
| Ok (a : A)
| Raise (e : PyExc).

Arguments Ok {A} a.
Arguments Raise {A} e.

(** ** NumPy dtypes

    The dtypes pydicom produces for pixel data, and the two character
    kinds ([S<n>] byte strings, of which ['c'] is [S1], and [U<n>]). *)

Inductive DType : Type :=
| dt_int8 | dt_uint8 | dt_int16 | dt_uint16 | dt_int32 | dt_uint32
| dt_float32 | dt_float64
| dt_bytes (n : nat)
| dt_unicode (n : nat).

Definition DType_eqb (a b : DType) : bool :=
  match a, b with
  | dt_int8, dt_int8 | dt_uint8, dt_uint8
  | dt_int16, dt_int16 | dt_uint16, dt_uint16
  | dt_int32, dt_int32 | dt_uint32, dt_uint32
  | dt_float32, dt_float32 | dt_float64, dt_float64 => true
  | dt_bytes n, dt_bytes m => Nat.eqb n m
  | dt_unicode n, dt_unicode m => Nat.eqb n m
  | _, _ => false
  end.

(** [dtype.kind in 'SU']: a character (text) dtype. *)
Definition is_char_dtype (d : DType) : bool :=
  match d with
  | dt_bytes _ | dt_unicode _ => true
  | _ => false
  end.

(** The Python values the variable [data_type] of [load_images_from_stack]
    is compared with or bound to: a dtype object, a string, or a module
    object.  [np.char] is the module [numpy.char] of vectorised string
    operations; it is not a dtype (NumPy's character scalar type is
    [np.character], and the kind of a dtype is [dtype.kind]). *)
Inductive PyObj : Type :=
| PyDType (d : DType)
| PyStr (s : string)
| PyModule (name : string).

Definition np_char : PyObj := PyModule "numpy.char".

(** [np.dtype(obj)]: a dtype is itself, a string names a dtype, and a
    module has no conversion (NumPy raises TypeError there). *)
Definition dtype_of_string (s : string) : option DType :=
  if String.eqb s "int8" then Some dt_int8
  else if String.eqb s "uint8" then Some dt_uint8
  else if String.eqb s "int16" then Some dt_int16
  else if String.eqb s "uint16" then Some dt_uint16
  else if String.eqb s "int32" then Some dt_int32
  else if String.eqb s "uint32" then Some dt_uint32
  else if String.eqb s "float32" then Some dt_float32
  else if String.eqb s "float64" then Some dt_float64
  else None.

Definition as_dtype (o : PyObj) : option DType :=
  match o with
  | PyDType d => Some d
  | PyStr s => dtype_of_string s
  | PyModule _ => None
  end.

(** [dtype.__eq__(other)]: [other] is converted with [np.dtype]; when the
    conversion fails NumPy answers NotImplemented, the reflected comparison
    of a module answers NotImplemented too, and Python falls back to
    identity, which is false for two distinct objects.  (Old releases of
    NumPy raised the TypeError of the conversion instead; in neither is a
    dtype equal to a module.) *)
Definition dtype_eq (d : DType) (other : PyObj) : bool :=
  match as_dtype other with
  | Some d' => DType_eqb d d'
  | None => false
  end.

(** ** The trace of observable calls *)

Inductive Event : Type :=
| ShowProgress (label : string)
| UpdateProgressValue (percent : Z)
| CompleteProgress
| ShowWarning (code text : string)
| ShowMessage (code text : string)
| OpenFile (path : string)
| Dcmread (path : string) (stop_before_pixels : bool)
          (specific_tags : option (list string))
| NpZeros (shape : list nat) (dtype : DType).

(** A computation yields the events it performed and either a value or the
    exception that ended it. *)
Definition M (A : Type) : Type := (list Event * Result A)%type.

Definition ret {A} (a : A) : M A := ([], Ok a).

Definition raise {A} (e : PyExc) : M A := ([], Raise e).

Definition emit (e : Event) : M unit := ([e], Ok tt).

Definition lift {A} (r : Result A) : M A := ([], r).

Definition trace {A} (m : M A) : list Event := fst m.
Definition outcome {A} (m : M A) : Result A := snd m.

Definition bind {A B} (m : M A) (f : A -> M B) : M B :=
  match outcome m with
  | Ok a => (trace m ++ trace (f a), outcome (f a))
  | Raise e => (trace m, Raise e)
  end.

Notation "x <- m ;; k" := (bind m (fun x => k))
  (at level 61, m at next level, right associativity).
Notation "m ;; k" := (bind m (fun _ => k))
  (at level 61, right associativity).

(** [for x in xs: s = body(x, s)] *)
Fixpoint for_in {A S} (xs : list A) (body : A -> S -> M S) (s : S) : M S :=
  match xs with
  | [] => ret s
  | x :: xs' => s' <- body x s ;; for_in xs' body s'
  end.

(** [range(a, b)] *)
Definition py_range (a b : nat) : list nat := seq a (b - a).

(** [round(a / b)] for non-negative integers: Python 3 divides exactly and
    rounds halves to the even neighbour; a zero divisor raises.  (The
    quotient is a float in Python; for the list lengths at hand it rounds
    as the exact quotient does.) *)
Definition py_round_div (a b : Z) : Result Z :=
  if (b =? 0)%Z then Raise ZeroDivisionError
  else
    let q := (a / b)%Z in
    let r := (a mod b)%Z in
    if (2 * r <? b)%Z then Ok q
    else if (b <? 2 * r)%Z then Ok (q + 1)%Z
    else if Z.even q then Ok q else Ok (q + 1)%Z.

(** ** NumPy arrays

    An array has a dtype, a shape and an element at every index.  Elements
    are values of an abstract type [V]; how NumPy converts an element from
    one dtype to another and what it stores for [None] are taken from the
    [World] (conversion between the numeric dtypes is total). *)

Record ndarray (V : Type) : Type := {
  nd_dtype : DType;
  nd_shape : list nat;
  nd_item : list nat -> V
}.

(** Assignment drops leading axes of length 1 from the source while it has
    more axes than the destination. *)
Fixpoint strip_ones (excess : nat) (shape : list nat) : list nat :=
  match excess, shape with
  | S e, 1 :: shape' => strip_ones e shape'
  | _, _ => shape
  end.

(** Broadcasting, on reversed shapes: trailing axes are matched first; an
    axis fits when the lengths agree or the source axis has length 1. *)
Fixpoint bcast_ok_rev (src dst : list nat) : bool :=
  match src, dst with
  | [], _ => true
  | _ :: _, [] => false
  | a :: src', b :: dst' =>
      ((a =? b)%nat || (a =? 1)%nat) && bcast_ok_rev src' dst'
  end.

Definition assign_shape (src dst : list nat) : list nat :=
  strip_ones (length src - length dst) src.

Definition broadcastable (src dst : list nat) : bool :=
  bcast_ok_rev (rev (assign_shape src dst)) (rev dst).

(** The source index read for a destination index. *)
Fixpoint bcast_index_rev (src idx : list nat) : list nat :=
  match src, idx with
  | a :: src', i :: idx' =>
      (if (a =? 1)%nat then 0 else i) :: bcast_index_rev src' idx'
  | _, _ => []
  end.

Definition bcast_index (src_shape dst_shape idx : list nat) : list nat :=
  let s := assign_shape src_shape dst_shape in
  repeat 0 (length src_shape - length s)
    ++ rev (bcast_index_rev (rev s) (rev idx)).

(** The shape of [a[:, :, k]] (or [a[:, :, k, :]]): axis 2 is removed. *)
Definition drop_axis2 (shape : list nat) : list nat :=
  match shape with
  | i :: j :: _ :: rest => i :: j :: rest
  | _ => shape
  end.

(** ** Metadata, stacks and the other classes the two modules import

    [GroupingMetadata], [DicomStack], [DicomGrouper], [DicomDictionary],
    [CoreFilename] and [CoreWrapper] are defined in modules of the package
    that are imported by, but are not part of, [dicom.py] and [load.py]. *)

(** Modelled from the spec: [GroupingMetadata] ([dicomity.types]), the
    per-slice tag snapshot: orientation (row and column direction cosines),
    series key, optional 3D position, rows, columns, samples per pixel.
    The last three are unsigned 16-bit elements in DICOM, hence naturals. *)
Record GroupingMetadata : Type := {
  seriesKey : string;
  orientationVector : (Qc * Qc * Qc) * (Qc * Qc * Qc);
  position : option (Qc * Qc * Qc);
  Rows : nat;
  Columns : nat;
  SamplesPerPixel : nat
}.

(** Modelled from the spec: [DicomStack] ([dicomity.group]), an ordered
    collection of (filename, metadata) pairs; [load.py] reads an item as
    [stack[i].filename] and [stack[i].metadata]. *)
Record StackItem : Type := {
  filename : string;
  metadata : GroupingMetadata
}.

Definition DicomStack : Type := list StackItem.

(** [stack[i]] *)
Definition stack_getitem (stack : DicomStack) (i : nat) : Result StackItem :=
  match nth_error stack i with
  | Some it => Ok it
  | None => Raise (IndexError "list index out of range")
  end.

(** Modelled from the spec: the attribute [metadata] of a [DicomStack]
    ([dicomity.group]), which [load.py] reads as [main_group.metadata].
    The spec gives a Stack its ordered (filename, metadata) pairs, which
    [load.py] reads through [stack[i]], and its derived ordering; it gives
    the Stack no attribute [metadata] of its own, so the lookup raises, as
    Python does for an attribute an object does not have. *)
Definition stack_metadata (stack : DicomStack)
    : Result (list GroupingMetadata) :=
  Raise (AttributeError "'DicomStack' object has no attribute 'metadata'").

(** [l[i]] on a list. *)
Definition list_getitem {A : Type} (l : list A) (i : nat) : Result A :=
  match nth_error l i with
  | Some x => Ok x
  | None => Raise (IndexError "list index out of range")
  end.

(** [CoreWrapper()]: [raw_image] is unset until assigned. *)
Record CoreWrapper (V : Type) : Type := {
  raw_image : option (ndarray V)
}.

Definition CoreWrapper_new (V : Type) : CoreWrapper V :=
  {| raw_image := None |}.

Record CoreFilename : Type := {
  file_path : string;
  file_name : string
}.

(** An entry of [filenames]: a string or a [CoreFilename]. *)
Inductive FileRef : Type :=
| FStr (s : string)
| FCore (c : CoreFilename).

(** The [filenames] argument: one entry or a list of entries. *)
Inductive Filenames : Type :=
| OneName (f : FileRef)
| ManyNames (l : list FileRef).

(** [DicomDictionary]: its truth value and the tags [allTags()] returns. *)
Record DicomDictionary : Type := {
  dict_bool : bool;
  allTags : list string
}.

(** What [filereader.dcmread] returns: the [pixel_array] property (it may
    raise, or yield an array, or nothing) and the elements that were read. *)
Record FileDataset (V : Type) : Type := {
  pixel_array : Result (option (ndarray V));
  elements : list (string * string)
}.

(** ** The world outside the two modules *)

Record World (V : Type) : Type := {
  np_zero : DType -> V;
  np_cast : DType -> DType -> V -> V;
  np_none : DType -> Result V;
  file_bytes : string -> option (list byte);
  dcmread : string -> bool -> option (list string)
            -> Result (FileDataset V);
  fromPyDicom : FileDataset V -> Result GroupingMetadata;
  groupingTags : list string;
  sort_filenames : list FileRef -> list FileRef;
  essential_dictionary_without_pixel_data : DicomDictionary
}.

Section Collaborators.

Context {V : Type} (w : World V).

(** [np.zeros(shape, dtype)] *)
Definition np_zeros (shape : list nat) (dtype : PyObj) : M (ndarray V) :=
  match as_dtype dtype with
  | None => raise (TypeError "Cannot interpret object as a data type")
  | Some d =>
      emit (NpZeros shape d) ;;
      ret {| nd_dtype := d; nd_shape := shape;
             nd_item := fun _ => np_zero w d |}
  end.

(** [a[:, :, k] = value] when [n_indices] is 3 and [a[:, :, k, :] = value]
    when it is 4.  [value] is an array or [None]. *)
Definition setitem_axis2 (n_indices : nat) (a : ndarray V) (k : nat)
    (value : option (ndarray V)) : Result (ndarray V) :=
  if (length (nd_shape a) <? n_indices)%nat then
    Raise (IndexError "too many indices for array")
  else if (nth 2 (nd_shape a) 0 <=? k)%nat then
    Raise (IndexError "index is out of bounds for axis 2")
  else
    let target := drop_axis2 (nd_shape a) in
    let put (read : list nat -> V) : ndarray V :=
      {| nd_dtype := nd_dtype a; nd_shape := nd_shape a;
         nd_item := fun idx =>
           if (nth 2 idx 0 =? k)%nat then read (drop_axis2 idx)
           else nd_item a idx |} in
    match value with
    | None =>
        match np_none w (nd_dtype a) with
        | Ok v => Ok (put (fun _ => v))
        | Raise e => Raise e
        end
    | Some src =>
        if broadcastable (nd_shape src) target then
          Ok (put (fun idx =>
                np_cast w (nd_dtype src) (nd_dtype a)
                  (nd_item src (bcast_index (nd_shape src) target idx))))
        else Raise (ValueError "could not broadcast input array")
    end.

(** ** dicom.py *)

(** [filereader.dcmread(file_name, stop_before_pixels, specific_tags)] *)
Definition call_dcmread (file_name : string) (stop_before_pixels : bool)
    (specific_tags : option (list string)) : M (FileDataset V) :=
  emit (Dcmread file_name stop_before_pixels specific_tags) ;;
  lift (dcmread w file_name stop_before_pixels specific_tags).

Definition read_dicom_image (file_name : string) : M (option (ndarray V)) :=
  meta <- call_dcmread file_name false None ;;
  lift (pixel_array meta).

(** [if dictionary:] is false for [None] and follows the object's truth
    value otherwise. *)
Definition py_truthy (dictionary : option DicomDictionary) : bool :=
  match dictionary with
  | None => false
  | Some d => dict_bool d
  end.

Definition read_dicom_tags (file_name : string)
    (dictionary : option DicomDictionary)
    (specific_tags : option (list string)) : M (FileDataset V) :=
  let specific_tags :=
    if py_truthy dictionary then
      match dictionary with
      | Some d => Some (allTags d)
      | None => specific_tags
      end
    else specific_tags in
  meta <- call_dcmread file_name true specific_tags ;;
  ret meta.

Definition read_grouping_metadata (file_name : string) : M GroupingMetadata :=
  meta <- call_dcmread file_name true (Some (groupingTags w)) ;;
  lift (fromPyDicom w meta).

Definition DICM : list byte := [x44; x49; x43; x4d]%byte.

(** [f.seek(128); f.read(4)]: seeking past the end is allowed, and reading
    returns the bytes that are there, at most 4. *)
Definition seek_read (content : list byte) (offset count : nat) : list byte :=
  firstn count (skipn offset content).

Definition bytes_eqb (a b : list byte) : bool :=
  if list_eq_dec Byte.byte_eq_dec a b then true else false.

Definition is_dicom (file_name : string) : M bool :=
  emit (OpenFile file_name) ;;
  match file_bytes w file_name with
  | None => raise (FileNotFoundError file_name)
  | Some content =>
      let preamble := seek_read content 128 4 in
      ret (bytes_eqb preamble DICM)
  end.

(** [os.path.join(a, b)] on POSIX. *)
Definition ends_with_sep (s : string) : bool :=
  match rev (list_ascii_of_string s) with
  | c :: _ => Ascii.eqb c "/"%char
  | [] => false
  end.

Definition starts_with_sep (s : string) : bool :=
  match s with
  | String c _ => Ascii.eqb c "/"%char
  | EmptyString => false
  end.

Definition join (a b : string) : string :=
  if starts_with_sep b then b
  else if (String.eqb a "" || ends_with_sep a)%bool then a ++ b
  else a ++ "/" ++ b.

Definition is_dicom_image_file (file_path file_name : string) : M bool :=
  if String.eqb file_name "DICOMDIR" then ret false
  else is_dicom (join file_path file_name).

End Collaborators.

(** ** Geometry of a stack (dicomity.group)

    [DicomGrouper] and [DicomStack] live in [dicomity.group], which
    [load.py] imports.  Positions are floating-point millimetres in Python;
    here they are exact rationals in canonical form. *)

Definition Point : Type := (Qc * Qc * Qc)%type.

Definition cross (a b : Point) : Point :=
  let '(ax, ay, az) := a in
  let '(bx, b_y, bz) := b in
  (ay * bz - az * b_y, az * bx - ax * bz, ax * b_y - ay * bx)%Qc.

Definition dot (a b : Point) : Qc :=
  let '(ax, ay, az) := a in
  let '(bx, b_y, bz) := b in
  (ax * bx + ay * b_y + az * bz)%Qc.

Definition Qcleb (x y : Qc) : bool := Qle_bool x y.

Definition Point_eqb (a b : Point) : bool :=
  let '(ax, ay, az) := a in
  let '(bx, b_y, bz) := b in
  Qc_eq_bool ax bx && Qc_eq_bool ay b_y && Qc_eq_bool az bz.

(** Modelled from the spec: the stable ascending sort of the slices of a
    [DicomStack] ([dicomity.group]) by scalar coordinate.  Insertion sort
    of keyed elements: an element is placed before the first one whose key
    is not smaller, so elements with equal keys keep their order. *)
Fixpoint insert_keyed {A} (x : Qc * A) (l : list (Qc * A)) : list (Qc * A) :=
  match l with
  | [] => [x]
  | y :: l' =>
      if Qcleb (fst x) (fst y) then x :: y :: l'
      else y :: insert_keyed x l'
  end.

Fixpoint sort_keyed {A} (l : list (Qc * A)) : list (Qc * A) :=
  match l with
  | [] => []
  | x :: l' => insert_keyed x (sort_keyed l')
  end.

(** The same sort on bare scalars. *)
Fixpoint insert_Qc (x : Qc) (l : list Qc) : list Qc :=
  match l with
  | [] => [x]
  | y :: l' => if Qcleb x y then x :: y :: l' else y :: insert_Qc x l'
  end.

Fixpoint sort_Qc (l : list Qc) : list Qc :=
  match l with
  | [] => []
  | x :: l' => insert_Qc x (sort_Qc l')
  end.

(** Modelled from the spec: the consecutive scalar differences of the
    sorted slices of a [DicomStack] ([dicomity.group]). *)
Fixpoint diffs (l : list Qc) : list Qc :=
  match l with
  | a :: ((b :: _) as l') => (b - a)%Qc :: diffs l'
  | _ => []
  end.

(** Modelled from the spec: the median [DicomStack] ([dicomity.group])
    takes of the differences: the middle element of the sorted values, or
    the mean of the two middle elements; nothing for an empty list. *)
Definition median (l : list Qc) : option Qc :=
  let s := sort_Qc l in
  let n := length s in
  match n with
  | 0 => None
  | _ =>
      if Nat.even n
      then Some ((nth (n / 2 - 1) s 0%Qc + nth (n / 2) s 0%Qc)
                 / Q2Qc (2 # 1))%Qc
      else Some (nth (n / 2) s 0%Qc)
  end.

(** Modelled from the spec: the dominant slice axis of [DicomStack]
    ([dicomity.group]), the cross product of the two in-plane direction
    cosines, and the scalar coordinate of a slice, its position projected
    onto that axis. *)
Definition dominant_axis (o : Point * Point) : Point :=
  cross (fst o) (snd o).

Definition scalar_position (axis : Point) (it : StackItem)
    : option (Qc * StackItem) :=
  match position (metadata it) with
  | Some p => Some (dot p axis, it)
  | None => None
  end.

(** Modelled from the spec: whether all positions of a [DicomStack]
    ([dicomity.group]) are known: the scalar of every slice, when every
    slice has a position. *)
Fixpoint all_scalars (axis : Point) (stack : DicomStack)
    : option (list (Qc * StackItem)) :=
  match stack with
  | [] => Some []
  | it :: stack' =>
      match scalar_position axis it, all_scalars axis stack' with
      | Some k, Some ks => Some (k :: ks)
      | _, _ => None
      end
  end.

(** Modelled from the spec: the orientation check of [DicomStack]
    ([dicomity.group]): a slice has the orientation [o]. *)
Definition same_orientation (o : Point * Point) (it : StackItem) : bool :=
  Point_eqb (fst o) (fst (orientationVector (metadata it)))
  && Point_eqb (snd o) (snd (orientationVector (metadata it))).

Definition StackParameters : Type :=
  (option Qc * option Point * list Qc)%type.

(** Modelled from the spec: [DicomStack.sort_and_get_parameters]
    ([dicomity.group]).  With every position known the slices are stably
    sorted by scalar coordinate, the thickness is the median consecutive
    difference, the origin is the position of the first sorted slice and
    the sorted scalars are returned.  Otherwise the order is kept, a warning
    is emitted, the thickness is unknown and the index sequence is returned.
    Orientations that differ within the group are reported.  The sorted
    stack is returned with the parameters, as the method reorders the stack
    it is called on. *)
Definition sort_and_get_parameters (stack : DicomStack)
    : M (DicomStack * StackParameters) :=
  match stack with
  | [] => ret ([], (None, None, []))
  | first :: _ =>
      let o := orientationVector (metadata first) in
      (if forallb (same_orientation o) stack then ret tt
       else emit (ShowWarning "sort_and_get_parameters:InconsistentOrientation"
                    "The images in this group have different orientations.")) ;;
      match all_scalars (dominant_axis o) stack with
      | Some keyed =>
          let sorted := sort_keyed keyed in
          let sorted_positions := map fst sorted in
          let origin :=
            match sorted with
            | (_, it) :: _ => position (metadata it)
            | [] => None
            end in
          ret (map snd sorted,
               (median (diffs sorted_positions), origin, sorted_positions))
      | None =>
          emit (ShowWarning "sort_and_get_parameters:MissingPositions"
                  "Slice positions are missing; the file order is used.") ;;
          ret (stack,
               (None, None,
                map (fun i => Q2Qc (inject_Z (Z.of_nat i)))
                    (seq 0 (length stack))))
      end
  end.

(** Modelled from the spec: [DicomGrouper] ([dicomity.group]), the groups
    in the order they were created, each with its series key. *)
Definition DicomGrouper : Type := list (string * DicomStack).

Definition DicomGrouper_new : DicomGrouper := [].

(** Modelled from the spec: [DicomGrouper.add_item] ([dicomity.group])
    appends the slice to the group whose series key matches and creates a
    new group when none does. *)
Fixpoint add_item (g : DicomGrouper) (file : string) (md : GroupingMetadata)
    : DicomGrouper :=
  match g with
  | [] => [(seriesKey md, [{| filename := file; metadata := md |}])]
  | (k, items) :: g' =>
      if String.eqb k (seriesKey md)
      then (k, items ++ [{| filename := file; metadata := md |}]) :: g'
      else (k, items) :: add_item g' file md
  end.

(** Modelled from the spec: [DicomGrouper.number_of_groups]
    ([dicomity.group]). *)
Definition number_of_groups (g : DicomGrouper) : nat := length g.

(** Modelled from the spec: the scan of [DicomGrouper.largest_stack]
    ([dicomity.group]): a later group replaces the best one so far only
    when it has strictly more members. *)
Fixpoint largest_from (best : DicomStack) (g : DicomGrouper) : DicomStack :=
  match g with
  | [] => best
  | (_, s) :: g' =>
      if (length best <? length s)%nat then largest_from s g'
      else largest_from best g'
  end.

(** Modelled from the spec: [DicomGrouper.largest_stack]
    ([dicomity.group]) selects the group with the most members, the first
    one among equals.  The spec gives no result for a grouper without
    groups; here that raises. *)
Definition largest_stack (g : DicomGrouper) : Result DicomStack :=
  match g with
  | [] => Raise (ValueError "no groups")
  | (_, s) :: g' => Ok (largest_from s g')
  end.

(** ** load.py *)

Section Load.

Context {V : Type} (w : World V).

Definition NotADicomFile_text (combined_file_name : string) : string :=
  "load_metadata_from_dicom_files: The file " ++ combined_file_name
  ++ " is not a DICOM file and will be removed from this series.".

Definition NotADicomFile (combined_file_name : string) : Event :=
  ShowWarning "load_metadata_from_dicom_files:NotADicomFile"
              (NotADicomFile_text combined_file_name).

(** The path [load_metadata_from_dicom_files] tests and reads for an entry
    of [filenames]. *)
Definition combined_name (image_path : string) (next_file : FileRef)
    : string :=
  let (file_path, file_name) :=
    match next_file with
    | FCore c => (file_path c, file_name c)
    | FStr s => (image_path, s)
    end in
  join file_path file_name.

(** The body of the loop over [sorted_filenames]; the state is the grouper
    and [file_index]. *)
Definition load_next_metadata (image_path : string) (num_slices : nat)
    (next_file : FileRef) (st : DicomGrouper * nat) : M (DicomGrouper * nat) :=
  let (dicom_grouper, file_index) := st in
  let combined_file_name := combined_name image_path next_file in
  dicom <- is_dicom w combined_file_name ;;
  dicom_grouper <-
    (if dicom : bool then
       md <- read_grouping_metadata w combined_file_name ;;
       ret (add_item dicom_grouper combined_file_name md)
     else
       emit (NotADicomFile combined_file_name) ;;
       ret dicom_grouper) ;;
  percent <- lift (py_round_div (100 * Z.of_nat file_index)
                                (Z.of_nat num_slices)) ;;
  emit (UpdateProgressValue percent) ;;
  ret (dicom_grouper, file_index + 1).

(** [isinstance(filenames, str)] and [isinstance(filenames, CoreFilename)]:
    a single entry becomes a one-element list. *)
Definition as_list (filenames : Filenames) : list FileRef :=
  match filenames with
  | OneName f => [f]
  | ManyNames l => l
  end.

Definition load_metadata_from_dicom_files (image_path : string)
    (filenames : Filenames) : M DicomGrouper :=
  emit (ShowProgress "Reading image metadata") ;;
  emit (UpdateProgressValue 0) ;;
  let filenames := as_list filenames in
  let sorted_filenames := sort_filenames w filenames in
  let num_slices := length filenames in
  let dicom_grouper := DicomGrouper_new in
  let dictionary := essential_dictionary_without_pixel_data w in
  st <- for_in sorted_filenames
          (load_next_metadata image_path num_slices) (dicom_grouper, 0) ;;
  emit CompleteProgress ;;
  ret (fst st).

Definition SettingDatatypeToInt8 : Event :=
  ShowMessage "load_images_from_stack:SettingDatatypeToInt8"
              "Char datatype detected. Setting to int8".

(** [raw_image[:, :, k, :] = value] with several samples per pixel,
    [raw_image[:, :, k] = value] otherwise. *)
Definition store_slice (samples_per_pixel : nat) (raw : ndarray V) (k : nat)
    (value : option (ndarray V)) : M (ndarray V) :=
  lift (if (1 <? samples_per_pixel)%nat
        then setitem_axis2 w 4 raw k value
        else setitem_axis2 w 3 raw k value).

(** The body of the loop over [range(1, num_slices)]. *)
Definition load_next_slice (stack : DicomStack) (samples_per_pixel : nat)
    (file_index : nat) (raw : ndarray V) : M (ndarray V) :=
  item <- lift (stack_getitem stack file_index) ;;
  next_slice <- read_dicom_image w (filename item) ;;
  raw <- store_slice samples_per_pixel raw file_index next_slice ;;
  percent <- lift (py_round_div (100 * Z.of_nat file_index)
                                (Z.of_nat (length stack))) ;;
  emit (UpdateProgressValue percent) ;;
  ret raw.

Definition load_images_from_stack (stack : DicomStack) : M (CoreWrapper V) :=
  emit (ShowProgress "Reading pixel data") ;;
  emit (UpdateProgressValue 0) ;;
  let image_wrapper := CoreWrapper_new V in
  let num_slices := length stack in
  item0 <- lift (stack_getitem stack 0) ;;
  first_image_slice <- read_dicom_image w (filename item0) ;;
  match first_image_slice with
  | None => ret image_wrapper
  | Some first_image_slice =>
      let size_i := Rows (metadata item0) in
      let size_j := Columns (metadata item0) in
      let size_k := num_slices in
      let samples_per_pixel := SamplesPerPixel (metadata item0) in
      let data_type := nd_dtype first_image_slice in
      data_type <-
        (if dtype_eq data_type np_char then
           emit SettingDatatypeToInt8 ;;
           ret (PyStr "int8")
         else ret (PyDType data_type)) ;;
      let image_size :=
        if (1 <? samples_per_pixel)%nat
        then [size_i; size_j; size_k; samples_per_pixel]
        else [size_i; size_j; size_k] in
      raw <- np_zeros w image_size data_type ;;
      raw <- store_slice samples_per_pixel raw 0 (Some first_image_slice) ;;
      raw <- for_in (py_range 1 num_slices)
               (load_next_slice stack samples_per_pixel) raw ;;
      emit CompleteProgress ;;
      ret {| raw_image := Some raw |}
  end.

Definition MultipleGroupings : Event :=
  ShowWarning "load_main_image_from_dicom_files:MultipleGroupings"
    ("I have removed some images from this dataset because the images "
     ++ "did not form a coherent set. This may be due to the presence of "
     ++ "scout images or dose reports, or localizer images in multiple "
     ++ "orientations. I have formed a volume form the largest coherent "
     ++ "set of images in the same orientation.").

Definition MainImage : Type :=
  (CoreWrapper V * GroupingMetadata * option Qc * option Point * list Qc)%type.

(** The second half of [load_main_image_from_dicom_files], from the choice
    of the group with the most images on. *)
Definition assemble_main_group (file_grouper : DicomGrouper) : M MainImage :=
  main_group <- lift (largest_stack file_grouper) ;;
  sorted <- sort_and_get_parameters main_group ;;
  let '(main_group, (slice_thickness, global_origin_mm, sorted_positions)) :=
    sorted in
  all_metadata <- lift (stack_metadata main_group) ;;
  representative_metadata <- lift (list_getitem all_metadata 0) ;;
  image_wrapper <- load_images_from_stack main_group ;;
  ret (image_wrapper, representative_metadata, slice_thickness,
       global_origin_mm, sorted_positions).

Definition load_main_image_from_dicom_files (image_path : string)
    (filenames : Filenames) : M MainImage :=
  let filenames :=
    match filenames with
    | OneName (FStr s) => ManyNames [FStr s]
    | _ => filenames
    end in
  file_grouper <- load_metadata_from_dicom_files image_path filenames ;;
  (if (1 <? number_of_groups file_grouper)%nat
   then emit MultipleGroupings else ret tt) ;;
  assemble_main_group file_grouper.

End Load.

(** * Vocabulary of the properties *)

(** The scalar coordinate of a slice along [axis] (0 when the slice has no
    position), and the sorted scalars of a stack whose orientation is [o]. *)
Definition scalar_of (axis : Point) (it : StackItem) : Qc :=
  match position (metadata it) with
  | Some p => dot p axis
  | None => 0%Qc
  end.

Definition keyed_slices (o : Point * Point) (stack : DicomStack)
    : list (Qc * StackItem) :=
  map (fun it => (scalar_of (dominant_axis o) it, it)) stack.

(** [n] scalars spaced [d] apart, starting at [a]; a list with the element
    at index [i] replaced by [x]. *)
Fixpoint evenly (a d : Qc) (n : nat) : list Qc :=
  match n with
  | 0 => []
  | S n' => a :: evenly (a + d)%Qc d n'
  end.

Definition set_nth (i : nat) (x : Qc) (l : list Qc) : list Qc :=
  firstn i l ++ x :: skipn (S i) l.

Definition Qcltb (x y : Qc) : bool := negb (Qcleb y x).

(** How many elements of a list are below, and above, [d]. *)
Definition count_below (d : Qc) (l : list Qc) : nat :=
  length (filter (fun g => Qcltb g d) l).

Definition count_above (d : Qc) (l : list Qc) : nat :=
  length (filter (fun g => Qcltb d g) l).

(** Every slice of the stack has a position. *)
Definition complete_positions (stack : DicomStack) : Prop :=
  forall it, In it stack -> position (metadata it) <> None.

(** The slices of the stack share one orientation. *)
Definition consistent_orientation (stack : DicomStack) : Prop :=
  forall a b, In a stack -> In b stack ->
    orientationVector (metadata a) = orientationVector (metadata b).

(** The thickness a run of [sort_and_get_parameters] returned, as a
    fraction in lowest terms. *)
Definition slice_thickness (m : M (DicomStack * StackParameters)) : option Q :=
  match outcome m with
  | Ok (_, (Some thickness, _, _)) => Some (this thickness)
  | _ => None
  end.

(** Adding the items of a list in order. *)
Definition add_items (g : DicomGrouper) (items : list StackItem)
    : DicomGrouper :=
  fold_left (fun g it => add_item g (filename it) (metadata it)) items g.

(** The position of the first slice of a stack. *)
Definition first_position (stack : DicomStack) : option Point :=
  match stack with
  | it :: _ => position (metadata it)
  | [] => None
  end.

Section Vocabulary.

Context {V : Type} (w : World V).

(** The item the metadata pass adds for an entry whose grouping metadata
    can be read (none otherwise), and the items of a list of entries. *)
Definition item_of (image_path : string) (f : FileRef) : list StackItem :=
  match outcome (read_grouping_metadata w (combined_name image_path f)) with
  | Ok md => [{| filename := combined_name image_path f; metadata := md |}]
  | Raise _ => []
  end.

Definition items_of (image_path : string) (l : list FileRef)
    : list StackItem :=
  flat_map (item_of image_path) l.

(** An entry that passes the signature check and whose metadata is read,
    with series key [key], orientation [o] and a position. *)
Definition coherent_slice (image_path : string) (key : string)
    (o : Point * Point) (f : FileRef) : Prop :=
  outcome (is_dicom w (combined_name image_path f)) = Ok true
  /\ exists md,
       outcome (read_grouping_metadata w (combined_name image_path f)) = Ok md
       /\ seriesKey md = key
       /\ orientationVector md = o
       /\ position md <> None.

(** The shape [load_images_from_stack] allocates for [n] slices, and the
    shape of the part of the buffer one slice is written to. *)
Definition volume_shape (md : GroupingMetadata) (n : nat) : list nat :=
  if (1 <? SamplesPerPixel md)%nat
  then [Rows md; Columns md; n; SamplesPerPixel md]
  else [Rows md; Columns md; n].

Definition slice_shape (md : GroupingMetadata) : list nat :=
  if (1 <? SamplesPerPixel md)%nat
  then [Rows md; Columns md; SamplesPerPixel md]
  else [Rows md; Columns md].

(** Decoding a slice yields an array that can be assigned to one slice of
    the buffer allocated from the metadata [md]. *)
Definition decodes_to_fit (md : GroupingMetadata) (it : StackItem) : Prop :=
  exists a : ndarray V,
    outcome (read_dicom_image w (filename it)) = Ok (Some a)
    /\ broadcastable (nd_shape a) (slice_shape md) = true.

(** The buffer as allocated, before any slice is written, and the events
    up to its allocation. *)
Definition fresh_volume (md : GroupingMetadata) (n : nat) (d : DType)
    : ndarray V :=
  {| nd_dtype := d; nd_shape := volume_shape md n;
     nd_item := fun _ => np_zero w d |}.

Definition preamble_events (item0 : StackItem) (n : nat) (d : DType)
    : list Event :=
  [ShowProgress "Reading pixel data"; UpdateProgressValue 0;
   Dcmread (filename item0) false None;
   NpZeros (volume_shape (metadata item0) n) d].

Definition is_pixel_read (ev : Event) : bool :=
  match ev with
  | Dcmread _ false _ => true
  | _ => false
  end.

(** How many slices a run has asked the decoder for. *)
Definition pixel_reads (t : list Event) : nat :=
  length (filter is_pixel_read t).

(** The events a run of [load_images_from_stack] can perform: progress
    calls, the allocation, and pixel reads of files of the stack. *)
Definition image_event (stack : DicomStack) (ev : Event) : Prop :=
  match ev with
  | ShowProgress _ | UpdateProgressValue _ | CompleteProgress
  | NpZeros _ _ => True
  | Dcmread f false None => exists it, In it stack /\ filename it = f
  | _ => False
  end.


Definition is_MultipleGroupings (ev : Event) : bool :=
  match ev with
  | ShowWarning code _ =>
      String.eqb code "load_main_image_from_dicom_files:MultipleGroupings"
  | _ => false
  end.


End Vocabulary.

(** ** Projections of a trace *)

(** The files whose pixel data a run asked the decoder for, the files whose
    metadata it asked for, and the files it opened, each in order. *)
Definition pixel_read_files (t : list Event) : list string :=
  flat_map (fun ev => match ev with
                      | Dcmread f false _ => [f]
                      | _ => []
                      end) t.

Definition metadata_read_files (t : list Event) : list string :=
  flat_map (fun ev => match ev with
                      | Dcmread f true _ => [f]
                      | _ => []
                      end) t.

Definition opened_files (t : list Event) : list string :=
  flat_map (fun ev => match ev with
                      | OpenFile f => [f]
                      | _ => []
                      end) t.

(** The warnings of a run, in order. *)
Definition warnings (t : list Event) : list Event :=
  filter (fun ev => match ev with
                    | ShowWarning _ _ => true
                    | _ => false
                    end) t.

(** A progress value is a percentage. *)
Definition percent_event (ev : Event) : Prop :=
  match ev with
  | UpdateProgressValue p => (0 <= p <= 100)%Z
  | _ => True
  end.

(** The events of the loop of [load_images_from_stack]. *)
Definition slice_event (ev : Event) : Prop :=
  match ev with
  | Dcmread _ false None | UpdateProgressValue _ => True
  | _ => False
  end.

Section Signature.

Context {V : Type} (w : World V).

(** [is_dicom] returns True for the path of an entry. *)
Definition passes_signature (image_path : string) (f : FileRef) : bool :=
  match outcome (is_dicom w (combined_name image_path f)) with
  | Ok true => true
  | _ => false
  end.

(** The element NumPy stores at [idx] of a buffer of dtype [d] and shape
    [shape] when the array [a] is assigned to the slice [idx] lies in. *)
Definition stored_item (d : DType) (shape : list nat) (a : ndarray V)
    (idx : list nat) : V :=
  np_cast w (nd_dtype a) d
    (nd_item a (bcast_index (nd_shape a) (drop_axis2 shape)
                            (drop_axis2 idx))).

(** The element of the volume [raw] at [idx] is what assigning the decoded
    slice of [item] stored there: the converted element of the array, or
    what NumPy makes of [None]. *)
Definition holds_slice (raw : ndarray V) (item : StackItem)
    (idx : list nat) : Prop :=
  match outcome (read_dicom_image w (filename item)) with
  | Ok (Some a) =>
      nd_item raw idx = stored_item (nd_dtype raw) (nd_shape raw) a idx
  | Ok None => np_none w (nd_dtype raw) = Ok (nd_item raw idx)
  | Raise _ => False
  end.

(** An entry the metadata pass gets past: its file exists and, when the
    file carries the signature, its grouping metadata can be read. *)
Definition loadable (image_path : string) (f : FileRef) : Prop :=
  file_bytes w (combined_name image_path f) <> None
  /\ (passes_signature image_path f = true ->
      exists md, outcome (read_grouping_metadata w
                            (combined_name image_path f)) = Ok md).

(** The warning of the metadata pass for an entry. *)
Definition not_a_dicom_file (image_path : string) (f : FileRef) : Event :=
  NotADicomFile (combined_name image_path f).

End Signature.

(** * Sample worlds *)

Module Samples.

Definition zeros (n : nat) : list byte := repeat x00%byte n.

Definition image (d : DType) (shape : list nat) : ndarray Z :=
  {| nd_dtype := d; nd_shape := shape; nd_item := fun _ => 7%Z |}.

(** Axial slices of 4 x 4 pixels at height [z] millimetres, when the
    position is known. *)
Definition md (key : string) (z : option Z) (spp : nat) : GroupingMetadata :=
  {| seriesKey := key;
     orientationVector := ((1, 0, 0), (0, 1, 0))%Qc;
     position :=
       match z with
       | Some z => Some (0, 0, Q2Qc (inject_Z z))%Qc
       | None => None
       end;
     Rows := 4; Columns := 4; SamplesPerPixel := spp |}.

Definition slice (file : string) (z : Z) (spp : nat) : StackItem :=
  {| filename := file; metadata := md "s1" (Some z) spp |}.

Definition lookup (k : string) (l : list (string * string)) : string :=
  match find (fun p => String.eqb (fst p) k) l with
  | Some p => snd p
  | None => ""
  end.

Definition digit (s : string) : option Z :=
  match s with
  | String c _ => Some (Z.of_nat (nat_of_ascii c) - 48)%Z
  | EmptyString => None
  end.

Definition from_dataset (ds : FileDataset Z) : Result GroupingMetadata :=
  Ok (md (lookup "Series" (elements ds)) (digit (lookup "Z" (elements ds))) 1).

(** A dataset read with [stop_before_pixels] has no pixel data. *)
Definition dataset (stop : bool) (px : option (ndarray Z))
    (series z : string) : Result (FileDataset Z) :=
  Ok {| pixel_array :=
          if stop then Raise (AttributeError "no pixel data") else Ok px;
        elements := [("Series", series); ("Z", z)] |}.

Definition read (path : string) (stop : bool) (tags : option (list string))
    : Result (FileDataset Z) :=
  if String.eqb path "/data/a.dcm"
  then dataset stop (Some (image dt_int16 [4; 4])) "s1" "0"
  else if String.eqb path "/data/b.dcm"
  then dataset stop (Some (image dt_int16 [4; 4])) "s1" "2"
  else if String.eqb path "/data/c.dcm"
  then dataset stop (Some (image dt_int16 [4; 4])) "s1" "4"
  else if String.eqb path "/data/d.dcm"
  then dataset stop (Some (image dt_int16 [4; 4])) "s1" "6"
  else if String.eqb path "/data/e.dcm"
  then dataset stop (Some (image dt_int16 [4; 4])) "s1" "8"
  else if String.eqb path "/data/nopos.dcm"
  then dataset stop (Some (image dt_int16 [4; 4])) "s1" ""
  else if String.eqb path "/data/scout.dcm"
  then dataset stop (Some (image dt_int16 [4; 4])) "s2" "0"
  else if String.eqb path "/data/rgb.dcm"
  then dataset stop (Some (image dt_uint8 [4; 4; 3])) "s3" "0"
  else if String.eqb path "/data/char.dcm"
  then dataset stop (Some (image (dt_bytes 1) [4; 4])) "s1" "0"
  else if String.eqb path "/data/none.dcm"
  then dataset stop None "s1" "0"
  else if String.eqb path "/data/DICOMDIR"
  then dataset true None "" ""
  else if String.eqb path "/data/bad.dcm"
  then Raise (InvalidDicomError path)
  else Raise (FileNotFoundError path).

Definition with_signature : list string :=
  ["/data/a.dcm"; "/data/b.dcm"; "/data/c.dcm"; "/data/d.dcm"; "/data/e.dcm";
   "/data/nopos.dcm"; "/data/scout.dcm"; "/data/rgb.dcm"; "/data/char.dcm";
   "/data/none.dcm"; "/data/DICOMDIR"; "/data/bad.dcm"].

Definition bytes (path : string) : option (list byte) :=
  if existsb (String.eqb path) with_signature
  then Some (zeros 128 ++ DICM ++ zeros 16)
  else if String.eqb path "/data/notes.txt" then Some (zeros 200)
  else if String.eqb path "/data/empty" then Some []
  else None.

Definition world : World Z :=
  {| np_zero := fun _ => 0%Z;
     np_cast := fun _ _ v => v;
     np_none := fun _ => Raise (TypeError "int() argument must be a number");
     file_bytes := bytes;
     dcmread := read;
     fromPyDicom := from_dataset;
     groupingTags := ["ImageOrientationPatient"; "ImagePositionPatient"];
     sort_filenames := fun l => l;
     essential_dictionary_without_pixel_data :=
       {| dict_bool := true; allTags := ["PatientName"] |} |}.

(** A series spread over two folders whose file names repeat: slices at
    (0, 0, 5) and (0, 0, 7) in folder x and a slice at (3, 0, 5) in folder
    y.  Here [sort_filenames] sorts the entries by file name and keeps the
    order of entries with the same name. *)
Definition entry_name (f : FileRef) : string :=
  match f with
  | FStr s => s
  | FCore c => file_name c
  end.

Fixpoint insert_by_name (f : FileRef) (l : list FileRef) : list FileRef :=
  match l with
  | [] => [f]
  | g :: l' =>
      if String.leb (entry_name f) (entry_name g) then f :: g :: l'
      else g :: insert_by_name f l'
  end.

Definition sort_by_name (l : list FileRef) : list FileRef :=
  fold_right insert_by_name [] l.

Definition in_folder (folder name : string) : FileRef :=
  FCore {| file_path := folder; file_name := name |}.

Definition dataset_at (stop : bool) (x z : string) : Result (FileDataset Z) :=
  Ok {| pixel_array :=
          if stop then Raise (AttributeError "no pixel data")
          else Ok (Some (image dt_int16 [4; 4]));
        elements := [("Series", "s1"); ("X", x); ("Z", z)] |}.

Definition read_folders (path : string) (stop : bool)
    (tags : option (list string)) : Result (FileDataset Z) :=
  if String.eqb path "/data/x/1.dcm" then dataset_at stop "0" "5"
  else if String.eqb path "/data/y/1.dcm" then dataset_at stop "3" "5"
  else if String.eqb path "/data/x/2.dcm" then dataset_at stop "0" "7"
  else Raise (FileNotFoundError path).

Definition from_folders (ds : FileDataset Z) : Result GroupingMetadata :=
  Ok {| seriesKey := lookup "Series" (elements ds);
        orientationVector := ((1, 0, 0), (0, 1, 0))%Qc;
        position :=
          match digit (lookup "X" (elements ds)),
                digit (lookup "Z" (elements ds)) with
          | Some x, Some z =>
              Some (Q2Qc (inject_Z x), 0, Q2Qc (inject_Z z))%Qc
          | _, _ => None
          end;
        Rows := 4; Columns := 4; SamplesPerPixel := 1 |}.

Definition bytes_folders (path : string) : option (list byte) :=
  if existsb (String.eqb path)
       ["/data/x/1.dcm"; "/data/y/1.dcm"; "/data/x/2.dcm"]
  then Some (zeros 128 ++ DICM ++ zeros 16)
  else None.

Definition folders : World Z :=
  {| np_zero := fun _ => 0%Z;
     np_cast := fun _ _ v => v;
     np_none := fun _ => Raise (TypeError "int() argument must be a number");
     file_bytes := bytes_folders;
     dcmread := read_folders;
     fromPyDicom := from_folders;
     groupingTags := ["ImageOrientationPatient"; "ImagePositionPatient"];
     sort_filenames := sort_by_name;
     essential_dictionary_without_pixel_data :=
       {| dict_bool := true; allTags := ["PatientName"] |} |}.

End Samples.

(** * Properties *)

Unset Implicit Arguments.

(** ** Sequencing *)

Lemma bind_Ok {A B} (m : M A) (f : A -> M B) a :
  outcome m = Ok a ->
  bind m f = (trace m ++ trace (f a), outcome (f a)).
Proof. intros H. unfold bind. now rewrite H. Qed.

Lemma bind_Raise {A B} (m : M A) (f : A -> M B) e :
  outcome m = Raise e -> bind m f = (trace m, Raise e).
Proof. intros H. unfold bind. now rewrite H. Qed.

Lemma outcome_bind_Ok {A B} (m : M A) (f : A -> M B) b :
  outcome (bind m f) = Ok b ->
  exists a, outcome m = Ok a /\ outcome (f a) = Ok b.
Proof.
  unfold bind. destruct (outcome m) as [a|e]; simpl; intros H.
  - now exists a.
  - discriminate.
Qed.

Lemma trace_bind_In {A B} (m : M A) (f : A -> M B) ev :
  In ev (trace (bind m f)) ->
  In ev (trace m) \/ exists a, outcome m = Ok a /\ In ev (trace (f a)).
Proof.
  unfold bind. destruct (outcome m) as [a|e]; simpl; intros H.
  - apply in_app_or in H. destruct H; [now left | right; now exists a].
  - now left.
Qed.

Lemma bind_emit {B} ev (k : unit -> M B) :
  bind (emit ev) k = (ev :: trace (k tt), outcome (k tt)).
Proof. reflexivity. Qed.

Lemma bind_ret {A B} (a : A) (k : A -> M B) : bind (ret a) k = k a.
Proof. unfold bind, ret. simpl. now destruct (k a). Qed.

Lemma bind_lift_Ok {A B} (a : A) (k : A -> M B) : bind (lift (Ok a)) k = k a.
Proof. apply (bind_ret a k). Qed.

Lemma bind_lift_Raise {A B} e (k : A -> M B) :
  bind (lift (Raise e)) k = ([], Raise e).
Proof. reflexivity. Qed.

Lemma bind_pair_Ok {A B} t (a : A) (k : A -> M B) :
  bind (t, Ok a) k = (t ++ trace (k a), outcome (k a)).
Proof. reflexivity. Qed.

Lemma bind_pair_Raise {A B} t e (k : A -> M B) :
  bind (t, Raise e) k = (t, Raise e).
Proof. reflexivity. Qed.

Lemma M_eta {A} (m : M A) : m = (trace m, outcome m).
Proof. now destruct m. Qed.

(** ** dicom.py *)

(** C10. In [read_dicom_tags], a truthy [dictionary] overrides
    [specific_tags]: the decoder is asked for [dictionary.allTags()]
    whatever the caller passed, so the call does not depend on
    [specific_tags]. *)
Theorem read_dicom_tags_dictionary_overrides :
  forall (V : Type) (w : World V) (file_name : string)
         (d : DicomDictionary) (specific_tags other : option (list string)),
    py_truthy (Some d) = true ->
    trace (read_dicom_tags w file_name (Some d) specific_tags)
      = [Dcmread file_name true (Some (allTags d))]
    /\ outcome (read_dicom_tags w file_name (Some d) specific_tags)
      = dcmread w file_name true (Some (allTags d))
    /\ read_dicom_tags w file_name (Some d) specific_tags
      = read_dicom_tags w file_name (Some d) other.
Proof.
  intros V w file_name d specific_tags other Ht.
  unfold read_dicom_tags. rewrite Ht. unfold call_dcmread.
  rewrite bind_emit. cbn [trace outcome fst snd lift].
  destruct (dcmread w file_name true (Some (allTags d))) as [meta|e] eqn:E.
  - repeat split.
  - repeat split.
Qed.

Lemma read_dicom_tags_dictionary_overrides_witness :
  trace (read_dicom_tags Samples.world "/data/a.dcm"
           (Some {| dict_bool := true; allTags := ["Rows"; "Columns"] |})
           (Some ["PatientName"]))
  = [Dcmread "/data/a.dcm" true (Some ["Rows"; "Columns"])].
Proof.
  apply (read_dicom_tags_dictionary_overrides Z Samples.world "/data/a.dcm"
           {| dict_bool := true; allTags := ["Rows"; "Columns"] |}
           (Some ["PatientName"]) None).
  reflexivity.
Defined.

Lemma bytes_eqb_eq (a b : list byte) : bytes_eqb a b = true <-> a = b.
Proof.
  unfold bytes_eqb. destruct (list_eq_dec Byte.byte_eq_dec a b); split;
    intros; congruence.
Qed.

Lemma nth_error_seek_read (content : list byte) offset count i :
  i < count ->
  nth_error (seek_read content offset count) i
  = nth_error content (offset + i).
Proof.
  intros Hi. unfold seek_read.
  rewrite nth_error_firstn.
  destruct (Nat.ltb_spec i count) as [_|Hge]; [|lia].
  now rewrite nth_error_skipn.
Qed.

Lemma length_seek_read (content : list byte) offset count :
  length (seek_read content offset count)
  = Nat.min count (length content - offset).
Proof. unfold seek_read. now rewrite length_firstn, length_skipn. Qed.

(** What [f.seek(128); f.read(4)] returns equals [b"DICM"] exactly when
    the file has the four bytes D, I, C, M at offsets 128 to 131. *)
Lemma seek_read_DICM (content : list byte) :
  seek_read content 128 4 = DICM <->
  (forall i, i < 4 -> nth_error content (128 + i) = nth_error DICM i).
Proof.
  split.
  - intros H i Hi. rewrite <- H. symmetry. now apply nth_error_seek_read.
  - intros H. apply nth_error_ext. intros i.
    destruct (Nat.lt_ge_cases i 4) as [Hi|Hi].
    + rewrite nth_error_seek_read by assumption. now apply H.
    + assert (Hl : length (seek_read content 128 4) <= i).
      { rewrite length_seek_read. lia. }
      apply nth_error_None in Hl. rewrite Hl. symmetry.
      apply nth_error_None. simpl. lia.
Qed.

(** C4. For a file that can be opened, [is_dicom] returns without raising,
    and returns True exactly when the four bytes at offset 128 are "DICM";
    a zero-length file, and any file shorter than 132 bytes, gives False. *)
Theorem is_dicom_signature :
  forall (V : Type) (w : World V) (file_name : string) (content : list byte),
    file_bytes w file_name = Some content ->
    exists b : bool,
      outcome (is_dicom w file_name) = Ok b
      /\ (b = true <->
          forall i, i < 4 -> nth_error content (128 + i) = nth_error DICM i)
      /\ (length content < 132 -> b = false)
      /\ (content = [] -> b = false).
Proof.
  intros V w file_name content Hf.
  exists (bytes_eqb (seek_read content 128 4) DICM).
  assert (Hshort : length content < 132 ->
                   bytes_eqb (seek_read content 128 4) DICM = false).
  { intros Hlen.
    destruct (bytes_eqb (seek_read content 128 4) DICM) eqn:E; [|reflexivity].
    apply bytes_eqb_eq in E.
    apply (f_equal (@length byte)) in E.
    rewrite length_seek_read in E. change (length DICM) with 4 in E. lia. }
  repeat split.
  - unfold is_dicom. rewrite bind_emit. now rewrite Hf.
  - intros Hb. apply bytes_eqb_eq in Hb. now apply seek_read_DICM.
  - intros H. apply bytes_eqb_eq. now apply seek_read_DICM.
  - exact Hshort.
  - intros ->. apply Hshort. simpl. lia.
Qed.

Lemma is_dicom_signature_witness :
  exists b : bool,
    outcome (is_dicom Samples.world "/data/empty") = Ok b
    /\ (b = true <->
        forall i, i < 4 -> nth_error [] (128 + i) = nth_error DICM i)
    /\ (@length byte [] < 132 -> b = false)
    /\ (@nil byte = [] -> b = false).
Proof.
  apply (is_dicom_signature Z Samples.world "/data/empty" []).
  reflexivity.
Defined.

Lemma outcome_bind {A B} (m : M A) (f : A -> M B) a :
  outcome m = Ok a -> outcome (bind m f) = outcome (f a).
Proof. intros H. now rewrite (bind_Ok _ _ _ H). Qed.

Lemma outcome_bind_Raise {A B} (m : M A) (f : A -> M B) e :
  outcome m = Raise e -> outcome (bind m f) = Raise e.
Proof. intros H. now rewrite (bind_Raise _ _ _ H). Qed.

Lemma trace_bind {A B} (m : M A) (f : A -> M B) a :
  outcome m = Ok a -> trace (bind m f) = trace m ++ trace (f a).
Proof. intros H. now rewrite (bind_Ok _ _ _ H). Qed.

Lemma trace_bind_Raise {A B} (m : M A) (f : A -> M B) e :
  outcome m = Raise e -> trace (bind m f) = trace m.
Proof. intros H. now rewrite (bind_Raise _ _ _ H). Qed.

(** ** NumPy assignment *)

Section Assignment.

Context {V : Type} (w : World V).

Lemma setitem_axis2_keeps n (a : ndarray V) k value a' :
  setitem_axis2 w n a k value = Ok a' ->
  nd_shape a' = nd_shape a /\ nd_dtype a' = nd_dtype a.
Proof.
  unfold setitem_axis2.
  destruct (length (nd_shape a) <? n)%nat; [discriminate|].
  destruct (nth 2 (nd_shape a) 0 <=? k)%nat; [discriminate|].
  destruct value as [src|].
  - destruct (broadcastable _ _); [|discriminate].
    intros H. injection H as <-. now split.
  - destruct (np_none w (nd_dtype a)); [|discriminate].
    intros H. injection H as <-. now split.
Qed.

Lemma setitem_axis2_fits n (a src : ndarray V) k :
  n <= length (nd_shape a) ->
  k < nth 2 (nd_shape a) 0 ->
  broadcastable (nd_shape src) (drop_axis2 (nd_shape a)) = true ->
  exists a', setitem_axis2 w n a k (Some src) = Ok a'.
Proof.
  intros Hn Hk Hb. unfold setitem_axis2.
  destruct (Nat.ltb_spec (length (nd_shape a)) n); [lia|].
  destruct (Nat.leb_spec (nth 2 (nd_shape a) 0) k); [lia|].
  rewrite Hb. eauto.
Qed.

Lemma store_slice_trace spp (raw : ndarray V) k value :
  trace (store_slice w spp raw k value) = [].
Proof. reflexivity. Qed.

Lemma store_slice_keeps spp (raw : ndarray V) k value raw' :
  outcome (store_slice w spp raw k value) = Ok raw' ->
  nd_shape raw' = nd_shape raw /\ nd_dtype raw' = nd_dtype raw.
Proof.
  unfold store_slice, lift, outcome. simpl.
  destruct (1 <? spp)%nat; apply setitem_axis2_keeps.
Qed.

Lemma store_slice_fits (md : GroupingMetadata) n (raw src : ndarray V) k :
  nd_shape raw = volume_shape md n ->
  k < n ->
  broadcastable (nd_shape src) (slice_shape md) = true ->
  exists raw', outcome (store_slice w (SamplesPerPixel md) raw k (Some src))
               = Ok raw'.
Proof.
  unfold volume_shape, slice_shape, store_slice, lift, outcome. simpl.
  intros Hs Hk Hb.
  destruct (1 <? SamplesPerPixel md)%nat;
    apply setitem_axis2_fits; rewrite Hs; simpl; auto; lia.
Qed.

End Assignment.

(** ** load_images_from_stack *)

Section LoadImages.

Context {V : Type} (w : World V).

Lemma read_dicom_image_trace f :
  trace (read_dicom_image w f) = [Dcmread f false None].
Proof.
  unfold read_dicom_image, call_dcmread, bind, emit, lift, trace, outcome.
  simpl. destruct (dcmread w f false None); reflexivity.
Qed.

Lemma pixel_reads_app t1 t2 :
  pixel_reads (t1 ++ t2) = pixel_reads t1 + pixel_reads t2.
Proof. unfold pixel_reads. now rewrite filter_app, length_app. Qed.

Lemma dtype_eq_np_char d : dtype_eq d np_char = false.
Proof. reflexivity. Qed.

(** The run of [load_images_from_stack] once the first slice has decoded
    to an array. *)
Lemma load_images_from_stack_decoded item0 rest first :
  outcome (read_dicom_image w (filename item0)) = Ok (Some first) ->
  let stack := item0 :: rest in
  let md := metadata item0 in
  let pre := preamble_events item0 (length stack) (nd_dtype first) in
  load_images_from_stack w stack =
  match outcome (store_slice w (SamplesPerPixel md)
                   (fresh_volume w md (length stack) (nd_dtype first)) 0
                   (Some first)) with
  | Raise e => (pre, Raise e)
  | Ok raw1 =>
      let loop := for_in (py_range 1 (length stack))
                    (load_next_slice w stack (SamplesPerPixel md)) raw1 in
      match outcome loop with
      | Raise e => (pre ++ trace loop, Raise e)
      | Ok raw =>
          (pre ++ trace loop ++ [CompleteProgress],
           Ok {| raw_image := Some raw |})
      end
  end.
Proof.
  intros Hd stack md pre. unfold load_images_from_stack.
  rewrite !bind_emit. cbn [trace outcome fst snd].
  change (stack_getitem stack 0) with (Ok item0).
  rewrite bind_lift_Ok.
  rewrite (bind_Ok _ _ _ Hd), read_dicom_image_trace.
  cbn [trace outcome fst snd].
  rewrite dtype_eq_np_char. cbv iota. rewrite bind_ret.
  unfold np_zeros. cbn [as_dtype]. rewrite bind_emit.
  cbn [trace outcome fst snd ret]. rewrite bind_pair_Ok.
  cbn [trace outcome fst snd app].
  fold (volume_shape md (length stack)).
  fold (fresh_volume w md (length stack) (nd_dtype first)).
  fold md.
  destruct (outcome (store_slice w (SamplesPerPixel md)
              (fresh_volume w md (length stack) (nd_dtype first)) 0
              (Some first))) as [raw1|e] eqn:Es.
  - rewrite (bind_Ok _ _ _ Es), store_slice_trace.
    cbn [trace outcome fst snd app].
    destruct (outcome (for_in (py_range 1 (length stack))
                (load_next_slice w stack (SamplesPerPixel md)) raw1))
      as [raw|e] eqn:El.
    + rewrite (bind_Ok _ _ _ El). rewrite bind_emit.
      cbn [trace outcome fst snd ret app]. reflexivity.
    + rewrite (bind_Raise _ _ _ El). reflexivity.
  - rewrite (bind_Raise _ _ _ Es), store_slice_trace. reflexivity.
Qed.

End LoadImages.

Section LoadLoop.

Context {V : Type} (w : World V).
Variable stack : DicomStack.
Variable spp : nat.

Lemma load_next_slice_raises k raw item e :
  nth_error stack k = Some item ->
  outcome (read_dicom_image w (filename item)) = Raise e ->
  load_next_slice w stack spp k raw
  = ([Dcmread (filename item) false None], Raise e).
Proof.
  intros Hk He. unfold load_next_slice, stack_getitem. rewrite Hk.
  rewrite bind_lift_Ok, (bind_Raise _ _ _ He), read_dicom_image_trace.
  reflexivity.
Qed.

(** One pass of the loop body asks the decoder for at most one slice. *)
Lemma load_next_slice_reads k raw :
  pixel_reads (trace (load_next_slice w stack spp k raw)) <= 1.
Proof.
  unfold load_next_slice.
  destruct (stack_getitem stack k) as [item|e];
    [|rewrite bind_lift_Raise; unfold pixel_reads; simpl; lia].
  rewrite bind_lift_Ok.
  destruct (outcome (read_dicom_image w (filename item))) as [v|e] eqn:Ed.
  - rewrite (bind_Ok _ _ _ Ed), read_dicom_image_trace.
    cbn [trace fst]. rewrite pixel_reads_app.
    change (pixel_reads [Dcmread (filename item) false None]) with 1.
    destruct (outcome (store_slice w spp raw k v)) as [raw'|e] eqn:Es.
    + rewrite (bind_Ok _ _ _ Es), store_slice_trace. cbn [trace fst app].
      destruct (py_round_div (100 * Z.of_nat k) (Z.of_nat (length stack)));
        unfold pixel_reads; simpl; lia.
    + rewrite (bind_Raise _ _ _ Es), store_slice_trace.
      unfold pixel_reads; simpl; lia.
  - rewrite (bind_Raise _ _ _ Ed), read_dicom_image_trace.
    unfold pixel_reads; simpl; lia.
Qed.

(** When the decoder fails on slice [i] and the loop has asked for it, the
    loop ends with that exception. *)
Lemma loop_propagates i item e :
  nth_error stack i = Some item ->
  outcome (read_dicom_image w (filename item)) = Raise e ->
  forall n a raw,
    a <= i ->
    i - a < pixel_reads (trace (for_in (seq a n)
                                  (load_next_slice w stack spp) raw)) ->
    outcome (for_in (seq a n) (load_next_slice w stack spp) raw) = Raise e.
Proof.
  intros Hi He. induction n as [|n IH]; intros a raw Ha Hreads.
  - unfold pixel_reads in Hreads. simpl in Hreads. lia.
  - cbn [seq for_in] in *.
    destruct (Nat.eq_dec i a) as [->|Hne].
    + now rewrite (load_next_slice_raises _ _ _ _ Hi He).
    + pose proof (load_next_slice_reads a raw) as Hone.
      destruct (outcome (load_next_slice w stack spp a raw))
        as [raw'|e'] eqn:Eb.
      * rewrite (bind_Ok _ _ _ Eb) in *. cbn [trace outcome fst snd] in *.
        rewrite pixel_reads_app in Hreads.
        apply IH; lia.
      * rewrite (bind_Raise _ _ _ Eb) in Hreads. cbn [trace fst] in Hreads.
        lia.
Qed.

(** A loop that completes has decoded every slice it ranged over. *)
Lemma loop_completes_decoded n :
  forall a raw raw',
    outcome (for_in (seq a n) (load_next_slice w stack spp) raw) = Ok raw' ->
    forall i item,
      a <= i < a + n ->
      nth_error stack i = Some item ->
      exists v, outcome (read_dicom_image w (filename item)) = Ok v.
Proof.
  induction n as [|n IH]; intros a raw raw' Hok i item Hi Hitem.
  - lia.
  - cbn [seq for_in] in Hok.
    apply outcome_bind_Ok in Hok. destruct Hok as (raw1 & Hbody & Hrest).
    destruct (Nat.eq_dec i a) as [->|Hne].
    + destruct (outcome (read_dicom_image w (filename item)))
        as [v|e] eqn:Ed; [now exists v|].
      rewrite (load_next_slice_raises _ _ _ _ Hitem Ed) in Hbody. discriminate.
    + apply (IH (S a) raw1 raw' Hrest i item); [lia | assumption].
Qed.

(** When every slice the loop ranges over decodes to an array that fits,
    the loop completes and the buffer keeps its shape and dtype. *)
Lemma loop_fills (md : GroupingMetadata) n :
  spp = SamplesPerPixel md ->
  forall a raw,
    nd_shape raw = volume_shape md (length stack) ->
    a + n <= length stack ->
    (forall i item, a <= i < a + n -> nth_error stack i = Some item ->
                    decodes_to_fit w md item) ->
    exists raw',
      outcome (for_in (seq a n) (load_next_slice w stack spp) raw) = Ok raw'
      /\ nd_shape raw' = nd_shape raw /\ nd_dtype raw' = nd_dtype raw.
Proof.
  intros ->. induction n as [|n IH]; intros a raw Hshape Hlen Hfit.
  - exists raw. now repeat split.
  - cbn [seq for_in].
    destruct (nth_error stack a) as [item|] eqn:Ea.
    2:{ apply nth_error_None in Ea. lia. }
    destruct (Hfit a item ltac:(lia) Ea) as (src & Hd & Hb).
    destruct (store_slice_fits w md (length stack) raw src a)
      as (raw1 & Hs); [assumption | lia | assumption |].
    destruct (store_slice_keeps _ _ _ _ _ _ Hs) as (Hs1 & Hs2).
    assert (Hbody : load_next_slice w stack (SamplesPerPixel md) a raw
              = (trace (load_next_slice w stack (SamplesPerPixel md) a raw),
                 Ok raw1)).
    { rewrite (M_eta (load_next_slice _ _ _ _ _)) at 1. f_equal.
      unfold load_next_slice, stack_getitem. rewrite Ea, bind_lift_Ok.
      rewrite (outcome_bind _ _ _ Hd), (outcome_bind _ _ _ Hs).
      unfold py_round_div.
      destruct (Z.eqb_spec (Z.of_nat (length stack)) 0) as [H0|_]; [lia|].
      repeat match goal with
             | |- context [if ?c then _ else _] => destruct c
             end; reflexivity. }
    destruct (IH (S a) raw1) as (raw' & Hl & Hr1 & Hr2).
    + congruence.
    + lia.
    + intros i it Hi. apply Hfit. lia.
    + exists raw'. rewrite Hbody. rewrite bind_pair_Ok.
      cbn [outcome snd]. repeat split; congruence.
Qed.

End LoadLoop.

Section LoadImagesRuns.

Context {V : Type} (w : World V).

(** The run when decoding the first slice yields nothing. *)
Lemma load_images_from_stack_nothing item0 rest :
  outcome (read_dicom_image w (filename item0)) = Ok None ->
  load_images_from_stack w (item0 :: rest)
  = ([ShowProgress "Reading pixel data"; UpdateProgressValue 0;
      Dcmread (filename item0) false None],
     Ok (CoreWrapper_new V)).
Proof.
  intros Hd. unfold load_images_from_stack.
  rewrite !bind_emit. cbn [trace outcome fst snd].
  change (stack_getitem (item0 :: rest) 0) with (Ok item0).
  rewrite bind_lift_Ok, (bind_Ok _ _ _ Hd), read_dicom_image_trace.
  reflexivity.
Qed.

(** The run when decoding the first slice raises. *)
Lemma load_images_from_stack_first_raises item0 rest e :
  outcome (read_dicom_image w (filename item0)) = Raise e ->
  load_images_from_stack w (item0 :: rest)
  = ([ShowProgress "Reading pixel data"; UpdateProgressValue 0;
      Dcmread (filename item0) false None],
     Raise e).
Proof.
  intros Hd. unfold load_images_from_stack.
  rewrite !bind_emit. cbn [trace outcome fst snd].
  change (stack_getitem (item0 :: rest) 0) with (Ok item0).
  rewrite bind_lift_Ok, (bind_Raise _ _ _ Hd), read_dicom_image_trace.
  reflexivity.
Qed.

Lemma pixel_reads_preamble item0 n d :
  pixel_reads (preamble_events item0 n d) = 1.
Proof. reflexivity. Qed.

(** When every slice decodes to an array that fits, the volume is returned
    with the shape it was allocated with and the dtype of the first slice. *)
Lemma load_images_from_stack_fills item0 rest first :
  outcome (read_dicom_image w (filename item0)) = Ok (Some first) ->
  (forall item, In item (item0 :: rest) ->
                decodes_to_fit w (metadata item0) item) ->
  exists raw,
    outcome (load_images_from_stack w (item0 :: rest))
    = Ok {| raw_image := Some raw |}
    /\ nd_shape raw = volume_shape (metadata item0) (length (item0 :: rest))
    /\ nd_dtype raw = nd_dtype first.
Proof.
  intros Hd Hfit.
  rewrite (load_images_from_stack_decoded w item0 rest first Hd). cbv zeta.
  set (stack := item0 :: rest) in *. set (md := metadata item0) in *.
  destruct (Hfit item0 (or_introl eq_refl)) as (first' & Hd' & Hb).
  assert (first' = first) by congruence. subst first'.
  destruct (store_slice_fits w md (length stack)
              (fresh_volume w md (length stack) (nd_dtype first)) first 0)
    as (raw1 & Hs); [reflexivity | simpl; lia | assumption |].
  rewrite Hs. destruct (store_slice_keeps _ _ _ _ _ _ Hs) as (Hs1 & Hs2).
  destruct (loop_fills w stack _ md (length stack - 1) eq_refl 1 raw1)
    as (raw & Hl & Hr1 & Hr2).
  - now rewrite Hs1.
  - simpl. lia.
  - intros i item _ Hi. apply Hfit. eapply nth_error_In; eassumption.
  - unfold py_range. rewrite Hl. exists raw. cbn [outcome snd].
    unfold fresh_volume in Hs1, Hs2. cbn [nd_shape nd_dtype] in Hs1, Hs2.
    repeat split; congruence.
Qed.

End LoadImagesRuns.

(** C2. When decoding slice 0 yields nothing, [load_images_from_stack]
    returns the unset wrapper without raising: the run consists of the two
    progress calls and the one decoder call for slice 0, so no buffer is
    allocated and no other slice is decoded. *)
Theorem load_images_first_slice_nothing :
  forall (V : Type) (w : World V) (stack : DicomStack) (item0 : StackItem),
    nth_error stack 0 = Some item0 ->
    outcome (read_dicom_image w (filename item0)) = Ok None ->
    let run := load_images_from_stack w stack in
    outcome run = Ok (CoreWrapper_new V)
    /\ raw_image (CoreWrapper_new V) = None
    /\ trace run = [ShowProgress "Reading pixel data"; UpdateProgressValue 0;
                    Dcmread (filename item0) false None]
    /\ (forall shape d, ~ In (NpZeros shape d) (trace run))
    /\ pixel_reads (trace run) = 1.
Proof.
  intros V w stack item0 H0 Hd run. subst run.
  destruct stack as [|it rest]; [discriminate|].
  injection H0 as ->.
  rewrite (load_images_from_stack_nothing w item0 rest Hd).
  cbn [trace outcome fst snd]. repeat split.
  intros shape d Hin. simpl in Hin.
  repeat (destruct Hin as [Hin|Hin]; [discriminate|]). exact Hin.
Qed.

Lemma load_images_first_slice_nothing_witness :
  outcome (load_images_from_stack Samples.world
             [Samples.slice "/data/none.dcm" 0 1;
              Samples.slice "/data/b.dcm" 2 1])
  = Ok (CoreWrapper_new Z).
Proof.
  apply (load_images_first_slice_nothing Z Samples.world
           [Samples.slice "/data/none.dcm" 0 1;
            Samples.slice "/data/b.dcm" 2 1]
           (Samples.slice "/data/none.dcm" 0 1));
    reflexivity.
Defined.

(** C3. When the decoder fails on a slice with index 1..N-1,
    [load_images_from_stack] never returns a filled or partially filled
    volume; once the first slice has decoded to an array the call ends in
    an exception; and once the run has asked the decoder for the failing
    slice, the exception the decoder raised is the outcome of the call. *)
Theorem load_images_later_failure_propagates :
  forall (V : Type) (w : World V) (stack : DicomStack)
         (i : nat) (item : StackItem) (e : PyExc),
    1 <= i ->
    nth_error stack i = Some item ->
    outcome (read_dicom_image w (filename item)) = Raise e ->
    let run := load_images_from_stack w stack in
    (forall wrapper, outcome run = Ok wrapper -> raw_image wrapper = None)
    /\ (forall item0 first,
          nth_error stack 0 = Some item0 ->
          outcome (read_dicom_image w (filename item0)) = Ok (Some first) ->
          exists e', outcome run = Raise e')
    /\ (i < pixel_reads (trace run) -> outcome run = Raise e).
Proof.
  intros V w stack i item e Hi Hitem He run. subst run.
  destruct stack as [|item0 rest]; [destruct i; discriminate|].
  assert (Hlen : i < length (item0 :: rest)).
  { apply nth_error_Some. congruence. }
  destruct (outcome (read_dicom_image w (filename item0)))
    as [[first|]|e0] eqn:Hd.
  - rewrite (load_images_from_stack_decoded w item0 rest first Hd). cbv zeta.
    destruct (outcome (store_slice w _ _ 0 (Some first))) as [raw1|e1].
    + unfold py_range.
      destruct (outcome (for_in (seq 1 (length (item0 :: rest) - 1)) _ raw1))
        as [raw|e2] eqn:El.
      * exfalso.
        destruct (loop_completes_decoded w _ _ _ _ _ _ El i item) as (v & Hv);
          [lia | assumption | congruence].
      * cbn [trace outcome fst snd]. repeat split.
        -- discriminate.
        -- eauto.
        -- rewrite pixel_reads_app, pixel_reads_preamble. intros Hreads.
           assert (Hp := loop_propagates w (item0 :: rest)
                           (SamplesPerPixel (metadata item0))
                           i item e Hitem He
                           (length (item0 :: rest) - 1) 1 raw1).
           rewrite El in Hp.
           assert (Hee : Raise e2 = Raise e :> Result (ndarray V))
             by (apply Hp; lia).
           now injection Hee as ->.
    + cbn [trace outcome fst snd]. repeat split.
      * discriminate.
      * eauto.
      * rewrite pixel_reads_preamble. lia.
  - rewrite (load_images_from_stack_nothing w item0 rest Hd).
    cbn [trace outcome fst snd]. repeat split.
    + intros wrapper H. now injection H as <-.
    + intros it first H0 Hf. injection H0 as <-. congruence.
    + unfold pixel_reads. simpl. lia.
  - rewrite (load_images_from_stack_first_raises w item0 rest e0 Hd).
    cbn [trace outcome fst snd]. repeat split.
    + discriminate.
    + eauto.
    + unfold pixel_reads. simpl. lia.
Qed.

Lemma load_images_later_failure_propagates_witness :
  outcome (load_images_from_stack Samples.world
             [Samples.slice "/data/a.dcm" 0 1;
              Samples.slice "/data/b.dcm" 2 1;
              Samples.slice "/data/bad.dcm" 4 1])
  = Raise (InvalidDicomError "/data/bad.dcm").
Proof.
  apply (load_images_later_failure_propagates Z Samples.world
           [Samples.slice "/data/a.dcm" 0 1;
            Samples.slice "/data/b.dcm" 2 1;
            Samples.slice "/data/bad.dcm" 4 1]
           2 (Samples.slice "/data/bad.dcm" 4 1)
           (InvalidDicomError "/data/bad.dcm"));
    [lia | reflexivity | reflexivity | vm_compute; lia].
Defined.

(** C1, as amended.  For a stack of N slices in which every slice decodes
    to an array that can be assigned to one slice of the buffer,
    [load_images_from_stack] returns a volume whose buffer has shape
    (rows, columns, N) when the first slice has one sample per pixel and
    (rows, columns, N, 3) when it has three, rows and columns being those
    of the first slice's metadata. *)
Theorem load_images_volume_shape :
  forall (V : Type) (w : World V) (stack : DicomStack) (item0 : StackItem),
    nth_error stack 0 = Some item0 ->
    (forall item, In item stack -> decodes_to_fit w (metadata item0) item) ->
    exists raw,
      outcome (load_images_from_stack w stack) = Ok {| raw_image := Some raw |}
      /\ (SamplesPerPixel (metadata item0) = 1 ->
          nd_shape raw
          = [Rows (metadata item0); Columns (metadata item0); length stack])
      /\ (SamplesPerPixel (metadata item0) = 3 ->
          nd_shape raw
          = [Rows (metadata item0); Columns (metadata item0); length stack; 3]).
Proof.
  intros V w stack item0 H0 Hfit.
  destruct stack as [|it rest]; [discriminate|]. injection H0 as ->.
  destruct (Hfit item0 (or_introl eq_refl)) as (first & Hd & _).
  destruct (load_images_from_stack_fills w item0 rest first Hd Hfit)
    as (raw & Hrun & Hshape & _).
  exists raw. split; [assumption|].
  rewrite Hshape. unfold volume_shape.
  split; intros ->; reflexivity.
Qed.

Lemma load_images_volume_shape_witness :
  exists raw,
    outcome (load_images_from_stack Samples.world
               [Samples.slice "/data/rgb.dcm" 0 3;
                Samples.slice "/data/rgb.dcm" 2 3])
    = Ok {| raw_image := Some raw |}
    /\ (3 = 1 -> nd_shape raw = [4; 4; 2])
    /\ (3 = 3 -> nd_shape raw = [4; 4; 2; 3]).
Proof.
  apply (load_images_volume_shape Z Samples.world
           [Samples.slice "/data/rgb.dcm" 0 3;
            Samples.slice "/data/rgb.dcm" 2 3]
           (Samples.slice "/data/rgb.dcm" 0 3)).
  - reflexivity.
  - intros item [<-|[<-|[]]];
      (exists (Samples.image dt_uint8 [4; 4; 3]); split; reflexivity).
Defined.

(** C1, as stated, fails: the first slice of this two-slice stack decodes
    to a 4 x 4 array with one sample per pixel, the decoder raises on the
    second slice, and no volume is returned.  Nor is one returned when the
    first slice decodes to a 4 x 4 x 3 array while its metadata says one
    sample per pixel: the assignment into the 4 x 4 slice raises. *)
Lemma load_images_volume_shape_counterexample :
  let stack := [Samples.slice "/data/a.dcm" 0 1;
                Samples.slice "/data/bad.dcm" 2 1] in
  outcome (read_dicom_image Samples.world "/data/a.dcm")
  = Ok (Some (Samples.image dt_int16 [4; 4]))
  /\ SamplesPerPixel (metadata (Samples.slice "/data/a.dcm" 0 1)) = 1
  /\ outcome (load_images_from_stack Samples.world stack)
     = Raise (InvalidDicomError "/data/bad.dcm")
  /\ ~ (exists raw,
          outcome (load_images_from_stack Samples.world stack)
          = Ok {| raw_image := Some raw |}
          /\ nd_shape raw = [4; 4; 2])
  /\ outcome (read_dicom_image Samples.world "/data/rgb.dcm")
     = Ok (Some (Samples.image dt_uint8 [4; 4; 3]))
  /\ outcome (load_images_from_stack Samples.world
                [Samples.slice "/data/rgb.dcm" 0 1])
     = Raise (ValueError "could not broadcast input array").
Proof.
  cbv zeta. repeat split.
  intros (raw & H & _). vm_compute in H. discriminate.
Qed.

(** No dtype equals [np.char]: the buffer always has the dtype of the
    first decoded slice, and the int8 message is never emitted. *)
Lemma load_images_dtype_never_substituted :
  forall (V : Type) (w : World V) (stack : DicomStack),
    ~ In SettingDatatypeToInt8 (trace (load_images_from_stack w stack))
    /\ forall item0 first raw,
         nth_error stack 0 = Some item0 ->
         outcome (read_dicom_image w (filename item0)) = Ok (Some first) ->
         outcome (load_images_from_stack w stack)
         = Ok {| raw_image := Some raw |} ->
         nd_dtype raw = nd_dtype first.
Proof.
  intros V w stack.
  assert (Hloop : forall spp n a raw,
             ~ In SettingDatatypeToInt8
                 (trace (for_in (seq a n) (load_next_slice w stack spp) raw))
             /\ forall raw',
                  outcome (for_in (seq a n) (load_next_slice w stack spp) raw)
                  = Ok raw' -> nd_dtype raw' = nd_dtype raw).
  { intros spp. induction n as [|n IH]; intros a raw.
    - split; [intros []|]. intros raw' H. now injection H as <-.
    - cbn [seq for_in]. split.
      + intros Hin. apply trace_bind_In in Hin.
        destruct Hin as [Hin|(raw1 & _ & Hin)]; [|now apply (IH (S a) raw1)].
        unfold load_next_slice in Hin.
        repeat (apply trace_bind_In in Hin;
                destruct Hin as [Hin|(? & _ & Hin)]);
          try rewrite read_dicom_image_trace in Hin;
          simpl in Hin;
          repeat (destruct Hin as [Hin|Hin]; [discriminate|]);
          try contradiction.
      + intros raw' H. apply outcome_bind_Ok in H.
        destruct H as (raw1 & Hb & Hr).
        rewrite (proj2 (IH (S a) raw1) raw' Hr).
        unfold load_next_slice in Hb.
        apply outcome_bind_Ok in Hb. destruct Hb as (item & _ & Hb).
        apply outcome_bind_Ok in Hb. destruct Hb as (v & _ & Hb).
        apply outcome_bind_Ok in Hb. destruct Hb as (raw2 & Hs & Hb).
        apply outcome_bind_Ok in Hb. destruct Hb as (pct & _ & Hb).
        apply outcome_bind_Ok in Hb. destruct Hb as (u & _ & Hb).
        injection Hb as <-.
        now apply (store_slice_keeps w _ _ _ _ _ Hs). }
  destruct stack as [|item0 rest].
  { split; [|intros; discriminate].
    unfold load_images_from_stack. rewrite !bind_emit. simpl.
    intros [H|[H|[]]]; discriminate. }
  destruct (outcome (read_dicom_image w (filename item0)))
    as [[first|]|e0] eqn:Hd.
  - rewrite (load_images_from_stack_decoded w item0 rest first Hd). cbv zeta.
    destruct (outcome (store_slice w _ _ 0 (Some first))) as [raw1|e1] eqn:Hs.
    + unfold py_range.
      destruct (Hloop (SamplesPerPixel (metadata item0))
                  (length (item0 :: rest) - 1) 1 raw1) as (Hno & Hdt).
      destruct (outcome (for_in (seq 1 (length (item0 :: rest) - 1)) _ raw1))
        as [raw|e2] eqn:El; cbn [trace outcome fst snd]; split.
      * intros Hin. apply in_app_or in Hin. destruct Hin as [Hin|Hin].
        -- simpl in Hin.
           repeat (destruct Hin as [Hin|Hin]; [discriminate|]). exact Hin.
        -- apply in_app_or in Hin. destruct Hin as [Hin|Hin]; [tauto|].
           simpl in Hin. destruct Hin as [Hin|[]]. discriminate.
      * intros it f raw' H0 Hf Hr. injection H0 as <-.
        injection Hr as <-. rewrite (Hdt raw eq_refl).
        destruct (store_slice_keeps w _ _ _ _ _ Hs) as (_ & ->).
        simpl. congruence.
      * intros Hin. apply in_app_or in Hin. destruct Hin as [Hin|Hin].
        -- simpl in Hin.
           repeat (destruct Hin as [Hin|Hin]; [discriminate|]). exact Hin.
        -- tauto.
      * intros; discriminate.
    + cbn [trace outcome fst snd]. split; [|intros; discriminate].
      intros Hin. simpl in Hin.
      repeat (destruct Hin as [Hin|Hin]; [discriminate|]). exact Hin.
  - rewrite (load_images_from_stack_nothing w item0 rest Hd).
    cbn [trace outcome fst snd]. split; [|intros; discriminate].
    intros Hin. simpl in Hin.
    repeat (destruct Hin as [Hin|Hin]; [discriminate|]). exact Hin.
  - rewrite (load_images_from_stack_first_raises w item0 rest e0 Hd).
    cbn [trace outcome fst snd]. split; [|intros; discriminate].
    intros Hin. simpl in Hin.
    repeat (destruct Hin as [Hin|Hin]; [discriminate|]). exact Hin.
Qed.

(** C7, on a first slice of character dtype.  The slice decoded from
    [/data/char.dcm] has dtype S1; [load_images_from_stack] allocates the
    buffer with dtype S1, not int8, and emits no message. *)
Theorem load_images_char_dtype_kept :
  let run := load_images_from_stack Samples.world
               [Samples.slice "/data/char.dcm" 0 1] in
  outcome (read_dicom_image Samples.world "/data/char.dcm")
  = Ok (Some (Samples.image (dt_bytes 1) [4; 4]))
  /\ is_char_dtype (dt_bytes 1) = true
  /\ trace run
     = [ShowProgress "Reading pixel data"; UpdateProgressValue 0;
        Dcmread "/data/char.dcm" false None;
        NpZeros [4; 4; 1] (dt_bytes 1); CompleteProgress]
  /\ ~ In SettingDatatypeToInt8 (trace run)
  /\ exists raw,
       outcome run = Ok {| raw_image := Some raw |}
       /\ nd_dtype raw = dt_bytes 1
       /\ nd_dtype raw <> dt_int8.
Proof.
  cbv zeta. split; [reflexivity|]. split; [reflexivity|].
  split; [reflexivity|]. split.
  - apply load_images_dtype_never_substituted.
  - eexists. split; [reflexivity|]. split; [reflexivity|discriminate].
Qed.

(** ** The events of each stage *)

Lemma Forall_trace_bind {A B} (P : Event -> Prop) (m : M A) (f : A -> M B) :
  Forall P (trace m) ->
  (forall a, outcome m = Ok a -> Forall P (trace (f a))) ->
  Forall P (trace (bind m f)).
Proof.
  intros Hm Hf. unfold bind.
  destruct (outcome m) as [a|e] eqn:E; cbn [trace fst].
  - apply Forall_app. split; [assumption | now apply Hf].
  - assumption.
Qed.

Lemma Forall_trace_for_in {A S} (P : Event -> Prop) (body : A -> S -> M S) :
  forall xs s,
    (forall x s', In x xs -> Forall P (trace (body x s'))) ->
    Forall P (trace (for_in xs body s)).
Proof.
  induction xs as [|x xs IH]; intros s Hb.
  - constructor.
  - cbn [for_in]. apply Forall_trace_bind.
    + apply Hb. now left.
    + intros s' _. apply IH. intros y s'' Hy. apply Hb. now right.
Qed.

Lemma Forall_trace_lift {A} (P : Event -> Prop) (r : Result A) :
  Forall P (trace (lift r)).
Proof. constructor. Qed.

Lemma Forall_trace_ret {A} (P : Event -> Prop) (a : A) :
  Forall P (trace (ret a)).
Proof. constructor. Qed.

Lemma Forall_trace_emit (P : Event -> Prop) ev :
  P ev -> Forall P (trace (emit ev)).
Proof. intros H. repeat constructor. exact H. Qed.

Section StageEvents.

Context {V : Type} (w : World V).

Lemma load_images_events (stack : DicomStack) :
  Forall (image_event stack) (trace (load_images_from_stack w stack)).
Proof.
  unfold load_images_from_stack.
  apply Forall_trace_bind; [now apply Forall_trace_emit|intros _ _].
  apply Forall_trace_bind; [now apply Forall_trace_emit|intros _ _].
  apply Forall_trace_bind; [apply Forall_trace_lift|intros item0 H0].
  apply Forall_trace_bind.
  { rewrite read_dicom_image_trace. repeat constructor.
    exists item0. split; [|reflexivity].
    unfold stack_getitem in H0.
    destruct (nth_error stack 0) eqn:E; [|discriminate].
    injection H0 as <-. eapply nth_error_In; eassumption. }
  intros [first|] _; [|apply Forall_trace_ret].
  rewrite dtype_eq_np_char.
  apply Forall_trace_bind; [apply Forall_trace_ret|intros dt Hdt].
  apply Forall_trace_bind.
  { unfold np_zeros. destruct (as_dtype dt); [|constructor].
    apply Forall_trace_bind; [now apply Forall_trace_emit|intros _ _].
    apply Forall_trace_ret. }
  intros raw0 _.
  apply Forall_trace_bind; [apply Forall_trace_lift|intros raw1 _].
  apply Forall_trace_bind.
  { apply Forall_trace_for_in. intros k raw _. unfold load_next_slice.
    apply Forall_trace_bind; [apply Forall_trace_lift|intros item Hk].
    apply Forall_trace_bind.
    { rewrite read_dicom_image_trace. repeat constructor.
      exists item. split; [|reflexivity].
      unfold stack_getitem in Hk.
      destruct (nth_error stack k) eqn:E; [|discriminate].
      injection Hk as <-. eapply nth_error_In; eassumption. }
    intros v _.
    apply Forall_trace_bind; [apply Forall_trace_lift|intros raw' _].
    apply Forall_trace_bind; [apply Forall_trace_lift|intros pct _].
    apply Forall_trace_bind; [now apply Forall_trace_emit|intros _ _].
    apply Forall_trace_ret. }
  intros raw _.
  apply Forall_trace_bind; [now apply Forall_trace_emit|intros _ _].
  apply Forall_trace_ret.
Qed.




End StageEvents.




Lemma image_event_not_exclusion stack ev :
  image_event stack ev -> is_MultipleGroupings ev = false.
Proof. destruct ev; simpl; try reflexivity. intros []. Qed.


(** ** The metadata pass *)

Section MetadataPass.

Context {V : Type} (w : World V).

Lemma py_round_div_Ok a b : b <> 0%Z -> exists q, py_round_div a b = Ok q.
Proof.
  intros Hb. unfold py_round_div.
  destruct (Z.eqb_spec b 0); [contradiction|].
  repeat match goal with
         | |- context [if ?c then _ else _] => destruct c
         end; eauto.
Qed.

(** An entry whose file fails the signature check is skipped with a
    warning: its metadata is not read, the grouper is unchanged, and the
    loop goes on. *)
Lemma load_next_metadata_not_dicom image_path num_slices f g idx :
  outcome (is_dicom w (combined_name image_path f)) = Ok false ->
  num_slices <> 0 ->
  exists percent,
    load_next_metadata w image_path num_slices f (g, idx)
    = ([OpenFile (combined_name image_path f);
        NotADicomFile (combined_name image_path f);
        UpdateProgressValue percent],
       Ok (g, idx + 1)).
Proof.
  intros Hd Hn.
  destruct (py_round_div_Ok (100 * Z.of_nat idx) (Z.of_nat num_slices))
    as (q & Hq); [lia|].
  exists q. unfold load_next_metadata.
  assert (Ht : trace (is_dicom w (combined_name image_path f))
               = [OpenFile (combined_name image_path f)]).
  { unfold is_dicom. rewrite bind_emit.
    destruct (file_bytes w _); reflexivity. }
  rewrite (bind_Ok _ _ _ Hd), Ht, bind_emit, Hq. reflexivity.
Qed.

(** An entry whose file passes the signature check has its grouping
    metadata read and is added to the grouper. *)
Lemma load_next_metadata_dicom image_path num_slices f g idx md :
  outcome (is_dicom w (combined_name image_path f)) = Ok true ->
  outcome (read_grouping_metadata w (combined_name image_path f)) = Ok md ->
  num_slices <> 0 ->
  exists percent,
    load_next_metadata w image_path num_slices f (g, idx)
    = ([OpenFile (combined_name image_path f);
        Dcmread (combined_name image_path f) true (Some (groupingTags w));
        UpdateProgressValue percent],
       Ok (add_item g (combined_name image_path f) md, idx + 1)).
Proof.
  intros Hd Hm Hn.
  destruct (py_round_div_Ok (100 * Z.of_nat idx) (Z.of_nat num_slices))
    as (q & Hq); [lia|].
  exists q. unfold load_next_metadata.
  assert (Ht : trace (is_dicom w (combined_name image_path f))
               = [OpenFile (combined_name image_path f)]).
  { unfold is_dicom. rewrite bind_emit.
    destruct (file_bytes w _); reflexivity. }
  assert (Htm : trace (read_grouping_metadata w (combined_name image_path f))
                = [Dcmread (combined_name image_path f) true
                     (Some (groupingTags w))]).
  { unfold read_grouping_metadata, call_dcmread, bind, emit, lift,
      trace, outcome. simpl.
    destruct (dcmread w _ true _); reflexivity. }
  rewrite (bind_Ok _ _ _ Hd), Ht. cbv iota.
  rewrite (bind_Ok (read_grouping_metadata w (combined_name image_path f))
             _ _ Hm), Htm.
  cbn [trace outcome fst snd ret app]. rewrite bind_pair_Ok, Hq.
  reflexivity.
Qed.

(** Every file in a grouper built by [add_item] from [g] is a file of [g]
    or the file added. *)
Lemma add_item_files g file md k s it :
  In (k, s) (add_item g file md) -> In it s ->
  filename it = file \/ exists k' s', In (k', s') g /\ In it s'.
Proof.
  induction g as [|[k0 s0] g IH]; cbn [add_item].
  - intros [H|[]] Hit. injection H as <- <-.
    destruct Hit as [<-|[]]. now left.
  - destruct (String.eqb k0 (seriesKey md)).
    + intros [H|H] Hit.
      * injection H as <- <-. apply in_app_or in Hit.
        destruct Hit as [Hit|[<-|[]]]; [|now left].
        right. exists k0, s0. split; [now left | assumption].
      * right. exists k, s. split; [now right | assumption].
    + intros [H|H] Hit.
      * injection H as <- <-. right. exists k0, s0.
        split; [now left | assumption].
      * destruct (IH H Hit) as [Hf|(k' & s' & Hin & Hit')]; [now left|].
        right. exists k', s'. split; [now right | assumption].
Qed.

(** Metadata is read only from files that passed the signature check, and
    only such files are in the grouper the pass returns: a file that fails
    the check is excluded before any metadata is read from it. *)
Lemma metadata_pass_reads_signed image_path filenames :
  let run := load_metadata_from_dicom_files w image_path filenames in
  (forall c stop tags, In (Dcmread c stop tags) (trace run) ->
                       outcome (is_dicom w c) = Ok true)
  /\ (forall g k s it, outcome run = Ok g -> In (k, s) g -> In it s ->
                       outcome (is_dicom w (filename it)) = Ok true).
Proof.
  set (signed := fun ev => match ev with
                           | Dcmread c _ _ => outcome (is_dicom w c) = Ok true
                           | _ => True
                           end).
  set (inv := fun g : DicomGrouper =>
                forall k s it, In (k, s) g -> In it s ->
                               outcome (is_dicom w (filename it)) = Ok true).
  assert (Hbody : forall num f g idx,
             inv g ->
             Forall signed (trace (load_next_metadata w image_path num f (g, idx)))
             /\ forall st, outcome (load_next_metadata w image_path num f (g, idx))
                           = Ok st -> inv (fst st)).
  { intros num f g idx Hg. unfold load_next_metadata. split.
    - apply Forall_trace_bind.
      { unfold is_dicom. rewrite bind_emit. cbn [trace fst].
        constructor; [exact I|]. destruct (file_bytes w _); constructor. }
      intros b Hb. apply Forall_trace_bind.
      { destruct b.
        - apply Forall_trace_bind; [|intros; apply Forall_trace_ret].
          unfold read_grouping_metadata, call_dcmread.
          apply Forall_trace_bind; [|intros; apply Forall_trace_lift].
          rewrite bind_emit. cbn [trace fst lift]. repeat constructor.
          exact Hb.
        - rewrite bind_emit. cbn [trace fst ret]. repeat constructor. }
      intros g' _.
      apply Forall_trace_bind; [apply Forall_trace_lift|intros pct _].
      rewrite bind_emit. cbn [trace fst ret]. repeat constructor.
    - intros st Hst.
      apply outcome_bind_Ok in Hst. destruct Hst as (b & Hb & Hst).
      apply outcome_bind_Ok in Hst. destruct Hst as (g' & Hg' & Hst).
      apply outcome_bind_Ok in Hst. destruct Hst as (pct & _ & Hst).
      apply outcome_bind_Ok in Hst. destruct Hst as (u & _ & Hst).
      injection Hst as <-. cbn [fst].
      destruct b.
      + apply outcome_bind_Ok in Hg'. destruct Hg' as (md & _ & Hg').
        injection Hg' as <-. intros k s it Hin Hit.
        destruct (add_item_files _ _ _ _ _ _ Hin Hit)
          as [->|(k' & s' & Hin' & Hit')]; [assumption | eauto].
      + rewrite bind_emit in Hg'. injection Hg' as <-. assumption. }
  assert (Hloop : forall num l g idx,
             inv g ->
             Forall signed
               (trace (for_in l (load_next_metadata w image_path num) (g, idx)))
             /\ forall st,
                  outcome (for_in l (load_next_metadata w image_path num) (g, idx))
                  = Ok st -> inv (fst st)).
  { intros num. induction l as [|f l IH]; intros g idx Hg.
    - split; [constructor|]. intros st H. injection H as <-. assumption.
    - cbn [for_in]. destruct (Hbody num f g idx Hg) as (Ht & Hi). split.
      + apply Forall_trace_bind; [assumption|].
        intros [g1 idx1] H1. apply IH. apply (Hi _ H1).
      + intros st Hst. apply outcome_bind_Ok in Hst.
        destruct Hst as ([g1 idx1] & H1 & Hst).
        apply (proj2 (IH g1 idx1 (Hi _ H1)) st Hst). }
  intros run. subst run. unfold load_metadata_from_dicom_files.
  destruct (Hloop (length (as_list filenames))
              (sort_filenames w (as_list filenames)) DicomGrouper_new 0)
    as (Ht & Hi).
  { intros k s it []. }
  split.
  - assert (HF : Forall signed
               (trace (load_metadata_from_dicom_files w image_path filenames))).
    { unfold load_metadata_from_dicom_files.
      rewrite !bind_emit. cbn [trace outcome fst snd].
      repeat (constructor; [exact I|]).
      apply Forall_trace_bind; [assumption|]. intros st _.
      rewrite bind_emit. cbn [trace fst ret]. repeat constructor. }
    intros c stop tags Hin. rewrite Forall_forall in HF.
    apply (HF _ Hin).
  - intros g k s it Hg. rewrite !bind_emit in Hg. cbn [outcome snd] in Hg.
    apply outcome_bind_Ok in Hg. destruct Hg as (st & Hst & Hg).
    rewrite bind_emit in Hg. injection Hg as <-. apply (Hi _ Hst).
Qed.

End MetadataPass.

(** C5, on a DICOMDIR file.  [is_dicom_image_file] rejects the name
    DICOMDIR, but the metadata pass tests entries with [is_dicom] alone: a
    file named DICOMDIR that carries the signature has its metadata read
    and is added to the grouper, and no warning is emitted. *)
Theorem metadata_pass_admits_DICOMDIR :
  let run := load_metadata_from_dicom_files Samples.world "/data"
               (ManyNames [FStr "DICOMDIR"]) in
  outcome (is_dicom_image_file Samples.world "/data" "DICOMDIR") = Ok false
  /\ outcome (is_dicom Samples.world "/data/DICOMDIR") = Ok true
  /\ trace run
     = [ShowProgress "Reading image metadata"; UpdateProgressValue 0;
        OpenFile "/data/DICOMDIR";
        Dcmread "/data/DICOMDIR" true
          (Some ["ImageOrientationPatient"; "ImagePositionPatient"]);
        UpdateProgressValue 0; CompleteProgress]
  /\ (forall code text, ~ In (ShowWarning code text) (trace run))
  /\ exists md,
       outcome run
       = Ok [("", [{| filename := "/data/DICOMDIR"; metadata := md |}])].
Proof.
  cbv zeta. split; [reflexivity|]. split; [reflexivity|].
  split; [reflexivity|]. split.
  - intros code text Hin. vm_compute in Hin.
    repeat (destruct Hin as [Hin|Hin]; [discriminate|]). exact Hin.
  - eexists. reflexivity.
Qed.

(** ** Sorting by scalar position *)

Lemma Qcleb_le x y : Qcleb x y = true <-> (x <= y)%Qc.
Proof. unfold Qcleb, Qcle. apply Qle_bool_iff. Qed.

Lemma Qcleb_gt x y : Qcleb x y = false -> (y < x)%Qc.
Proof.
  intros H. apply Qcnot_le_lt. intros Hle.
  apply Qcleb_le in Hle. congruence.
Qed.

Lemma Qc_eq_bool_refl x : Qc_eq_bool x x = true.
Proof. unfold Qc_eq_bool. now destruct (Qc_eq_dec x x). Qed.

Lemma Point_eqb_refl p : Point_eqb p p = true.
Proof.
  destruct p as [[x y] z]. unfold Point_eqb.
  now rewrite !Qc_eq_bool_refl.
Qed.

Section SortKeyed.

Context {A : Type}.

Lemma insert_keyed_perm (x : Qc * A) l :
  Permutation (insert_keyed x l) (x :: l).
Proof.
  induction l as [|y l IH]; cbn [insert_keyed].
  - reflexivity.
  - destruct (Qcleb (fst x) (fst y)); [reflexivity|].
    rewrite IH. apply perm_swap.
Qed.

Lemma sort_keyed_perm (l : list (Qc * A)) : Permutation (sort_keyed l) l.
Proof.
  induction l as [|x l IH]; cbn [sort_keyed].
  - reflexivity.
  - rewrite insert_keyed_perm. now constructor.
Qed.

Lemma insert_keyed_sorted (x : Qc * A) l :
  Sorted Qcle (map fst l) -> Sorted Qcle (map fst (insert_keyed x l)).
Proof.
  induction l as [|y l IH]; cbn [insert_keyed map]; intros Hs.
  - repeat constructor.
  - destruct (Qcleb (fst x) (fst y)) eqn:E; cbn [map].
    + constructor; [assumption|]. constructor. now apply Qcleb_le.
    + inversion Hs as [|? ? Hs' Hhd]; subst.
      constructor; [now apply IH|].
      apply Qcleb_gt, Qclt_le_weak in E.
      destruct l as [|z l]; cbn [insert_keyed map].
      * now constructor.
      * destruct (Qcleb (fst x) (fst z)); cbn [map]; constructor;
          [assumption | now inversion Hhd].
Qed.

Lemma sort_keyed_sorted (l : list (Qc * A)) :
  Sorted Qcle (map fst (sort_keyed l)).
Proof.
  induction l as [|x l IH]; cbn [sort_keyed].
  - constructor.
  - now apply insert_keyed_sorted.
Qed.

End SortKeyed.

(** Two non-decreasing sequences with the same elements are equal. *)
Lemma sorted_perm_eq (l1 : list Qc) :
  forall l2,
    Sorted Qcle l1 -> Sorted Qcle l2 -> Permutation l1 l2 -> l1 = l2.
Proof.
  assert (Htrans : Relations_1.Transitive Qcle).
  { intros x y z. apply Qcle_trans. }
  induction l1 as [|a l1 IH]; intros l2 H1 H2 Hp.
  - now apply Permutation_nil in Hp.
  - destruct l2 as [|b l2].
    { symmetry in Hp. now apply Permutation_nil in Hp. }
    apply Sorted_StronglySorted in H1; [|assumption].
    apply Sorted_StronglySorted in H2; [|assumption].
    inversion H1 as [|? ? H1' Ha]; subst.
    inversion H2 as [|? ? H2' Hb]; subst.
    assert (Hab : a = b).
    { apply Qcle_antisym.
      - assert (Hin : In b (a :: l1)).
        { apply (Permutation_in b (Permutation_sym Hp)). now left. }
        destruct Hin as [->|Hin]; [apply Qcle_refl|].
        rewrite Forall_forall in Ha. now apply Ha.
      - assert (Hin : In a (b :: l2)).
        { apply (Permutation_in a Hp). now left. }
        destruct Hin as [->|Hin]; [apply Qcle_refl|].
        rewrite Forall_forall in Hb. now apply Hb. }
    subst b. f_equal. apply IH.
    + now apply StronglySorted_Sorted.
    + now apply StronglySorted_Sorted.
    + now apply Permutation_cons_inv in Hp.
Qed.

(** Two arrangements of the same keyed elements, both non-decreasing by
    key, are equal when no key occurs twice. *)
Lemma sorted_keyed_perm_eq {A} (l1 : list (Qc * A)) :
  forall l2,
    Sorted Qcle (map fst l1) -> Sorted Qcle (map fst l2) ->
    Permutation l1 l2 -> NoDup (map fst l1) -> l1 = l2.
Proof.
  assert (Htrans : Relations_1.Transitive Qcle).
  { intros x y z. apply Qcle_trans. }
  induction l1 as [|a l1 IH]; intros l2 H1 H2 Hp Hnd.
  - now apply Permutation_nil in Hp.
  - destruct l2 as [|b l2].
    { symmetry in Hp. now apply Permutation_nil in Hp. }
    cbn [map] in *.
    apply Sorted_StronglySorted in H1; [|assumption].
    apply Sorted_StronglySorted in H2; [|assumption].
    inversion H1 as [|? ? H1' Ha]; subst.
    inversion H2 as [|? ? H2' Hb]; subst.
    inversion Hnd as [|? ? Hnotin Hnd']; subst.
    assert (Hab : a = b).
    { assert (Hina : In a (b :: l2)).
      { apply (Permutation_in a Hp). now left. }
      assert (Hinb : In b (a :: l1)).
      { apply (Permutation_in b (Permutation_sym Hp)). now left. }
      destruct Hina as [->|Hina]; [reflexivity|].
      destruct Hinb as [->|Hinb]; [reflexivity|].
      exfalso. apply Hnotin.
      assert (Hk : fst a = fst b).
      { apply Qcle_antisym.
        - rewrite Forall_forall in Ha. apply Ha. now apply in_map.
        - rewrite Forall_forall in Hb. apply Hb. now apply in_map. }
      rewrite Hk. now apply in_map. }
    subst b. f_equal. apply IH.
    + now apply StronglySorted_Sorted.
    + now apply StronglySorted_Sorted.
    + now apply Permutation_cons_inv in Hp.
    + assumption.
Qed.

Lemma sort_keyed_perm_eq {A} (l1 l2 : list (Qc * A)) :
  Permutation l1 l2 ->
  NoDup (map fst (sort_keyed l1)) ->
  sort_keyed l1 = sort_keyed l2.
Proof.
  intros Hp Hnd. apply sorted_keyed_perm_eq; try apply sort_keyed_sorted.
  - now rewrite !sort_keyed_perm.
  - assumption.
Qed.

Lemma sort_keyed_keys_perm {A} (l1 l2 : list (Qc * A)) :
  Permutation l1 l2 ->
  map fst (sort_keyed l1) = map fst (sort_keyed l2).
Proof.
  intros Hp. apply sorted_perm_eq; try apply sort_keyed_sorted.
  apply Permutation_map.
  now rewrite !sort_keyed_perm.
Qed.

(** ** sort_and_get_parameters on complete, consistent positions *)

Lemma all_scalars_complete axis stack :
  complete_positions stack ->
  all_scalars axis stack
  = Some (map (fun it => (scalar_of axis it, it)) stack).
Proof.
  induction stack as [|it stack IH]; intros Hc.
  - reflexivity.
  - cbn [all_scalars map]. rewrite IH.
    + unfold scalar_position, scalar_of.
      destruct (position (metadata it)) eqn:E; [reflexivity|].
      exfalso. apply (Hc it); [now left | assumption].
    + intros it' Hin. apply Hc. now right.
Qed.

Lemma same_orientation_consistent first rest :
  consistent_orientation (first :: rest) ->
  forallb (same_orientation (orientationVector (metadata first)))
          (first :: rest) = true.
Proof.
  intros Hc. apply forallb_forall. intros it Hin.
  unfold same_orientation.
  rewrite (Hc first it (or_introl eq_refl) Hin).
  now rewrite !Point_eqb_refl.
Qed.

(** With every position known and one orientation, no warning is emitted
    and the parameters are those of the stably sorted slices. *)
Lemma sort_and_get_parameters_complete first rest :
  let stack := first :: rest in
  let sorted := sort_keyed (keyed_slices (orientationVector (metadata first))
                                         stack) in
  complete_positions stack ->
  consistent_orientation stack ->
  exists origin,
    sort_and_get_parameters stack
    = ([], Ok (map snd sorted,
               (median (diffs (map fst sorted)), origin, map fst sorted))).
Proof.
  intros stack sorted Hcomplete Hconsistent. subst sorted stack.
  unfold sort_and_get_parameters.
  rewrite (same_orientation_consistent first rest Hconsistent).
  rewrite bind_ret.
  rewrite (all_scalars_complete _ (first :: rest) Hcomplete).
  eexists. reflexivity.
Qed.

(** ** Grouping slices of one series *)

Lemma add_items_same_key key s items :
  (forall it, In it items -> seriesKey (metadata it) = key) ->
  add_items [(key, s)] items = [(key, s ++ items)].
Proof.
  revert s. induction items as [|it items IH]; intros s Hk.
  - unfold add_items. simpl. now rewrite app_nil_r.
  - unfold add_items in *. cbn [fold_left add_item].
    rewrite (Hk it (or_introl eq_refl)), String.eqb_refl.
    destruct it as [file md]. cbn [filename metadata].
    rewrite IH.
    + now rewrite <- app_assoc.
    + intros it' Hin. apply Hk. now right.
Qed.

Lemma add_items_one_series key it items :
  (forall it', In it' (it :: items) -> seriesKey (metadata it') = key) ->
  add_items [] (it :: items) = [(key, it :: items)].
Proof.
  intros Hk. unfold add_items. cbn [fold_left add_item].
  rewrite (Hk it (or_introl eq_refl)).
  destruct it as [file md]. cbn [filename metadata].
  apply (add_items_same_key key [_] items).
  intros it' Hin. apply Hk. now right.
Qed.

Section GroupingPass.

Context {V : Type} (w : World V).
Variable image_path : string.
Variable key : string.
Variable o : Point * Point.

Lemma item_of_coherent f :
  coherent_slice w image_path key o f ->
  exists md,
    outcome (read_grouping_metadata w (combined_name image_path f)) = Ok md
    /\ item_of w image_path f
       = [{| filename := combined_name image_path f; metadata := md |}]
    /\ seriesKey md = key /\ orientationVector md = o
    /\ position md <> None.
Proof.
  intros (_ & md & Hm & Hk & Ho & Hp). exists md.
  unfold item_of. rewrite Hm. now repeat split.
Qed.

(** Over entries that all pass the signature check and have readable
    metadata, the loop adds every entry, in order. *)
Lemma metadata_loop_coherent num_slices :
  num_slices <> 0 ->
  forall l g idx,
    (forall f, In f l -> coherent_slice w image_path key o f) ->
    outcome (for_in l (load_next_metadata w image_path num_slices) (g, idx))
    = Ok (add_items g (items_of w image_path l), idx + length l).
Proof.
  intros Hn. induction l as [|f l IH]; intros g idx Hl.
  - cbn. now rewrite Nat.add_0_r.
  - cbn [for_in].
    destruct (item_of_coherent f (Hl f (or_introl eq_refl)))
      as (md & Hm & Hitem & _).
    destruct (load_next_metadata_dicom w image_path num_slices f g idx md
                (proj1 (Hl f (or_introl eq_refl))) Hm Hn) as (q & Hb).
    rewrite Hb, bind_pair_Ok. cbn [outcome snd].
    rewrite IH by (intros f' Hin; apply Hl; now right).
    unfold items_of. cbn [flat_map]. rewrite Hitem.
    cbn [app length]. unfold add_items. cbn [fold_left filename metadata].
    f_equal. f_equal. lia.
Qed.

Lemma items_of_coherent l :
  (forall f, In f l -> coherent_slice w image_path key o f) ->
  length (items_of w image_path l) = length l
  /\ forall it, In it (items_of w image_path l) ->
       seriesKey (metadata it) = key
       /\ orientationVector (metadata it) = o
       /\ position (metadata it) <> None.
Proof.
  induction l as [|f l IH]; intros Hl.
  - split; [reflexivity | intros it []].
  - destruct (item_of_coherent f (Hl f (or_introl eq_refl)))
      as (md & _ & Hitem & Hk & Ho & Hp).
    destruct IH as (Hlen & Hall); [intros f' Hin; apply Hl; now right|].
    unfold items_of in *. cbn [flat_map]. rewrite Hitem. cbn [app length].
    split; [now rewrite Hlen|].
    intros it [<-|Hin]; [now repeat split | now apply Hall].
Qed.

(** The metadata pass over the entries of one series yields one group
    holding every entry, in the order [sort_filenames] gives. *)
Lemma load_metadata_one_series names :
  names <> [] ->
  length (sort_filenames w names) = length names ->
  (forall f, In f (sort_filenames w names) ->
             coherent_slice w image_path key o f) ->
  outcome (load_metadata_from_dicom_files w image_path (ManyNames names))
  = Ok [(key, items_of w image_path (sort_filenames w names))]
  /\ items_of w image_path (sort_filenames w names) <> [].
Proof.
  intros Hne Hlen Hall.
  assert (Hn : length names <> 0) by (destruct names; simpl; congruence).
  unfold load_metadata_from_dicom_files.
  rewrite !bind_emit. cbn [trace outcome fst snd as_list].
  rewrite (outcome_bind _ _ _
             (metadata_loop_coherent (length names) Hn
                (sort_filenames w names) DicomGrouper_new 0 Hall)).
  rewrite bind_emit. cbn [outcome snd ret fst].
  destruct (items_of_coherent _ Hall) as (Hl & Hk).
  destruct (items_of w image_path (sort_filenames w names)) as [|it items].
  - simpl in Hl. lia.
  - split; [|discriminate]. f_equal.
    apply add_items_one_series. intros it' Hin. now apply Hk.
Qed.

End GroupingPass.

(** The run of [sort_and_get_parameters] on complete, consistent
    positions, origin included: the origin is the position of the first
    sorted slice. *)
Lemma sort_and_get_parameters_sorted first rest :
  let stack := first :: rest in
  let sorted := sort_keyed (keyed_slices (orientationVector (metadata first))
                                         stack) in
  complete_positions stack ->
  consistent_orientation stack ->
  sort_and_get_parameters stack
  = ([], Ok (map snd sorted,
             (median (diffs (map fst sorted)),
              first_position (map snd sorted), map fst sorted))).
Proof.
  intros stack sorted Hcomplete Hconsistent. subst sorted stack.
  unfold sort_and_get_parameters.
  rewrite (same_orientation_consistent first rest Hconsistent).
  rewrite bind_ret.
  rewrite (all_scalars_complete _ (first :: rest) Hcomplete).
  destruct (sort_keyed _) as [|[k it] l]; reflexivity.
Qed.

(** The sorted slices are the slices of the stack, and each sorted key is
    the scalar of its slice. *)
Lemma sort_keyed_slices o stack :
  Permutation (map snd (sort_keyed (keyed_slices o stack))) stack
  /\ map fst (sort_keyed (keyed_slices o stack))
     = map (scalar_of (dominant_axis o))
           (map snd (sort_keyed (keyed_slices o stack))).
Proof.
  split.
  - rewrite sort_keyed_perm. unfold keyed_slices. rewrite map_map.
    cbn [snd]. now rewrite map_id.
  - assert (HF : Forall (fun p => fst p = scalar_of (dominant_axis o) (snd p))
                   (sort_keyed (keyed_slices o stack))).
    { rewrite Forall_forall. intros p Hin.
      apply (Permutation_in p (sort_keyed_perm _)) in Hin.
      unfold keyed_slices in Hin. apply in_map_iff in Hin.
      destruct Hin as (it & <- & _). reflexivity. }
    induction HF as [|p l Hp _ IH]; [reflexivity|].
    cbn [map]. now rewrite Hp, IH.
Qed.

(** The items of coherent entries are the named files, each with the
    metadata read from it. *)
Lemma items_of_files {V : Type} (w : World V) image_path key o l :
  (forall f, In f l -> coherent_slice w image_path key o f) ->
  map filename (items_of w image_path l) = map (combined_name image_path) l
  /\ forall it, In it (items_of w image_path l) ->
       outcome (read_grouping_metadata w (filename it)) = Ok (metadata it).
Proof.
  induction l as [|f l IH]; intros Hl.
  - split; [reflexivity | intros it []].
  - destruct (item_of_coherent w image_path key o f (Hl f (or_introl eq_refl)))
      as (md & Hm & Hitem & _).
    destruct IH as (Hnames & Hread); [intros f' Hin; apply Hl; now right|].
    unfold items_of in *. cbn [flat_map]. rewrite Hitem.
    cbn [app map filename]. split; [now rewrite Hnames|].
    intros it [<-|Hin]; [exact Hm | now apply Hread].
Qed.

Lemma sort_by_name_perm l : Permutation (Samples.sort_by_name l) l.
Proof.
  assert (Hins : forall f l', Permutation (Samples.insert_by_name f l')
                                         (f :: l')).
  { intros f l'. induction l' as [|g l' IH]; cbn [Samples.insert_by_name].
    - reflexivity.
    - destruct (String.leb _ _); [reflexivity|].
      rewrite IH. apply perm_swap. }
  induction l as [|f l IH]; cbn [Samples.sort_by_name fold_right].
  - reflexivity.
  - rewrite Hins. now apply perm_skip.
Qed.

(** C9, as amended.  For entries that all pass the signature check and
    whose slices belong to one series, with one orientation and complete
    positions, the metadata pass forms one group, holding exactly the named
    files with the metadata read from them, in the order [sort_filenames]
    gave.  The sorted positions [sort_and_get_parameters] returns for it
    are the scalar positions of its sorted slices and are non-decreasing.
    Permuting the input filenames gives a group with the same slices, the
    same sorted positions and the same thickness; when no two slices share
    a scalar position, or when [sort_filenames] puts both inputs in one
    order, it also gives the same sorted stack and the same origin. *)
Theorem grouping_order_independent :
  forall (V : Type) (w : World V) (image_path : string)
         (names names' : list FileRef) (key : string) (o : Point * Point),
    (forall l, Permutation (sort_filenames w l) l) ->
    names <> [] ->
    Permutation names names' ->
    (forall f, In f names -> coherent_slice w image_path key o f) ->
    exists g g' main main' sorted sorted' thickness origin origin' positions,
      outcome (load_metadata_from_dicom_files w image_path (ManyNames names))
      = Ok g
      /\ outcome (load_metadata_from_dicom_files w image_path
                    (ManyNames names')) = Ok g'
      /\ g = [(key, main)] /\ g' = [(key, main')]
      /\ number_of_groups g = 1 /\ number_of_groups g' = 1
      /\ largest_stack g = Ok main /\ largest_stack g' = Ok main'
      /\ map filename main
         = map (combined_name image_path) (sort_filenames w names)
      /\ map filename main'
         = map (combined_name image_path) (sort_filenames w names')
      /\ (forall it, In it main \/ In it main' ->
            outcome (read_grouping_metadata w (filename it))
            = Ok (metadata it))
      /\ Permutation main main'
      /\ sort_and_get_parameters main
         = ([], Ok (sorted, (thickness, origin, positions)))
      /\ sort_and_get_parameters main'
         = ([], Ok (sorted', (thickness, origin', positions)))
      /\ Permutation sorted main /\ Permutation sorted' main'
      /\ positions = map (scalar_of (dominant_axis o)) sorted
      /\ positions = map (scalar_of (dominant_axis o)) sorted'
      /\ Sorted Qcle positions
      /\ origin = first_position sorted /\ origin' = first_position sorted'
      /\ (NoDup positions -> sorted = sorted' /\ origin = origin')
      /\ (sort_filenames w names = sort_filenames w names' ->
          load_metadata_from_dicom_files w image_path (ManyNames names)
          = load_metadata_from_dicom_files w image_path (ManyNames names')
          /\ sorted = sorted' /\ origin = origin').
Proof.
  intros V w image_path names names' key o Hsort Hne Hperm Hall.
  assert (Hne' : names' <> []).
  { intros ->. apply Permutation_sym, Permutation_nil in Hperm.
    contradiction. }
  assert (Hall1 : forall f, In f (sort_filenames w names) ->
                            coherent_slice w image_path key o f).
  { intros f Hin. apply Hall. now apply (Permutation_in f (Hsort names)). }
  assert (Hall2 : forall f, In f (sort_filenames w names') ->
                            coherent_slice w image_path key o f).
  { intros f Hin. apply Hall.
    apply (Permutation_in f (Permutation_sym Hperm)).
    now apply (Permutation_in f (Hsort names')). }
  destruct (load_metadata_one_series w image_path key o names Hne
              (Permutation_length (Hsort names)) Hall1) as (Hg & Hi).
  destruct (load_metadata_one_series w image_path key o names' Hne'
              (Permutation_length (Hsort names')) Hall2) as (Hg' & Hi').
  destruct (items_of_coherent w image_path key o _ Hall1) as (_ & Hk).
  destruct (items_of_coherent w image_path key o _ Hall2) as (_ & Hk').
  destruct (items_of_files w image_path key o _ Hall1) as (Hfiles & Hread).
  destruct (items_of_files w image_path key o _ Hall2) as (Hfiles' & Hread').
  assert (Hitems : Permutation (items_of w image_path (sort_filenames w names))
                     (items_of w image_path (sort_filenames w names'))).
  { unfold items_of. apply Permutation_flat_map.
    rewrite (Hsort names), (Hsort names'). exact Hperm. }
  assert (Hsame : sort_filenames w names = sort_filenames w names' ->
                  items_of w image_path (sort_filenames w names)
                  = items_of w image_path (sort_filenames w names')).
  { now intros ->. }
  destruct (items_of w image_path (sort_filenames w names))
    as [|first rest] eqn:E; [contradiction|].
  destruct (items_of w image_path (sort_filenames w names'))
    as [|first' rest'] eqn:E'; [contradiction|].
  assert (Hcomplete : forall l, (forall it, In it l ->
              seriesKey (metadata it) = key
              /\ orientationVector (metadata it) = o
              /\ position (metadata it) <> None) ->
            complete_positions l /\ consistent_orientation l).
  { intros l Hl. split.
    - intros it Hin. now apply Hl.
    - intros a b Ha Hb.
      destruct (Hl a Ha) as (_ & -> & _).
      now destruct (Hl b Hb) as (_ & -> & _). }
  destruct (Hcomplete _ Hk) as (Hc & Ho).
  destruct (Hcomplete _ Hk') as (Hc' & Ho').
  pose proof (sort_and_get_parameters_sorted first rest Hc Ho) as Hs.
  pose proof (sort_and_get_parameters_sorted first' rest' Hc' Ho') as Hs'.
  cbv zeta in Hs, Hs'.
  destruct (Hk first (or_introl eq_refl)) as (_ & Hof & _).
  destruct (Hk' first' (or_introl eq_refl)) as (_ & Hof' & _).
  rewrite Hof in Hs. rewrite Hof' in Hs'.
  assert (Hkeys : map fst (sort_keyed (keyed_slices o (first' :: rest')))
                  = map fst (sort_keyed (keyed_slices o (first :: rest)))).
  { apply sort_keyed_keys_perm. unfold keyed_slices.
    apply Permutation_map. now symmetry. }
  rewrite Hkeys in Hs'.
  destruct (sort_keyed_slices o (first :: rest)) as (Hp & Hscal).
  destruct (sort_keyed_slices o (first' :: rest')) as (Hp' & Hscal').
  assert (Hnodup : NoDup (map fst (sort_keyed (keyed_slices o (first :: rest))))
                   -> sort_keyed (keyed_slices o (first :: rest))
                      = sort_keyed (keyed_slices o (first' :: rest'))).
  { intros Hnd. apply sort_keyed_perm_eq; [|assumption].
    unfold keyed_slices. now apply Permutation_map. }
  exists [(key, first :: rest)], [(key, first' :: rest')],
    (first :: rest), (first' :: rest').
  do 6 eexists.
  split; [exact Hg|]. split; [exact Hg'|].
  split; [reflexivity|]. split; [reflexivity|].
  split; [reflexivity|]. split; [reflexivity|].
  split; [reflexivity|]. split; [reflexivity|].
  split; [exact Hfiles|]. split; [exact Hfiles'|].
  split; [intros it [Hin|Hin]; [now apply Hread | now apply Hread']|].
  split; [exact Hitems|].
  split; [exact Hs|]. split; [exact Hs'|].
  split; [exact Hp|]. split; [exact Hp'|].
  split; [exact Hscal|]. split; [now rewrite <- Hkeys|].
  split; [apply sort_keyed_sorted|].
  split; [reflexivity|]. split; [reflexivity|].
  split.
  - intros Hnd. rewrite (Hnodup Hnd). now split.
  - intros Heq. split.
    + unfold load_metadata_from_dicom_files. cbn [as_list].
      now rewrite Heq, (Permutation_length Hperm).
    + rewrite (Hsame Heq). now split.
Qed.

Lemma grouping_order_independent_witness :
  let names := [Samples.in_folder "/data/x" "2.dcm";
                Samples.in_folder "/data/x" "1.dcm"] in
  let names' := [Samples.in_folder "/data/x" "1.dcm";
                 Samples.in_folder "/data/x" "2.dcm"] in
  let o := ((1, 0, 0), (0, 1, 0))%Qc in
  exists g g' main main' sorted sorted' thickness origin origin' positions,
    outcome (load_metadata_from_dicom_files Samples.folders "/data"
               (ManyNames names)) = Ok g
    /\ outcome (load_metadata_from_dicom_files Samples.folders "/data"
                  (ManyNames names')) = Ok g'
    /\ g = [("s1", main)] /\ g' = [("s1", main')]
    /\ number_of_groups g = 1 /\ number_of_groups g' = 1
    /\ largest_stack g = Ok main /\ largest_stack g' = Ok main'
    /\ map filename main
       = map (combined_name "/data") (sort_filenames Samples.folders names)
    /\ map filename main'
       = map (combined_name "/data") (sort_filenames Samples.folders names')
    /\ (forall it, In it main \/ In it main' ->
          outcome (read_grouping_metadata Samples.folders (filename it))
          = Ok (metadata it))
    /\ Permutation main main'
    /\ sort_and_get_parameters main
       = ([], Ok (sorted, (thickness, origin, positions)))
    /\ sort_and_get_parameters main'
       = ([], Ok (sorted', (thickness, origin', positions)))
    /\ Permutation sorted main /\ Permutation sorted' main'
    /\ positions = map (scalar_of (dominant_axis o)) sorted
    /\ positions = map (scalar_of (dominant_axis o)) sorted'
    /\ Sorted Qcle positions
    /\ origin = first_position sorted /\ origin' = first_position sorted'
    /\ (NoDup positions -> sorted = sorted' /\ origin = origin')
    /\ (sort_filenames Samples.folders names
        = sort_filenames Samples.folders names' ->
        load_metadata_from_dicom_files Samples.folders "/data"
          (ManyNames names)
        = load_metadata_from_dicom_files Samples.folders "/data"
            (ManyNames names')
        /\ sorted = sorted' /\ origin = origin').
Proof.
  apply (grouping_order_independent Z Samples.folders "/data"
           [Samples.in_folder "/data/x" "2.dcm";
            Samples.in_folder "/data/x" "1.dcm"]
           [Samples.in_folder "/data/x" "1.dcm";
            Samples.in_folder "/data/x" "2.dcm"]
           "s1" ((1, 0, 0), (0, 1, 0))%Qc).
  - apply sort_by_name_perm.
  - discriminate.
  - apply perm_swap.
  - intros f [<-|[<-|[]]];
      (split; [reflexivity|]; eexists; split; [reflexivity|];
       split; [reflexivity|]; split; [reflexivity|]; discriminate).
Defined.

(** C9, as stated, fails.  Two slices of one series lie at (0, 0, 5) and
    (3, 0, 5): one orientation, both positions known, the same scalar
    position 5 along the slice axis.  Their files have the same name in
    two folders, so [sort_filenames] leaves them in the order given.  The
    sorted positions are 5, 5 for either input order, but the sorted stack
    and the origin follow the input order. *)
Lemma grouping_order_independent_counterexample :
  let x1 := Samples.in_folder "/data/x" "1.dcm" in
  let y1 := Samples.in_folder "/data/y" "1.dcm" in
  let o := ((1, 0, 0), (0, 1, 0))%Qc in
  Permutation [x1; y1] [y1; x1]
  /\ (forall f, In f [x1; y1] ->
                coherent_slice Samples.folders "/data" "s1" o f)
  /\ exists main main' sorted sorted' thickness thickness'
            origin origin' positions positions',
       outcome (load_metadata_from_dicom_files Samples.folders "/data"
                  (ManyNames [x1; y1])) = Ok [("s1", main)]
       /\ outcome (load_metadata_from_dicom_files Samples.folders "/data"
                     (ManyNames [y1; x1])) = Ok [("s1", main')]
       /\ sort_and_get_parameters main
          = ([], Ok (sorted, (thickness, origin, positions)))
       /\ sort_and_get_parameters main'
          = ([], Ok (sorted', (thickness', origin', positions')))
       /\ map this positions = [5 # 1; 5 # 1]%Q
       /\ map this positions' = [5 # 1; 5 # 1]%Q
       /\ map filename sorted = ["/data/x/1.dcm"; "/data/y/1.dcm"]
       /\ map filename sorted' = ["/data/y/1.dcm"; "/data/x/1.dcm"]
       /\ sorted <> sorted'
       /\ origin <> origin'.
Proof.
  cbv zeta. split; [apply perm_swap|]. split.
  - intros f [<-|[<-|[]]];
      (split; [reflexivity|]; eexists; split; [reflexivity|];
       split; [reflexivity|]; split; [reflexivity|]; discriminate).
  - do 10 eexists.
    split; [reflexivity|]. split; [reflexivity|].
    split; [reflexivity|]. split; [reflexivity|].
    split; [vm_compute; reflexivity|]. split; [vm_compute; reflexivity|].
    split; [reflexivity|]. split; [reflexivity|]. split.
    + intros H. apply (f_equal (map filename)) in H. discriminate H.
    + intros H.
      apply (f_equal (option_map (fun p : Point => this (fst (fst p))))) in H.
      vm_compute in H. discriminate H.
Qed.

(** ** load_main_image_from_dicom_files *)

Lemma largest_from_spec g :
  forall best,
    (largest_from best g = best \/ exists k, In (k, largest_from best g) g)
    /\ length best <= length (largest_from best g)
    /\ forall k s, In (k, s) g -> length s <= length (largest_from best g).
Proof.
  induction g as [|[k0 s0] g IH]; intros best; cbn [largest_from].
  - split; [now left|]. split; [lia | intros k s []].
  - destruct (Nat.ltb_spec (length best) (length s0)) as [Hlt|Hge].
    + destruct (IH s0) as (Hm & Hl & Hall). split; [|split].
      * right. destruct Hm as [->|(k & Hin)];
          [exists k0; now left | exists k; now right].
      * lia.
      * intros k s [Heq|Hin]; [injection Heq as _ <-; lia | eauto].
    + destruct (IH best) as (Hm & Hl & Hall). split; [|split].
      * destruct Hm as [->|(k & Hin)]; [now left | right; exists k; now right].
      * lia.
      * intros k s [Heq|Hin]; [injection Heq as _ <-; lia | eauto].
Qed.

(** [largest_stack] returns a group of the grouper that no group exceeds
    in size. *)
Lemma largest_stack_spec g main :
  largest_stack g = Ok main ->
  (exists k, In (k, main) g)
  /\ forall k s, In (k, s) g -> length s <= length main.
Proof.
  destruct g as [|[k0 s0] g]; [discriminate|].
  cbn [largest_stack]. intros H. injection H as <-.
  destruct (largest_from_spec g s0) as (Hm & Hl & Hall). split.
  - destruct Hm as [->|(k & Hin)]; [exists k0; now left | exists k; now right].
  - intros k s [Heq|Hin]; [injection Heq as _ <-; lia | eauto].
Qed.

Lemma all_scalars_snd axis stack keyed :
  all_scalars axis stack = Some keyed -> map snd keyed = stack.
Proof.
  revert keyed. induction stack as [|it stack IH]; intros keyed H.
  - injection H as <-. reflexivity.
  - cbn [all_scalars] in H. unfold scalar_position in H.
    destruct (position (metadata it)); [|discriminate].
    destruct (all_scalars axis stack) as [ks|]; [|discriminate].
    injection H as <-. cbn [map snd]. now rewrite (IH ks eq_refl).
Qed.

(** [sort_and_get_parameters] reorders the stack: it neither drops nor
    adds a slice, and it only ever emits warnings of its own. *)
Lemma sort_and_get_parameters_perm stack sorted params :
  outcome (sort_and_get_parameters stack) = Ok (sorted, params) ->
  Permutation sorted stack.
Proof.
  unfold sort_and_get_parameters. destruct stack as [|first rest].
  - intros H. injection H as <- _. reflexivity.
  - destruct (forallb _ _); destruct (all_scalars _ _) as [keyed|] eqn:E;
      cbn; intros H; injection H as <- _;
      try reflexivity;
      (rewrite <- (all_scalars_snd _ _ _ E);
       apply Permutation_map, sort_keyed_perm).
Qed.



Section MainImage.

Context {V : Type} (w : World V).









End MainImage.


(** ** The median of consecutive differences *)

Lemma Qc_eq_Qeq (x y : Qc) : x = y <-> (this x == this y)%Q.
Proof. split; [intros ->; reflexivity | apply Qc_is_canon]. Qed.

(** Linear arithmetic on canonical rationals, through the rationals. *)
Ltac qc_lra :=
  repeat match goal with
         | H : @eq Qc _ _ |- _ => apply Qc_eq_Qeq in H
         | |- @eq Qc _ _ => apply Qc_eq_Qeq
         end;
  unfold Qcle, Qclt, Qcminus, Qcplus, Qcopp, Q2Qc in *;
  cbn [this] in *;
  repeat (rewrite ?Qred_correct in * );
  lra.

Lemma Qcltb_lt x y : Qcltb x y = true <-> (x < y)%Qc.
Proof.
  unfold Qcltb. rewrite negb_true_iff. split.
  - apply Qcleb_gt.
  - intros H. destruct (Qcleb y x) eqn:E; [|reflexivity].
    apply Qcleb_le in E. exfalso. now apply (Qclt_not_le _ _ H).
Qed.

Lemma Qcltb_ge x y : Qcltb x y = false <-> (y <= x)%Qc.
Proof.
  unfold Qcltb. rewrite negb_false_iff. apply Qcleb_le.
Qed.

Lemma Qc_half_sum (d : Qc) : ((d + d) / Q2Qc (2 # 1))%Qc = d.
Proof.
  apply Qc_eq_Qeq. unfold Qcdiv, Qcinv, Qcmult, Qcplus, Q2Qc. cbn [this].
  rewrite !Qred_correct. field.
Qed.

Lemma insert_Qc_perm x l : Permutation (insert_Qc x l) (x :: l).
Proof.
  induction l as [|y l IH]; cbn [insert_Qc].
  - reflexivity.
  - destruct (Qcleb x y); [reflexivity|]. rewrite IH. apply perm_swap.
Qed.

Lemma sort_Qc_perm l : Permutation (sort_Qc l) l.
Proof.
  induction l as [|x l IH]; cbn [sort_Qc].
  - reflexivity.
  - rewrite insert_Qc_perm. now constructor.
Qed.

Lemma insert_Qc_sorted x l : Sorted Qcle l -> Sorted Qcle (insert_Qc x l).
Proof.
  induction l as [|y l IH]; cbn [insert_Qc]; intros Hs.
  - repeat constructor.
  - destruct (Qcleb x y) eqn:E.
    + constructor; [assumption|]. constructor. now apply Qcleb_le.
    + inversion Hs as [|? ? Hs' Hhd]; subst.
      constructor; [now apply IH|].
      apply Qcleb_gt, Qclt_le_weak in E.
      destruct l as [|z l]; cbn [insert_Qc].
      * now constructor.
      * destruct (Qcleb x z); constructor;
          [assumption | now inversion Hhd].
Qed.

Lemma sort_Qc_sorted l : Sorted Qcle (sort_Qc l).
Proof.
  induction l as [|x l IH]; cbn [sort_Qc].
  - constructor.
  - now apply insert_Qc_sorted.
Qed.

(** Sorting yields the one non-decreasing arrangement of the elements. *)
Lemma sort_Qc_unique l s :
  Sorted Qcle s -> Permutation l s -> sort_Qc l = s.
Proof.
  intros Hs Hp. apply sorted_perm_eq; [apply sort_Qc_sorted | assumption|].
  now rewrite sort_Qc_perm.
Qed.

Lemma sort_keyed_keys {A} (keyed : list (Qc * A)) :
  map fst (sort_keyed keyed) = sort_Qc (map fst keyed).
Proof.
  symmetry. apply sort_Qc_unique; [apply sort_keyed_sorted|].
  apply Permutation_map. symmetry. apply sort_keyed_perm.
Qed.

Lemma count_filter_perm (f : Qc -> bool) l l' :
  Permutation l l' -> length (filter f l) = length (filter f l').
Proof.
  induction 1 as [|x l l' _ IH|x y l|l l' l'' _ IH1 _ IH2]; cbn [filter].
  - reflexivity.
  - destruct (f x); cbn [length]; congruence.
  - destruct (f x), (f y); reflexivity.
  - congruence.
Qed.

Lemma count_below_cons d g l :
  count_below d (g :: l)
  = (if Qcltb g d then 1 else 0) + count_below d l.
Proof. unfold count_below. cbn [filter]. now destruct (Qcltb g d). Qed.

Lemma count_above_cons d g l :
  count_above d (g :: l)
  = (if Qcltb d g then 1 else 0) + count_above d l.
Proof. unfold count_above. cbn [filter]. now destruct (Qcltb d g). Qed.

Lemma count_above_all d l :
  Forall (fun g => (d < g)%Qc) l -> count_above d l = length l.
Proof.
  induction 1 as [|g l Hg _ IH]; [reflexivity|].
  rewrite count_above_cons, IH.
  apply Qcltb_lt in Hg. now rewrite Hg.
Qed.

(** In a sorted list, an element below [d] has only elements below [d]
    before it, and an element above [d] has only elements above [d] after
    it. *)
Lemma sorted_nth_below d s :
  StronglySorted Qcle s ->
  forall j, j < length s -> (nth j s 0 < d)%Qc -> j < count_below d s.
Proof.
  induction 1 as [|h t _ IH Hh]; intros j Hj Hlt.
  - simpl in Hj. lia.
  - rewrite count_below_cons. destruct j as [|j]; cbn [nth length] in *.
    + apply Qcltb_lt in Hlt. rewrite Hlt. lia.
    + assert (Hhd : (h < d)%Qc).
      { apply Qcle_lt_trans with (nth j t 0%Qc); [|assumption].
        rewrite Forall_forall in Hh. apply Hh, nth_In. lia. }
      apply Qcltb_lt in Hhd. rewrite Hhd.
      specialize (IH j ltac:(lia) Hlt). lia.
Qed.

Lemma sorted_nth_above d s :
  StronglySorted Qcle s ->
  forall j, j < length s -> (d < nth j s 0)%Qc ->
            length s - j <= count_above d s.
Proof.
  induction 1 as [|h t _ IH Hh]; intros j Hj Hlt.
  - simpl in Hj. lia.
  - destruct j as [|j]; cbn [nth length] in *.
    + rewrite (count_above_all d (h :: t)); [simpl; lia|].
      constructor; [assumption|].
      eapply Forall_impl; [|exact Hh].
      intros g Hg. now apply Qclt_le_trans with h.
    + rewrite count_above_cons.
      specialize (IH j ltac:(lia) Hlt). lia.
Qed.

Lemma sorted_nth_middle d s j :
  Sorted Qcle s ->
  count_below d s <= j ->
  j + count_above d s < length s ->
  nth j s 0%Qc = d.
Proof.
  intros Hs Hlo Hhi.
  assert (Hss : StronglySorted Qcle s).
  { apply Sorted_StronglySorted; [|assumption].
    intros x y z. apply Qcle_trans. }
  destruct (Qc_dec (nth j s 0%Qc) d) as [[Hlt|Hgt]|Heq].
  - pose proof (sorted_nth_below d s Hss j ltac:(lia) Hlt). lia.
  - pose proof (sorted_nth_above d s Hss j ltac:(lia) Hgt). lia.
  - assumption.
Qed.

(** When fewer than half of the values are below [d] and fewer than half
    are above it, the median is [d]. *)
Lemma median_majority d l :
  2 * count_below d l < length l ->
  2 * count_above d l < length l ->
  median l = Some d.
Proof.
  intros Hlo Hhi. unfold median.
  pose proof (sort_Qc_sorted l) as Hs.
  pose proof (sort_Qc_perm l) as Hp.
  rewrite <- (Permutation_length Hp) in Hlo, Hhi.
  unfold count_below in Hlo. unfold count_above in Hhi.
  rewrite <- (count_filter_perm (fun g => Qcltb g d) _ _ Hp) in Hlo.
  rewrite <- (count_filter_perm (fun g => Qcltb d g) _ _ Hp) in Hhi.
  fold (count_below d (sort_Qc l)) in Hlo.
  fold (count_above d (sort_Qc l)) in Hhi.
  set (s := sort_Qc l) in *. set (n := length s) in *.
  destruct n as [|n'] eqn:En; [lia|]. rewrite <- En.
  destruct (Nat.even n) eqn:Ev.
  - apply Nat.even_spec in Ev. destruct Ev as (k & Hk).
    assert (Hdiv : n / 2 = k).
    { rewrite Hk, Nat.mul_comm. now apply Nat.div_mul. }
    rewrite Hdiv.
    rewrite (sorted_nth_middle d s (k - 1) Hs) by (fold n; lia).
    rewrite (sorted_nth_middle d s k Hs) by (fold n; lia).
    now rewrite Qc_half_sum.
  - assert (Ho : Nat.odd n = true).
    { rewrite <- Nat.negb_even, Ev. reflexivity. }
    apply Nat.odd_spec in Ho. destruct Ho as (k & Hk).
    assert (Hdiv : n / 2 = k).
    { rewrite Hk, Nat.mul_comm, Nat.div_add_l by lia. simpl. lia. }
    rewrite Hdiv.
    now rewrite (sorted_nth_middle d s k Hs) by (fold n; lia).
Qed.

Lemma length_diffs l : length (diffs l) = length l - 1.
Proof.
  induction l as [|a [|b l] IH]; try reflexivity.
  change (diffs (a :: b :: l)) with ((b - a)%Qc :: diffs (b :: l)).
  cbn [length] in *. lia.
Qed.

Lemma diffs_cons2 a b l : diffs (a :: b :: l) = (b - a)%Qc :: diffs (b :: l).
Proof. reflexivity. Qed.

(** Inserting a value into a list, after a leading element not above it,
    changes the consecutive differences little: at most one more is above
    [d] and at most two more are below it; taking the value out again
    adds at most one above [d] and none below. *)
Lemma diffs_insert_after d :
  (0 <= d)%Qc ->
  forall y L p,
    (p <= y)%Qc ->
    count_above d (diffs (p :: insert_Qc y L))
      <= count_above d (diffs (p :: L)) + 1
    /\ count_below d (diffs (p :: insert_Qc y L))
      <= count_below d (diffs (p :: L)) + 2
    /\ count_above d (diffs (p :: L))
      <= count_above d (diffs (p :: insert_Qc y L)) + 1
    /\ count_below d (diffs (p :: L))
      <= count_below d (diffs (p :: insert_Qc y L)).
Proof.
  intros Hd y L. induction L as [|m L IH]; intros p Hp.
  - cbn [insert_Qc]. rewrite diffs_cons2. cbn [diffs].
    rewrite count_above_cons, count_below_cons.
    destruct (Qcltb d (y - p)), (Qcltb (y - p) d); cbn; lia.
  - cbn [insert_Qc]. destruct (Qcleb y m) eqn:E.
    + apply Qcleb_le in E.
      rewrite !diffs_cons2, !count_above_cons, !count_below_cons.
      assert (F1 : Qcltb d (y - p) = true -> Qcltb d (m - y) = true ->
                   Qcltb d (m - p) = true).
      { rewrite !Qcltb_lt. intros H1 H2. qc_lra. }
      assert (F4 : Qcltb (m - p) d = true -> Qcltb (y - p) d = true).
      { rewrite !Qcltb_lt. intros H1. qc_lra. }
      destruct (Qcltb d (y - p)), (Qcltb d (m - y)), (Qcltb d (m - p)),
        (Qcltb (y - p) d), (Qcltb (m - y) d), (Qcltb (m - p) d);
        try (specialize (F1 eq_refl eq_refl); discriminate);
        try (specialize (F4 eq_refl); discriminate);
        lia.
    + apply Qcleb_gt, Qclt_le_weak in E.
      rewrite !diffs_cons2, !count_above_cons, !count_below_cons.
      destruct (IH m E) as (H1 & H2 & H3 & H4). lia.
Qed.

Lemma diffs_insert d :
  (0 <= d)%Qc ->
  forall y L,
    count_above d (diffs (insert_Qc y L)) <= count_above d (diffs L) + 1
    /\ count_below d (diffs (insert_Qc y L)) <= count_below d (diffs L) + 2
    /\ count_above d (diffs L) <= count_above d (diffs (insert_Qc y L)) + 1
    /\ count_below d (diffs L) <= count_below d (diffs (insert_Qc y L)).
Proof.
  intros Hd y [|m L].
  - cbn. lia.
  - cbn [insert_Qc]. destruct (Qcleb y m) eqn:E.
    + rewrite diffs_cons2, count_above_cons, count_below_cons.
      destruct (Qcltb d (m - y)), (Qcltb (m - y) d); lia.
    + apply Qcleb_gt, Qclt_le_weak in E.
      now apply diffs_insert_after.
Qed.

Lemma diffs_evenly a d n : diffs (evenly a d n) = repeat d (n - 1).
Proof.
  revert a. induction n as [|[|n] IH]; intros a; try reflexivity.
  change (evenly a d (S (S n))) with (a :: (a + d)%Qc :: evenly (a + d + d) d n).
  rewrite diffs_cons2.
  change ((a + d)%Qc :: evenly (a + d + d) d n) with (evenly (a + d) d (S n)).
  rewrite IH. cbn [Nat.sub repeat]. rewrite Nat.sub_0_r.
  f_equal. qc_lra.
Qed.

Lemma length_evenly a d n : length (evenly a d n) = n.
Proof. revert a. induction n; intros a; cbn; congruence. Qed.

Lemma evenly_sorted a d n : (0 <= d)%Qc -> Sorted Qcle (evenly a d n).
Proof.
  intros Hd. revert a. induction n as [|n IH]; intros a; cbn [evenly].
  - constructor.
  - constructor; [apply IH|].
    destruct n; cbn [evenly]; constructor. qc_lra.
Qed.

Lemma count_repeat d n :
  count_below d (repeat d n) = 0 /\ count_above d (repeat d n) = 0.
Proof.
  assert (H : Qcltb d d = false) by (apply Qcltb_ge, Qcle_refl).
  induction n as [|n [IH1 IH2]]; [now split|].
  cbn [repeat]. rewrite count_below_cons, count_above_cons, H. lia.
Qed.

Lemma split_nth (l : list Qc) i :
  i < length l -> l = firstn i l ++ nth i l 0%Qc :: skipn (S i) l.
Proof.
  revert i. induction l as [|a l IH]; intros i Hi; [simpl in Hi; lia|].
  destruct i as [|i]; [reflexivity|].
  cbn [firstn nth skipn app]. f_equal. apply IH. simpl in Hi. lia.
Qed.

Lemma Sorted_remove_middle (l1 l2 : list Qc) y :
  Sorted Qcle (l1 ++ y :: l2) -> Sorted Qcle (l1 ++ l2).
Proof.
  intros Hs. apply StronglySorted_Sorted.
  apply Sorted_StronglySorted in Hs; [|intros a b c; apply Qcle_trans].
  induction l1 as [|a l1 IH]; cbn [app] in *.
  - now inversion Hs.
  - inversion Hs as [|? ? Hs' Ha]; subst. constructor; [now apply IH|].
    apply Forall_app in Ha. destruct Ha as (Ha1 & Ha2).
    apply Forall_app. split; [assumption | now inversion Ha2].
Qed.

(** The median consecutive difference of evenly spaced scalars, in any
    order, is the spacing. *)
Lemma thickness_evenly scalars a d n :
  (0 <= d)%Qc -> 2 <= n ->
  Permutation scalars (evenly a d n) ->
  median (diffs (sort_Qc scalars)) = Some d.
Proof.
  intros Hd Hn Hp.
  rewrite (sort_Qc_unique scalars (evenly a d n) (evenly_sorted a d n Hd) Hp).
  rewrite diffs_evenly.
  destruct (count_repeat d (n - 1)) as (Hlo & Hhi).
  apply median_majority; rewrite ?Hlo, ?Hhi, repeat_length; lia.
Qed.

(** With six or more evenly spaced scalars, replacing any one of them by
    any value leaves the median consecutive difference at the spacing. *)
Lemma thickness_outlier scalars a d n i x :
  (0 <= d)%Qc -> 6 <= n -> i < n ->
  Permutation scalars (set_nth i x (evenly a d n)) ->
  median (diffs (sort_Qc scalars)) = Some d.
Proof.
  intros Hd Hn Hi Hp.
  set (E := evenly a d n) in *.
  assert (HlenE : length E = n) by apply length_evenly.
  set (L := firstn i E ++ skipn (S i) E).
  set (y := nth i E 0%Qc).
  assert (HE : E = firstn i E ++ y :: skipn (S i) E).
  { apply split_nth. lia. }
  assert (HsE : Sorted Qcle E) by now apply evenly_sorted.
  assert (HsM : Sorted Qcle L).
  { unfold L. apply Sorted_remove_middle with y. now rewrite <- HE. }
  assert (HEy : insert_Qc y L = E).
  { apply sorted_perm_eq; [now apply insert_Qc_sorted | assumption|].
    rewrite insert_Qc_perm. unfold L. rewrite HE at 3.
    apply Permutation_middle. }
  assert (Hsort : sort_Qc scalars = insert_Qc x L).
  { apply sort_Qc_unique; [now apply insert_Qc_sorted|].
    rewrite Hp, insert_Qc_perm. unfold set_nth, L.
    symmetry. apply Permutation_middle. }
  rewrite Hsort.
  destruct (diffs_insert d Hd y L) as (_ & _ & H3 & H4).
  destruct (diffs_insert d Hd x L) as (H1 & H2 & _ & _).
  rewrite HEy in H3, H4. unfold E in H3, H4. rewrite diffs_evenly in H3, H4.
  destruct (count_repeat d (n - 1)) as (Hlo & Hhi).
  rewrite Hlo in H4. rewrite Hhi in H3.
  assert (Hlen : length (diffs (insert_Qc x L)) = n - 1).
  { rewrite length_diffs, (Permutation_length (insert_Qc_perm x L)).
    cbn [length]. unfold L. rewrite length_app, length_firstn, length_skipn.
    lia. }
  apply median_majority; rewrite Hlen; lia.
Qed.

(** C8, as amended.  For a group with complete, consistent positions,
    [sort_and_get_parameters] returns as thickness the median of the
    consecutive differences of the sorted scalar positions (for two
    slices, the single difference); for three or more evenly spaced slices
    with spacing d it is d; and for six or more evenly spaced slices,
    replacing the position of any one slice by any value leaves it at d. *)
Theorem slice_thickness_median :
  forall (first : StackItem) (rest : DicomStack),
    let stack := first :: rest in
    let scalars :=
      map (scalar_of (dominant_axis (orientationVector (metadata first))))
          stack in
    complete_positions stack ->
    consistent_orientation stack ->
    exists sorted origin,
      sort_and_get_parameters stack
      = ([], Ok (sorted,
                 (median (diffs (sort_Qc scalars)), origin, sort_Qc scalars)))
      /\ (forall p q, sort_Qc scalars = [p; q] ->
            median (diffs (sort_Qc scalars)) = Some (q - p)%Qc)
      /\ (forall a d,
            (0 <= d)%Qc -> 3 <= length stack ->
            Permutation scalars (evenly a d (length stack)) ->
            median (diffs (sort_Qc scalars)) = Some d)
      /\ (forall a d i x,
            (0 <= d)%Qc -> 6 <= length stack -> i < length stack ->
            Permutation scalars (set_nth i x (evenly a d (length stack))) ->
            median (diffs (sort_Qc scalars)) = Some d).
Proof.
  intros first rest stack scalars Hcomplete Hconsistent.
  destruct (sort_and_get_parameters_complete first rest Hcomplete Hconsistent)
    as (origin & Hrun).
  rewrite sort_keyed_keys in Hrun. unfold keyed_slices in Hrun.
  rewrite map_map in Hrun. cbn [fst] in Hrun.
  fold stack in Hrun. fold scalars in Hrun.
  eexists. exists origin. split; [exact Hrun|]. split; [|split].
  - intros p q ->. reflexivity.
  - intros a d Hd Hn Hp. apply (thickness_evenly scalars a d (length stack));
      [assumption | lia | assumption].
  - intros a d i x Hd Hn Hi Hp.
    now apply (thickness_outlier scalars a d (length stack) i x).
Qed.

Lemma slice_thickness_median_witness :
  slice_thickness
    (sort_and_get_parameters
       [Samples.slice "a" 0 1; Samples.slice "b" 1 1; Samples.slice "c" 2 1;
        Samples.slice "d" 3 1; Samples.slice "e" 40 1; Samples.slice "f" 5 1])
  = Some (1 # 1)%Q.
Proof.
  destruct (slice_thickness_median (Samples.slice "a" 0 1)
              [Samples.slice "b" 1 1; Samples.slice "c" 2 1;
               Samples.slice "d" 3 1; Samples.slice "e" 40 1;
               Samples.slice "f" 5 1])
    as (sorted & origin & Hrun & _ & _ & Houtlier).
  - intros it [<-|[<-|[<-|[<-|[<-|[<-|[]]]]]]]; discriminate.
  - intros a b [<-|[<-|[<-|[<-|[<-|[<-|[]]]]]]]
               [<-|[<-|[<-|[<-|[<-|[<-|[]]]]]]]; reflexivity.
  - unfold slice_thickness. rewrite Hrun. cbn [outcome snd].
    rewrite (Houtlier 0%Qc 1%Qc 4 (Q2Qc (40 # 1))).
    + reflexivity.
    + discriminate.
    + simpl. lia.
    + simpl. lia.
    + apply Permutation_refl'. cbn.
      repeat (f_equal; [apply Qc_is_canon; reflexivity|]). reflexivity.
Defined.

(** C8, as stated, fails: three slices at 0, 1 and 2 are evenly spaced and
    give thickness 1; with the position of the middle slice changed to 9
    the thickness is 9/2.  Five slices are still too few: with 0, 1, 2, 3,
    4 and the middle position changed to 9 the thickness is 3/2. *)
Lemma slice_thickness_median_counterexample :
  let regular :=
    [Samples.slice "a" 0 1; Samples.slice "b" 1 1; Samples.slice "c" 2 1] in
  let corrupted :=
    [Samples.slice "a" 0 1; Samples.slice "b" 9 1; Samples.slice "c" 2 1] in
  let corrupted5 :=
    [Samples.slice "a" 0 1; Samples.slice "b" 1 1; Samples.slice "c" 9 1;
     Samples.slice "d" 3 1; Samples.slice "e" 4 1] in
  complete_positions corrupted
  /\ consistent_orientation corrupted
  /\ slice_thickness (sort_and_get_parameters regular) = Some (1 # 1)%Q
  /\ slice_thickness (sort_and_get_parameters corrupted) = Some (9 # 2)%Q
  /\ slice_thickness (sort_and_get_parameters corrupted)
     <> slice_thickness (sort_and_get_parameters regular)
  /\ slice_thickness (sort_and_get_parameters corrupted5) = Some (3 # 2)%Q.
Proof.
  cbv zeta. split; [|split; [|split; [|split; [|split]]]].
  - intros it [<-|[<-|[<-|[]]]]; discriminate.
  - intros a b [<-|[<-|[<-|[]]]] [<-|[<-|[<-|[]]]]; reflexivity.
  - reflexivity.
  - reflexivity.
  - vm_compute. discriminate.
  - reflexivity.
Qed.

(** ** Two runs of the stages of the pipeline *)

(** Five single-channel 4 x 4 slices of 16-bit data at 0, 2, 4, 6 and 8 mm,
    given in another order.  The metadata pass forms one group; sorting it
    gives the thickness 2 and the positions 0, 2, 4, 6, 8 without a
    warning; the volume loaded from the sorted group has shape (4, 4, 5)
    and its slices are read in the order of their positions.
    [load_main_image_from_dicom_files] itself ends at
    [main_group.metadata]. *)
Example five_slices :
  let names := ManyNames [FStr "e.dcm"; FStr "c.dcm"; FStr "a.dcm";
                          FStr "d.dcm"; FStr "b.dcm"] in
  exists g main sorted thickness origin positions raw,
    outcome (load_metadata_from_dicom_files Samples.world "/data" names)
    = Ok g
    /\ largest_stack g = Ok main
    /\ sort_and_get_parameters main
       = ([], Ok (sorted, (Some thickness, origin, positions)))
    /\ this thickness = (2 # 1)%Q
    /\ map this positions = [0 # 1; 2 # 1; 4 # 1; 6 # 1; 8 # 1]%Q
    /\ outcome (load_images_from_stack Samples.world sorted)
       = Ok {| raw_image := Some raw |}
    /\ nd_shape raw = [4; 4; 5]
    /\ nd_dtype raw = dt_int16
    /\ pixel_read_files (trace (load_images_from_stack Samples.world sorted))
       = ["/data/a.dcm"; "/data/b.dcm"; "/data/c.dcm"; "/data/d.dcm";
          "/data/e.dcm"]
    /\ outcome (load_main_image_from_dicom_files Samples.world "/data" names)
       = Raise (AttributeError
                  "'DicomStack' object has no attribute 'metadata'").
Proof.
  cbv zeta. do 7 eexists.
  split; [reflexivity|]. split; [reflexivity|]. split; [reflexivity|].
  split; [vm_compute; reflexivity|]. split; [vm_compute; reflexivity|].
  split; [reflexivity|]. split; [reflexivity|]. split; [reflexivity|].
  split; vm_compute; reflexivity.
Qed.

(** Five slices of which one has no position: sorting the group keeps the
    order of the input, warns, leaves the thickness unknown and returns
    the index sequence; the volume is loaded in that order. *)
Example five_slices_one_without_position :
  let names := ManyNames [FStr "e.dcm"; FStr "c.dcm"; FStr "nopos.dcm";
                          FStr "d.dcm"; FStr "b.dcm"] in
  exists g main sorted origin positions raw,
    outcome (load_metadata_from_dicom_files Samples.world "/data" names)
    = Ok g
    /\ largest_stack g = Ok main
    /\ sort_and_get_parameters main
       = ([ShowWarning "sort_and_get_parameters:MissingPositions"
             "Slice positions are missing; the file order is used."],
          Ok (sorted, (None, origin, positions)))
    /\ sorted = main
    /\ map this positions = [0 # 1; 1 # 1; 2 # 1; 3 # 1; 4 # 1]%Q
    /\ outcome (load_images_from_stack Samples.world sorted)
       = Ok {| raw_image := Some raw |}
    /\ nd_shape raw = [4; 4; 5]
    /\ pixel_read_files (trace (load_images_from_stack Samples.world sorted))
       = ["/data/e.dcm"; "/data/c.dcm"; "/data/nopos.dcm"; "/data/d.dcm";
          "/data/b.dcm"].
Proof.
  cbv zeta. do 6 eexists.
  split; [reflexivity|]. split; [reflexivity|]. split; [reflexivity|].
  split; [reflexivity|]. split; [vm_compute; reflexivity|].
  split; [reflexivity|]. split; [reflexivity|].
  vm_compute. reflexivity.
Qed.

(** * Further properties of dicom.py and load.py *)

(** ** The signature check *)

(** X1.  [is_dicom_image_file] answers True exactly when the name is not
    DICOMDIR and the file at the joined path has the bytes D, I, C, M at
    offsets 128 to 131; it raises exactly when the name is not DICOMDIR and
    there is no file at the joined path.  For the name DICOMDIR it answers
    False without opening any file, so also when no such file exists. *)
Theorem is_dicom_image_file_spec :
  forall (V : Type) (w : World V) (file_path file_name : string),
    let run := is_dicom_image_file w file_path file_name in
    (outcome run = Ok true <->
     file_name <> "DICOMDIR"
     /\ exists content,
          file_bytes w (join file_path file_name) = Some content
          /\ forall i, i < 4 ->
               nth_error content (128 + i) = nth_error DICM i)
    /\ ((exists e, outcome run = Raise e) <->
        file_name <> "DICOMDIR"
        /\ file_bytes w (join file_path file_name) = None)
    /\ (file_name = "DICOMDIR" -> run = ([], Ok false)).
Proof.
  intros V w file_path file_name run. subst run. unfold is_dicom_image_file.
  destruct (String.eqb_spec file_name "DICOMDIR") as [->|Hne].
  - split; [|split].
    + split; [discriminate | intros [H _]; now elim H].
    + split; [intros (e & H); discriminate | intros [H _]; now elim H].
    + reflexivity.
  - unfold is_dicom. rewrite bind_emit. cbn [outcome snd].
    destruct (file_bytes w (join file_path file_name)) as [content|].
    + cbn [ret outcome snd]. split; [|split].
      * split.
        -- intros H. injection H as H. apply bytes_eqb_eq in H.
           split; [assumption|]. exists content. split; [reflexivity|].
           now apply seek_read_DICM.
        -- intros (_ & content' & Hc & H). injection Hc as <-.
           f_equal. apply bytes_eqb_eq. now apply seek_read_DICM.
      * split; [intros (e & H); discriminate | intros [_ H]; discriminate].
      * intros H. contradiction.
    + cbn [raise outcome snd]. split; [|split].
      * split; [discriminate | intros (_ & content & H & _); discriminate].
      * split; [intros _; now split | intros _; eexists; reflexivity].
      * intros H. contradiction.
Qed.

(** X2.  [is_dicom] looks at the four bytes at offsets 128 to 131 and nothing
    else: two files that agree there are classified alike, whatever their
    other bytes and their lengths. *)
Theorem is_dicom_local :
  forall (V : Type) (w : World V) (file1 file2 : string)
         (content1 content2 : list byte),
    file_bytes w file1 = Some content1 ->
    file_bytes w file2 = Some content2 ->
    (forall i, i < 4 ->
       nth_error content1 (128 + i) = nth_error content2 (128 + i)) ->
    outcome (is_dicom w file1) = outcome (is_dicom w file2).
Proof.
  intros V w file1 file2 content1 content2 H1 H2 Hsame.
  unfold is_dicom. rewrite !bind_emit, H1, H2. cbn [outcome snd ret].
  do 2 f_equal. apply nth_error_ext. intros i.
  destruct (Nat.lt_ge_cases i 4) as [Hi|Hi].
  - rewrite !nth_error_seek_read by assumption. now apply Hsame.
  - assert (Hl : forall c, nth_error (seek_read c 128 4) i = None).
    { intros c. apply nth_error_None. rewrite length_seek_read. lia. }
    now rewrite !Hl.
Qed.

Lemma is_dicom_local_witness :
  outcome (is_dicom Samples.world "/data/a.dcm")
  = outcome (is_dicom Samples.world "/data/DICOMDIR").
Proof.
  apply (is_dicom_local Z Samples.world "/data/a.dcm" "/data/DICOMDIR"
           (Samples.zeros 128 ++ DICM ++ Samples.zeros 16)
           (Samples.zeros 128 ++ DICM ++ Samples.zeros 16));
    reflexivity.
Defined.

(** ** Progress values *)

Lemma py_round_div_percent (a b q : Z) :
  (0 <= a <= b)%Z -> (0 < b)%Z ->
  py_round_div (100 * a) b = Ok q -> (0 <= q <= 100)%Z.
Proof.
  intros Ha Hb. unfold py_round_div.
  destruct (Z.eqb_spec b 0) as [->|_]; [lia|]. cbv zeta.
  pose proof (Z.div_mod (100 * a) b ltac:(lia)) as Hdm.
  pose proof (Z.mod_pos_bound (100 * a) b Hb) as Hr.
  assert (Hk0 : (0 <= 100 * a / b)%Z) by (apply Z.div_pos; lia).
  assert (Hk1 : (100 * a / b <= 100)%Z).
  { apply Z.div_le_upper_bound; lia. }
  assert (Hk2 : (0 < (100 * a) mod b -> 100 * a / b < 100)%Z).
  { intros Hpos. destruct (Z.eq_dec (100 * a / b) 100) as [E|]; [|lia].
    rewrite E in Hdm. nia. }
  destruct (Z.ltb_spec (2 * ((100 * a) mod b)) b) as [Hlt|Hge].
  - intros Hq. assert (q = (100 * a / b)%Z) by congruence. lia.
  - destruct (Z.ltb_spec b (2 * ((100 * a) mod b))) as [Hlt'|Hge'].
    + intros Hq. assert (q = (100 * a / b + 1)%Z) by congruence. lia.
    + destruct (Z.even (100 * a / b)); intros Hq.
      * assert (q = (100 * a / b)%Z) by congruence. lia.
      * assert (q = (100 * a / b + 1)%Z) by congruence. lia.
Qed.

Lemma Forall_percent_emit ev : percent_event ev -> Forall percent_event [ev].
Proof. intros H. now repeat constructor. Qed.

(** X9.  Every progress value [load_images_from_stack] reports lies between 0
    and 100. *)
Theorem load_images_progress_percent :
  forall (V : Type) (w : World V) (stack : DicomStack) (p : Z),
    In (UpdateProgressValue p) (trace (load_images_from_stack w stack)) ->
    (0 <= p <= 100)%Z.
Proof.
  intros V w stack p Hin.
  assert (HF : Forall percent_event (trace (load_images_from_stack w stack))).
  { unfold load_images_from_stack.
    apply Forall_trace_bind; [now apply Forall_trace_emit|intros _ _].
    apply Forall_trace_bind;
      [apply Forall_trace_emit; simpl; lia|intros _ _].
    apply Forall_trace_bind; [apply Forall_trace_lift|intros item0 _].
    apply Forall_trace_bind.
    { rewrite read_dicom_image_trace. now repeat constructor. }
    intros [first|] _; [|apply Forall_trace_ret].
    rewrite dtype_eq_np_char.
    apply Forall_trace_bind; [apply Forall_trace_ret|intros dt _].
    apply Forall_trace_bind.
    { unfold np_zeros. destruct (as_dtype dt); [|constructor].
      apply Forall_trace_bind; [now apply Forall_trace_emit|intros _ _].
      apply Forall_trace_ret. }
    intros raw0 _.
    apply Forall_trace_bind; [apply Forall_trace_lift|intros raw1 _].
    apply Forall_trace_bind.
    { apply Forall_trace_for_in. intros k raw Hk. unfold py_range in Hk.
      apply in_seq in Hk. unfold load_next_slice.
      apply Forall_trace_bind; [apply Forall_trace_lift|intros item _].
      apply Forall_trace_bind.
      { rewrite read_dicom_image_trace. now repeat constructor. }
      intros v _.
      apply Forall_trace_bind; [apply Forall_trace_lift|intros raw' _].
      apply Forall_trace_bind; [apply Forall_trace_lift|intros pct Hpct].
      apply Forall_trace_bind; [|intros; apply Forall_trace_ret].
      apply Forall_trace_emit. cbn [percent_event].
      apply (py_round_div_percent (Z.of_nat k) (Z.of_nat (length stack)));
        [lia | lia | exact Hpct]. }
    intros raw _.
    apply Forall_trace_bind; [now apply Forall_trace_emit|intros _ _].
    apply Forall_trace_ret. }
  rewrite Forall_forall in HF. apply (HF _ Hin).
Qed.

Lemma load_images_progress_percent_witness : (0 <= 50 <= 100)%Z.
Proof.
  apply (load_images_progress_percent Z Samples.world
           [Samples.slice "/data/a.dcm" 0 1; Samples.slice "/data/b.dcm" 2 1]
           50%Z).
  vm_compute. tauto.
Defined.

(** ** One pass of the metadata loop *)

Section MetadataLoop.

Context {V : Type} (w : World V).
Variable image_path : string.
Variable num_slices : nat.

Lemma is_dicom_trace file : trace (is_dicom w file) = [OpenFile file].
Proof.
  unfold is_dicom. rewrite bind_emit. destruct (file_bytes w file); reflexivity.
Qed.

Lemma is_dicom_Ok_exists file b :
  outcome (is_dicom w file) = Ok b -> file_bytes w file <> None.
Proof.
  unfold is_dicom. rewrite bind_emit.
  destruct (file_bytes w file); [discriminate | intros H; discriminate H].
Qed.

Lemma read_grouping_metadata_trace file :
  trace (read_grouping_metadata w file)
  = [Dcmread file true (Some (groupingTags w))].
Proof.
  unfold read_grouping_metadata, call_dcmread, bind, emit, lift,
    trace, outcome. simpl.
  destruct (dcmread w _ true _); reflexivity.
Qed.

(** What a completed pass of the loop body did. *)
Lemma load_next_metadata_inv f g idx st :
  outcome (load_next_metadata w image_path num_slices f (g, idx)) = Ok st ->
  let c := combined_name image_path f in
  exists b percent,
    outcome (is_dicom w c) = Ok b
    /\ py_round_div (100 * Z.of_nat idx) (Z.of_nat num_slices) = Ok percent
    /\ trace (load_next_metadata w image_path num_slices f (g, idx))
       = [OpenFile c;
          if b then Dcmread c true (Some (groupingTags w))
          else NotADicomFile c;
          UpdateProgressValue percent]
    /\ snd st = idx + 1
    /\ (if b
        then exists md, outcome (read_grouping_metadata w c) = Ok md
                        /\ fst st = add_item g c md
        else fst st = g).
Proof.
  intros Hst c. pose proof Hst as Hst0.
  unfold load_next_metadata in Hst. fold c in Hst.
  apply outcome_bind_Ok in Hst. destruct Hst as (b & Hb & Hst).
  apply outcome_bind_Ok in Hst. destruct Hst as (g' & Hg' & Hst).
  apply outcome_bind_Ok in Hst. destruct Hst as (pct & Hpct & _).
  cbn [lift outcome snd] in Hpct.
  exists b, pct. split; [assumption|]. split; [assumption|].
  unfold load_next_metadata in Hst0 |- *. fold c in Hst0 |- *.
  rewrite (bind_Ok _ _ _ Hb), is_dicom_trace in Hst0 |- *.
  destruct b.
  - apply outcome_bind_Ok in Hg'. destruct Hg' as (md & Hmd & _).
    rewrite (bind_Ok (read_grouping_metadata w c) _ _ Hmd),
      read_grouping_metadata_trace in Hst0 |- *.
    cbn [trace outcome fst snd ret app] in Hst0 |- *.
    rewrite bind_pair_Ok, Hpct in Hst0 |- *.
    cbn in Hst0 |- *. injection Hst0 as <-. cbn [fst snd].
    repeat split. exists md. now split.
  - rewrite bind_emit in Hst0 |- *.
    cbn [trace outcome fst snd ret app] in Hst0 |- *.
    rewrite bind_pair_Ok, Hpct in Hst0 |- *.
    cbn in Hst0 |- *. injection Hst0 as <-. cbn [fst snd].
    now repeat split.
Qed.

End MetadataLoop.

(** ** The metadata pass, entry by entry *)

Lemma opened_files_app t1 t2 :
  opened_files (t1 ++ t2) = opened_files t1 ++ opened_files t2.
Proof. apply flat_map_app. Qed.

Lemma metadata_read_files_app t1 t2 :
  metadata_read_files (t1 ++ t2)
  = metadata_read_files t1 ++ metadata_read_files t2.
Proof. apply flat_map_app. Qed.

Lemma pixel_read_files_app t1 t2 :
  pixel_read_files (t1 ++ t2) = pixel_read_files t1 ++ pixel_read_files t2.
Proof. apply flat_map_app. Qed.

Lemma warnings_app t1 t2 : warnings (t1 ++ t2) = warnings t1 ++ warnings t2.
Proof. apply filter_app. Qed.

Lemma for_in_app {A S} (body : A -> S -> M S) (l1 l2 : list A) :
  forall s,
    for_in (l1 ++ l2) body s
    = bind (for_in l1 body s) (for_in l2 body).
Proof.
  induction l1 as [|x l1 IH]; intros s.
  - cbn [app for_in]. now rewrite bind_ret.
  - cbn [app for_in]. unfold bind at 1 3.
    destruct (outcome (body x s)) as [s1|e] eqn:E.
    + rewrite IH. unfold bind at 2. cbn [outcome snd trace fst].
      unfold bind.
      destruct (outcome (for_in l1 body s1)) as [s2|e2];
        cbn [outcome snd trace fst]; now rewrite ?app_assoc.
    + unfold bind. cbn [outcome snd]. reflexivity.
Qed.

Section MetadataRuns.

Context {V : Type} (w : World V).
Variable image_path : string.

Lemma passes_signature_Ok f b :
  outcome (is_dicom w (combined_name image_path f)) = Ok b ->
  passes_signature w image_path f = b.
Proof. unfold passes_signature. intros ->. now destruct b. Qed.

Lemma loadable_is_dicom f :
  loadable w image_path f ->
  outcome (is_dicom w (combined_name image_path f))
  = Ok (passes_signature w image_path f).
Proof.
  intros (Hex & _). unfold passes_signature, is_dicom in *.
  rewrite bind_emit.
  destruct (file_bytes w (combined_name image_path f)); [|now elim Hex].
  cbn [outcome snd ret]. now destruct (bytes_eqb _ _).
Qed.

(** A loop that completes went through every entry. *)
Lemma metadata_loop_run num l :
  forall g idx st,
    outcome (for_in l (load_next_metadata w image_path num) (g, idx)) = Ok st ->
    let t := trace (for_in l (load_next_metadata w image_path num) (g, idx)) in
    st = (add_items g
            (items_of w image_path (filter (passes_signature w image_path) l)),
          idx + length l)
    /\ opened_files t = map (combined_name image_path) l
    /\ warnings t
       = map (not_a_dicom_file image_path)
             (filter (fun f => negb (passes_signature w image_path f)) l)
    /\ metadata_read_files t
       = map (combined_name image_path)
             (filter (passes_signature w image_path) l)
    /\ Forall (loadable w image_path) l.
Proof.
  induction l as [|f l IH]; intros g idx st Hst.
  - cbn in Hst. injection Hst as <-. cbn. rewrite Nat.add_0_r.
    repeat split. constructor.
  - cbn [for_in] in *. pose proof Hst as Hst0.
    apply outcome_bind_Ok in Hst. destruct Hst as ([g1 idx1] & Hbody & Hrest).
    rewrite (trace_bind _ _ _ Hbody).
    destruct (load_next_metadata_inv w image_path num f g idx _ Hbody)
      as (b & pct & Hb & _ & Ht & Hidx & Hg).
    cbn [fst snd] in Hidx, Hg. subst idx1.
    destruct (IH _ _ _ Hrest) as (-> & Ho & Hw & Hm & Hl).
    rewrite opened_files_app, warnings_app, metadata_read_files_app.
    rewrite Ho, Hw, Hm, Ht.
    pose proof (passes_signature_Ok f b Hb) as Hs.
    cbn [filter map length]. rewrite Hs.
    destruct b; cbv iota; cbn [negb map].
    + destruct Hg as (md & Hmd & ->). cbn [negb].
      unfold items_of. cbn [flat_map]. assert (Hitem : item_of w image_path f
                       = [{| filename := combined_name image_path f;
                             metadata := md |}]).
      { unfold item_of. now rewrite Hmd. }
      rewrite Hitem.
      cbn [app]. unfold add_items. cbn [fold_left filename metadata].
      repeat split.
      * f_equal. lia.
      * constructor; [|assumption]. split.
        -- apply (is_dicom_Ok_exists w _ _ Hb).
        -- intros _. now exists md.
    + subst g1. cbn [negb]. repeat split.
      * f_equal. lia.
      * constructor; [|assumption]. split.
        -- apply (is_dicom_Ok_exists w _ _ Hb).
        -- rewrite Hs. discriminate.
Qed.

(** Over entries it can get past, the loop completes. *)
Lemma metadata_loop_completes num l :
  num <> 0 ->
  Forall (loadable w image_path) l ->
  forall g idx,
    exists st,
      outcome (for_in l (load_next_metadata w image_path num) (g, idx)) = Ok st.
Proof.
  intros Hn. induction 1 as [|f l Hf Hl IH]; intros g idx.
  - eexists. reflexivity.
  - cbn [for_in]. pose proof (loadable_is_dicom f Hf) as Hd.
    destruct (passes_signature w image_path f) eqn:Es.
    + destruct (proj2 Hf Es) as (md & Hmd).
      destruct (load_next_metadata_dicom w image_path num f g idx md Hd Hmd Hn)
        as (q & Hb).
      rewrite Hb, bind_pair_Ok. cbn [outcome snd]. apply IH.
    + destruct (load_next_metadata_not_dicom w image_path num f g idx Hd Hn)
        as (q & Hb).
      rewrite Hb, bind_pair_Ok. cbn [outcome snd]. apply IH.
Qed.

(** The run of the pass, from the run of its loop. *)
Lemma load_metadata_run filenames :
  let names := as_list filenames in
  let loop := for_in (sort_filenames w names)
                (load_next_metadata w image_path (length names))
                (DicomGrouper_new, 0) in
  load_metadata_from_dicom_files w image_path filenames
  = match outcome loop with
    | Ok st =>
        (ShowProgress "Reading image metadata" :: UpdateProgressValue 0
           :: trace loop ++ [CompleteProgress],
         Ok (fst st))
    | Raise e =>
        (ShowProgress "Reading image metadata" :: UpdateProgressValue 0
           :: trace loop,
         Raise e)
    end.
Proof.
  intros names loop. unfold load_metadata_from_dicom_files.
  rewrite !bind_emit. cbn [trace outcome fst snd]. fold names. fold loop.
  destruct (outcome loop) as [st|e] eqn:E.
  - rewrite (bind_Ok _ _ _ E), bind_emit. reflexivity.
  - rewrite (bind_Raise _ _ _ E). reflexivity.
Qed.

End MetadataRuns.

Section MetadataFailures.

Context {V : Type} (w : World V).
Variable image_path : string.
Variable num_slices : nat.

(** The loop body on an entry whose file does not exist. *)
Lemma load_next_metadata_missing f g idx :
  file_bytes w (combined_name image_path f) = None ->
  load_next_metadata w image_path num_slices f (g, idx)
  = ([OpenFile (combined_name image_path f)],
     Raise (FileNotFoundError (combined_name image_path f))).
Proof.
  intros Hf. unfold load_next_metadata.
  assert (Hd : is_dicom w (combined_name image_path f)
               = ([OpenFile (combined_name image_path f)],
                  Raise (FileNotFoundError (combined_name image_path f)))).
  { unfold is_dicom. rewrite bind_emit, Hf. reflexivity. }
  now rewrite Hd, bind_pair_Raise.
Qed.

(** The loop body on an entry whose file carries the signature and whose
    metadata cannot be read. *)
Lemma load_next_metadata_unreadable f g idx e :
  passes_signature w image_path f = true ->
  outcome (read_grouping_metadata w (combined_name image_path f)) = Raise e ->
  load_next_metadata w image_path num_slices f (g, idx)
  = ([OpenFile (combined_name image_path f);
      Dcmread (combined_name image_path f) true (Some (groupingTags w))],
     Raise e).
Proof.
  intros Hs Hm. unfold load_next_metadata.
  assert (Hd : outcome (is_dicom w (combined_name image_path f)) = Ok true).
  { unfold passes_signature in Hs.
    destruct (outcome (is_dicom w (combined_name image_path f))) as [[|]|];
      congruence. }
  rewrite (bind_Ok _ _ _ Hd), is_dicom_trace.
  cbv iota.
  rewrite (bind_Raise (read_grouping_metadata w (combined_name image_path f))
             _ _ Hm), read_grouping_metadata_trace.
  rewrite bind_pair_Raise. reflexivity.
Qed.

(** The loop never completes the progress display itself. *)
Lemma metadata_loop_not_complete l st :
  ~ In CompleteProgress
      (trace (for_in l (load_next_metadata w image_path num_slices) st)).
Proof.
  assert (HF : Forall (fun ev => ev <> CompleteProgress)
                 (trace (for_in l (load_next_metadata w image_path num_slices)
                           st))).
  { apply Forall_trace_for_in. intros f [g idx] _. unfold load_next_metadata.
    apply Forall_trace_bind.
    { rewrite is_dicom_trace. repeat constructor. discriminate. }
    intros b _. apply Forall_trace_bind.
    { destruct b.
      - apply Forall_trace_bind; [|intros; apply Forall_trace_ret].
        rewrite read_grouping_metadata_trace. repeat constructor.
        discriminate.
      - apply Forall_trace_bind; [|intros; apply Forall_trace_ret].
        apply Forall_trace_emit. discriminate. }
    intros g' _.
    apply Forall_trace_bind; [apply Forall_trace_lift|intros pct _].
    apply Forall_trace_bind; [|intros; apply Forall_trace_ret].
    apply Forall_trace_emit. discriminate. }
  rewrite Forall_forall in HF. intros Hin. now apply (HF _ Hin).
Qed.

(** Progress values of the loop, while the index stays below the count. *)
Lemma metadata_loop_percent l :
  forall g idx,
    idx + length l <= num_slices ->
    Forall percent_event
      (trace (for_in l (load_next_metadata w image_path num_slices) (g, idx))).
Proof.
  induction l as [|f l IH]; intros g idx Hlen.
  - constructor.
  - cbn [for_in length] in *. apply Forall_trace_bind.
    + unfold load_next_metadata.
      apply Forall_trace_bind.
      { rewrite is_dicom_trace. now repeat constructor. }
      intros b _. apply Forall_trace_bind.
      { destruct b.
        - apply Forall_trace_bind; [|intros; apply Forall_trace_ret].
          rewrite read_grouping_metadata_trace. now repeat constructor.
        - apply Forall_trace_bind; [|intros; apply Forall_trace_ret].
          now apply Forall_trace_emit. }
      intros g' _.
      apply Forall_trace_bind; [apply Forall_trace_lift|intros pct Hpct].
      apply Forall_trace_bind; [|intros; apply Forall_trace_ret].
      apply Forall_trace_emit. cbn [percent_event].
      apply (py_round_div_percent (Z.of_nat idx) (Z.of_nat num_slices));
        [lia | lia | exact Hpct].
    + intros [g1 idx1] Hbody.
      destruct (load_next_metadata_inv w image_path num_slices f g idx _ Hbody)
        as (_ & _ & _ & _ & _ & Hidx & _).
      cbn [snd] in Hidx. subst idx1. apply IH. lia.
Qed.

End MetadataFailures.


(** ** load_metadata_from_dicom_files *)

(** X3.  The metadata pass returns a grouper exactly when every entry is one it
    can get past: the file exists and, if it carries the signature, its
    grouping metadata can be read.  A file without the signature never
    makes the pass fail; a missing file always does. *)
Theorem load_metadata_succeeds_iff :
  forall (V : Type) (w : World V) (image_path : string)
         (filenames : Filenames),
    length (sort_filenames w (as_list filenames))
    = length (as_list filenames) ->
    (exists g,
       outcome (load_metadata_from_dicom_files w image_path filenames) = Ok g)
    <-> Forall (loadable w image_path) (sort_filenames w (as_list filenames)).
Proof.
  intros V w image_path filenames Hlen.
  rewrite (load_metadata_run w image_path filenames). cbv zeta.
  split.
  - intros (g & Hg).
    destruct (outcome (for_in _ _ _)) as [st|e] eqn:E; [|discriminate].
    apply (metadata_loop_run w image_path _ _ _ _ _ E).
  - intros Hall.
    destruct (sort_filenames w (as_list filenames)) as [|f l] eqn:Es.
    + eexists. reflexivity.
    + assert (Hn : length (as_list filenames) <> 0).
      { rewrite <- Hlen. discriminate. }
      destruct (metadata_loop_completes w image_path _ (f :: l) Hn Hall
                  DicomGrouper_new 0) as (st & Hst).
      rewrite Hst. eexists. reflexivity.
Qed.

Lemma load_metadata_succeeds_iff_witness :
  (exists g,
     outcome (load_metadata_from_dicom_files Samples.world "/data"
                (ManyNames [FStr "a.dcm"; FStr "notes.txt"])) = Ok g)
  <-> Forall (loadable Samples.world "/data") [FStr "a.dcm"; FStr "notes.txt"].
Proof.
  apply (load_metadata_succeeds_iff Z Samples.world "/data"
           (ManyNames [FStr "a.dcm"; FStr "notes.txt"])).
  reflexivity.
Defined.

(** X4.  A metadata pass that returns has opened every entry once, in the order
    [sort_filenames] gave; it has read the metadata of exactly the entries
    that carry the signature, and warned about exactly the others, each in
    that order. *)
Theorem load_metadata_visits_every_entry :
  forall (V : Type) (w : World V) (image_path : string)
         (filenames : Filenames) (g : DicomGrouper),
    outcome (load_metadata_from_dicom_files w image_path filenames) = Ok g ->
    let t := trace (load_metadata_from_dicom_files w image_path filenames) in
    let sorted := sort_filenames w (as_list filenames) in
    opened_files t = map (combined_name image_path) sorted
    /\ metadata_read_files t
       = map (combined_name image_path)
             (filter (passes_signature w image_path) sorted)
    /\ warnings t
       = map (not_a_dicom_file image_path)
             (filter (fun f => negb (passes_signature w image_path f)) sorted).
Proof.
  intros V w image_path filenames g.
  rewrite (load_metadata_run w image_path filenames). cbv zeta.
  destruct (outcome (for_in _ _ _)) as [st|e] eqn:E; [|discriminate].
  intros _. cbn [trace fst].
  destruct (metadata_loop_run w image_path _ _ _ _ _ E)
    as (_ & Ho & Hw & Hm & _).
  change (ShowProgress "Reading image metadata" :: UpdateProgressValue 0
            :: ?t ++ [CompleteProgress])
    with ([ShowProgress "Reading image metadata"; UpdateProgressValue 0]
            ++ t ++ [CompleteProgress]).
  rewrite !opened_files_app, !metadata_read_files_app, !warnings_app.
  rewrite Ho, Hm, Hw. cbn. rewrite !app_nil_r. repeat split.
Qed.

Lemma load_metadata_visits_every_entry_witness :
  warnings (trace (load_metadata_from_dicom_files Samples.world "/data"
                     (ManyNames [FStr "a.dcm"; FStr "notes.txt";
                                 FStr "b.dcm"])))
  = [not_a_dicom_file "/data" (FStr "notes.txt")].
Proof.
  refine (proj2 (proj2 (load_metadata_visits_every_entry Z Samples.world
                          "/data"
                          (ManyNames [FStr "a.dcm"; FStr "notes.txt";
                                      FStr "b.dcm"])
                          _ eq_refl))).
Defined.

(** X5.  The grouper a metadata pass returns is the empty grouper with the
    entries that carry the signature added, one [add_item] call each, in
    the order [sort_filenames] gave; the other entries leave no trace in
    it. *)
Theorem load_metadata_groups_signed_entries :
  forall (V : Type) (w : World V) (image_path : string)
         (filenames : Filenames) (g : DicomGrouper),
    outcome (load_metadata_from_dicom_files w image_path filenames) = Ok g ->
    g = add_items DicomGrouper_new
          (items_of w image_path
             (filter (passes_signature w image_path)
                     (sort_filenames w (as_list filenames)))).
Proof.
  intros V w image_path filenames g.
  rewrite (load_metadata_run w image_path filenames). cbv zeta.
  destruct (outcome (for_in _ _ _)) as [st|e] eqn:E; [|discriminate].
  intros Hg. injection Hg as <-.
  destruct (metadata_loop_run w image_path _ _ _ _ _ E) as (-> & _).
  reflexivity.
Qed.

Lemma load_metadata_groups_signed_entries_witness :
  exists g,
    outcome (load_metadata_from_dicom_files Samples.world "/data"
               (ManyNames [FStr "a.dcm"; FStr "notes.txt"])) = Ok g
    /\ g = add_items DicomGrouper_new
             (items_of Samples.world "/data" [FStr "a.dcm"]).
Proof.
  eexists. split; [reflexivity|].
  apply (load_metadata_groups_signed_entries Z Samples.world "/data"
           (ManyNames [FStr "a.dcm"; FStr "notes.txt"])).
  reflexivity.
Defined.

(** X6.  The first entry the pass cannot get past ends it: a missing file with
    [FileNotFoundError], an entry that carries the signature but whose
    metadata cannot be read with the decoder's exception.  The entries
    after it are not opened. *)
Theorem load_metadata_first_failure :
  forall (V : Type) (w : World V) (image_path : string)
         (filenames : Filenames) (l1 l2 : list FileRef) (f : FileRef)
         (e : PyExc),
    sort_filenames w (as_list filenames) = l1 ++ f :: l2 ->
    as_list filenames <> [] ->
    Forall (loadable w image_path) l1 ->
    (file_bytes w (combined_name image_path f) = None
     /\ e = FileNotFoundError (combined_name image_path f))
    \/ (passes_signature w image_path f = true
        /\ outcome (read_grouping_metadata w (combined_name image_path f))
           = Raise e) ->
    let run := load_metadata_from_dicom_files w image_path filenames in
    outcome run = Raise e
    /\ opened_files (trace run) = map (combined_name image_path) (l1 ++ [f]).
Proof.
  intros V w image_path filenames l1 l2 f e Hs Hne Hl1 Hf run. subst run.
  rewrite (load_metadata_run w image_path filenames). cbv zeta.
  rewrite Hs.
  assert (Hn : length (as_list filenames) <> 0).
  { destruct (as_list filenames); [congruence | discriminate]. }
  set (num := length (as_list filenames)) in *.
  rewrite for_in_app.
  destruct (metadata_loop_completes w image_path num l1 Hn Hl1
              DicomGrouper_new 0) as ([g1 idx1] & H1).
  destruct (metadata_loop_run w image_path _ _ _ _ _ H1)
    as (_ & Ho & _).
  rewrite (bind_Ok _ _ _ H1). cbn [for_in].
  assert (Hbody : exists t,
             load_next_metadata w image_path num f (g1, idx1) = (t, Raise e)
             /\ opened_files t = [combined_name image_path f]).
  { destruct Hf as [(Hmiss & ->)|(Hsig & Hm)].
    - rewrite (load_next_metadata_missing w image_path num f g1 idx1 Hmiss).
      eexists. split; reflexivity.
    - rewrite (load_next_metadata_unreadable w image_path num f g1 idx1 e
                 Hsig Hm).
      eexists. split; reflexivity. }
  destruct Hbody as (t & Hb & Ht). rewrite Hb, bind_pair_Raise.
  cbn [outcome snd trace fst]. split; [reflexivity|].
  change (ShowProgress "Reading image metadata" :: UpdateProgressValue 0
            :: ?x)
    with ([ShowProgress "Reading image metadata"; UpdateProgressValue 0]
            ++ x).
  rewrite !opened_files_app, Ho, Ht, map_app. reflexivity.
Qed.

Lemma load_metadata_first_failure_witness :
  outcome (load_metadata_from_dicom_files Samples.world "/data"
             (ManyNames [FStr "a.dcm"; FStr "missing.dcm"; FStr "b.dcm"]))
  = Raise (FileNotFoundError "/data/missing.dcm").
Proof.
  refine (proj1 (load_metadata_first_failure Z Samples.world "/data"
                   (ManyNames [FStr "a.dcm"; FStr "missing.dcm";
                               FStr "b.dcm"])
                   [FStr "a.dcm"] [FStr "b.dcm"] (FStr "missing.dcm")
                   (FileNotFoundError "/data/missing.dcm")
                   eq_refl _ _ (or_introl (conj eq_refl eq_refl)))).
  - discriminate.
  - repeat constructor.
    + discriminate.
    + intros _. eexists. reflexivity.
Defined.

(** X7.  The progress display of the metadata pass is completed exactly when
    the pass returns a grouper: any exception leaves it open. *)
Theorem load_metadata_completes_progress_iff :
  forall (V : Type) (w : World V) (image_path : string)
         (filenames : Filenames),
    In CompleteProgress
       (trace (load_metadata_from_dicom_files w image_path filenames))
    <-> exists g,
          outcome (load_metadata_from_dicom_files w image_path filenames)
          = Ok g.
Proof.
  intros V w image_path filenames.
  rewrite (load_metadata_run w image_path filenames). cbv zeta.
  destruct (outcome (for_in _ _ _)) as [st|e] eqn:E;
    cbn [trace outcome fst snd].
  - split; [intros _; eexists; reflexivity|]. intros _.
    right. right. apply in_or_app. right. now left.
  - split; [|intros (g & Hg); discriminate].
    intros [H|[H|H]]; try discriminate.
    now apply metadata_loop_not_complete in H.
Qed.

(** X8.  Every progress value the metadata pass reports lies between 0 and 100,
    provided [sort_filenames] returns no more entries than it was given. *)
Theorem load_metadata_progress_percent :
  forall (V : Type) (w : World V) (image_path : string)
         (filenames : Filenames) (p : Z),
    length (sort_filenames w (as_list filenames))
    <= length (as_list filenames) ->
    In (UpdateProgressValue p)
       (trace (load_metadata_from_dicom_files w image_path filenames)) ->
    (0 <= p <= 100)%Z.
Proof.
  intros V w image_path filenames p Hlen Hin.
  assert (HF : Forall percent_event
                 (trace (load_metadata_from_dicom_files w image_path
                           filenames))).
  { unfold load_metadata_from_dicom_files.
    apply Forall_trace_bind; [now apply Forall_trace_emit|intros _ _].
    apply Forall_trace_bind;
      [apply Forall_trace_emit; simpl; lia|intros _ _].
    apply Forall_trace_bind.
    { apply metadata_loop_percent. simpl. exact Hlen. }
    intros st _.
    apply Forall_trace_bind; [now apply Forall_trace_emit|intros _ _].
    apply Forall_trace_ret. }
  rewrite Forall_forall in HF. apply (HF _ Hin).
Qed.

Lemma load_metadata_progress_percent_witness : (0 <= 33 <= 100)%Z.
Proof.
  apply (load_metadata_progress_percent Z Samples.world "/data"
           (ManyNames [FStr "a.dcm"; FStr "notes.txt"; FStr "b.dcm"]) 33%Z).
  - simpl. lia.
  - vm_compute. tauto.
Defined.

(** ** What the volume holds *)

Section SliceContents.

Context {V : Type} (w : World V).

Lemma setitem_axis2_item n (a : ndarray V) k value a' :
  setitem_axis2 w n a k value = Ok a' ->
  (forall idx, nth 2 idx 0 <> k -> nd_item a' idx = nd_item a idx)
  /\ (forall idx, nth 2 idx 0 = k ->
        match value with
        | Some src =>
            nd_item a' idx = stored_item w (nd_dtype a) (nd_shape a) src idx
        | None => np_none w (nd_dtype a) = Ok (nd_item a' idx)
        end).
Proof.
  unfold setitem_axis2.
  destruct (length (nd_shape a) <? n)%nat; [discriminate|].
  destruct (nth 2 (nd_shape a) 0 <=? k)%nat; [discriminate|].
  destruct value as [src|].
  - destruct (broadcastable _ _); [|discriminate].
    intros H. injection H as <-. cbn [nd_item]. split; intros idx Hk.
    + apply Nat.eqb_neq in Hk. now rewrite Hk.
    + apply Nat.eqb_eq in Hk. now rewrite Hk.
  - destruct (np_none w (nd_dtype a)) as [v|e]; [|discriminate].
    intros H. injection H as <-. cbn [nd_item]. split; intros idx Hk.
    + apply Nat.eqb_neq in Hk. now rewrite Hk.
    + apply Nat.eqb_eq in Hk. now rewrite Hk.
Qed.

Lemma store_slice_item spp (raw : ndarray V) k value raw' :
  outcome (store_slice w spp raw k value) = Ok raw' ->
  (forall idx, nth 2 idx 0 <> k -> nd_item raw' idx = nd_item raw idx)
  /\ (forall idx, nth 2 idx 0 = k ->
        match value with
        | Some src =>
            nd_item raw' idx
            = stored_item w (nd_dtype raw) (nd_shape raw) src idx
        | None => np_none w (nd_dtype raw) = Ok (nd_item raw' idx)
        end).
Proof.
  unfold store_slice, lift, outcome. simpl.
  destruct (1 <? spp)%nat; apply setitem_axis2_item.
Qed.

(** What a store leaves at an index of the slice it wrote, in terms of the
    buffer it returned. *)
Lemma store_slice_holds spp (raw : ndarray V) k item value raw' :
  outcome (read_dicom_image w (filename item)) = Ok value ->
  outcome (store_slice w spp raw k value) = Ok raw' ->
  forall (raw'' : ndarray V) idx,
    nth 2 idx 0 = k ->
    nd_shape raw'' = nd_shape raw -> nd_dtype raw'' = nd_dtype raw ->
    nd_item raw'' idx = nd_item raw' idx ->
    holds_slice w raw'' item idx.
Proof.
  intros Hd Hs raw'' idx Hk Hshape Hdtype Hitem.
  destruct (store_slice_item _ _ _ _ _ Hs) as (_ & Hat).
  specialize (Hat idx Hk). unfold holds_slice. rewrite Hd.
  destruct value as [src|]; rewrite ?Hshape, Hdtype, Hitem; exact Hat.
Qed.

Variable stack : DicomStack.
Variable spp : nat.

(** What a completed pass of the loop body did. *)
Lemma load_next_slice_inv k raw raw1 :
  outcome (load_next_slice w stack spp k raw) = Ok raw1 ->
  exists item value,
    nth_error stack k = Some item
    /\ outcome (read_dicom_image w (filename item)) = Ok value
    /\ outcome (store_slice w spp raw k value) = Ok raw1.
Proof.
  unfold load_next_slice, stack_getitem. intros H.
  destruct (nth_error stack k) as [item|]; [|discriminate H].
  rewrite bind_lift_Ok in H.
  apply outcome_bind_Ok in H. destruct H as (value & Hd & H).
  apply outcome_bind_Ok in H. destruct H as (raw' & Hs & H).
  apply outcome_bind_Ok in H. destruct H as (pct & _ & H).
  rewrite bind_emit in H. injection H as <-.
  now exists item, value.
Qed.

(** One pass of the loop body over a slice of the stack asks the decoder
    for that slice, whatever happens next. *)
Lemma load_next_slice_read_files k raw item :
  nth_error stack k = Some item ->
  pixel_read_files (trace (load_next_slice w stack spp k raw))
  = [filename item].
Proof.
  intros Hk. unfold load_next_slice, stack_getitem. rewrite Hk, bind_lift_Ok.
  destruct (outcome (read_dicom_image w (filename item))) as [v|e] eqn:Ed.
  - rewrite (bind_Ok _ _ _ Ed), read_dicom_image_trace. cbn [trace fst].
    destruct (outcome (store_slice w spp raw k v)) as [raw'|e] eqn:Es.
    + rewrite (bind_Ok _ _ _ Es), store_slice_trace. cbn [trace fst app].
      destruct (py_round_div (100 * Z.of_nat k) (Z.of_nat (length stack)));
        reflexivity.
    + rewrite (bind_Raise _ _ _ Es), store_slice_trace. reflexivity.
  - rewrite (bind_Raise _ _ _ Ed), read_dicom_image_trace. reflexivity.
Qed.

Lemma load_next_slice_events k raw :
  Forall slice_event (trace (load_next_slice w stack spp k raw)).
Proof.
  unfold load_next_slice.
  apply Forall_trace_bind; [apply Forall_trace_lift|intros item _].
  apply Forall_trace_bind.
  { rewrite read_dicom_image_trace. now repeat constructor. }
  intros v _.
  apply Forall_trace_bind; [apply Forall_trace_lift|intros raw' _].
  apply Forall_trace_bind; [apply Forall_trace_lift|intros pct _].
  apply Forall_trace_bind; [now apply Forall_trace_emit|intros _ _].
  apply Forall_trace_ret.
Qed.

(** A loop that completes has written every slice it ranged over and left
    the rest of the buffer as it was. *)
Lemma loop_contents n :
  forall a raw raw',
    outcome (for_in (seq a n) (load_next_slice w stack spp) raw) = Ok raw' ->
    nd_shape raw' = nd_shape raw /\ nd_dtype raw' = nd_dtype raw
    /\ (forall idx, nth 2 idx 0 < a \/ a + n <= nth 2 idx 0 ->
                    nd_item raw' idx = nd_item raw idx)
    /\ (forall k item idx,
          a <= k < a + n -> nth_error stack k = Some item ->
          nth 2 idx 0 = k -> holds_slice w raw' item idx).
Proof.
  induction n as [|n IH]; intros a raw raw' Hok.
  - cbn in Hok. injection Hok as <-. repeat split. intros; lia.
  - cbn [seq for_in] in Hok.
    apply outcome_bind_Ok in Hok. destruct Hok as (raw1 & Hbody & Hrest).
    destruct (load_next_slice_inv _ _ _ Hbody)
      as (item_a & value & Ha & Hd & Hs).
    destruct (store_slice_keeps _ _ _ _ _ _ Hs) as (Hs1 & Hs2).
    destruct (store_slice_item _ _ _ _ _ Hs) as (Hother & _).
    destruct (IH _ _ _ Hrest) as (Hr1 & Hr2 & Hkeep & Hslices).
    split; [congruence|]. split; [congruence|]. split.
    + intros idx Hidx. rewrite Hkeep by lia. apply Hother. lia.
    + intros k item idx Hk Hitem Hidx.
      destruct (Nat.eq_dec k a) as [->|Hne].
      * assert (item = item_a) by congruence. subst item.
        apply (store_slice_holds _ _ _ _ _ _ Hd Hs); try congruence.
        apply Hkeep. lia.
      * apply (Hslices k item idx); [lia | assumption | assumption].
Qed.

(** The loop asks for the slices it ranges over one by one, in order, and
    for all of them when it completes. *)
Lemma loop_read_files n :
  forall a raw,
    a + n <= length stack ->
    exists m,
      m <= n
      /\ pixel_read_files
           (trace (for_in (seq a n) (load_next_slice w stack spp) raw))
         = map filename (firstn m (skipn a stack))
      /\ (forall raw',
            outcome (for_in (seq a n) (load_next_slice w stack spp) raw)
            = Ok raw' -> m = n).
Proof.
  induction n as [|n IH]; intros a raw Hlen.
  - exists 0. repeat split. lia.
  - cbn [seq for_in].
    destruct (nth_error stack a) as [item|] eqn:Ea.
    2:{ apply nth_error_None in Ea. lia. }
    assert (Hskip : skipn a stack = item :: skipn (S a) stack).
    { clear - Ea. revert a Ea. induction stack as [|x l IHl]; intros a Ea.
      - destruct a; discriminate.
      - destruct a as [|a]; [injection Ea as ->; reflexivity|].
        cbn [skipn]. apply IHl. exact Ea. }
    pose proof (load_next_slice_read_files a raw item Ea) as Hread.
    destruct (outcome (load_next_slice w stack spp a raw)) as [raw1|e] eqn:Eb.
    + destruct (IH (S a) raw1 ltac:(lia)) as (m & Hm & Hfiles & Hall).
      exists (S m). rewrite (bind_Ok _ _ _ Eb). cbn [trace outcome fst snd].
      rewrite pixel_read_files_app, Hread, Hfiles, Hskip. cbn [firstn map app].
      repeat split; [lia|].
      intros raw' Hok. f_equal. apply (Hall raw' Hok).
    + exists 1. rewrite (bind_Raise _ _ _ Eb). cbn [trace outcome fst snd].
      rewrite Hread, Hskip. repeat split; [lia | discriminate].
Qed.

Lemma loop_not_complete l raw :
  ~ In CompleteProgress (trace (for_in l (load_next_slice w stack spp) raw)).
Proof.
  assert (HF : Forall slice_event
                 (trace (for_in l (load_next_slice w stack spp) raw))).
  { apply Forall_trace_for_in. intros k raw' _. apply load_next_slice_events. }
  rewrite Forall_forall in HF. intros Hin. apply (HF _ Hin).
Qed.

End SliceContents.

(** ** load_images_from_stack *)

Section ImageRuns.

Context {V : Type} (w : World V).

(** The run on a stack without slices: [stack[0]] raises. *)
Lemma load_images_from_stack_empty :
  load_images_from_stack w []
  = ([ShowProgress "Reading pixel data"; UpdateProgressValue 0],
     Raise (IndexError "list index out of range")).
Proof. reflexivity. Qed.

Lemma pixel_read_files_preamble item0 n d :
  pixel_read_files (preamble_events item0 n d) = [filename item0].
Proof. reflexivity. Qed.

Lemma preamble_not_complete item0 n d :
  ~ In CompleteProgress (preamble_events item0 n d).
Proof.
  intros H. simpl in H.
  repeat (destruct H as [H|H]; [discriminate|]). exact H.
Qed.

End ImageRuns.

(** X10.  In a volume [load_images_from_stack] returns, every element of slice
    [k] is what assigning the decoded array of the stack's item [k] stores
    there: the element of that array the index broadcasts to, converted to
    the dtype of the volume.  Elements with an index beyond the last slice
    are the zeros of the allocation. *)
Theorem load_images_volume_contents :
  forall (V : Type) (w : World V) (stack : DicomStack) (raw : ndarray V),
    outcome (load_images_from_stack w stack) = Ok {| raw_image := Some raw |} ->
    (forall k item idx,
       nth_error stack k = Some item -> nth 2 idx 0 = k ->
       holds_slice w raw item idx)
    /\ (forall idx, length stack <= nth 2 idx 0 ->
                    nd_item raw idx = np_zero w (nd_dtype raw)).
Proof.
  intros V w stack raw.
  destruct stack as [|item0 rest];
    [rewrite load_images_from_stack_empty; discriminate|].
  destruct (outcome (read_dicom_image w (filename item0)))
    as [[first|]|e0] eqn:Hd.
  - rewrite (load_images_from_stack_decoded w item0 rest first Hd). cbv zeta.
    destruct (outcome (store_slice w _ _ 0 (Some first))) as [raw1|e1] eqn:Es;
      [|discriminate].
    unfold py_range.
    destruct (outcome (for_in (seq 1 (length (item0 :: rest) - 1)) _ raw1))
      as [raw'|e2] eqn:El; [|discriminate].
    cbn [outcome snd]. intros H. injection H as ->.
    destruct (loop_contents w (item0 :: rest) _ _ _ _ _ El)
      as (Hr1 & Hr2 & Hkeep & Hslices).
    destruct (store_slice_keeps _ _ _ _ _ _ Es) as (Hs1 & Hs2).
    destruct (store_slice_item _ _ _ _ _ _ Es) as (Hother & _).
    split.
    + intros k item idx Hk Hidx. destruct k as [|k].
      * injection Hk as <-.
        apply (store_slice_holds w _ _ _ _ _ _ Hd Es); try congruence.
        apply Hkeep. lia.
      * apply (Hslices (S k) item idx); [|assumption|assumption].
        assert (S k < length (item0 :: rest)).
        { apply nth_error_Some. congruence. }
        lia.
    + intros idx Hlen. cbn [length] in Hlen.
      rewrite Hkeep by (cbn [length]; lia).
      rewrite Hother by lia. rewrite Hr2, Hs2. reflexivity.
  - rewrite (load_images_from_stack_nothing w item0 rest Hd). discriminate.
  - rewrite (load_images_from_stack_first_raises w item0 rest e0 Hd).
    discriminate.
Qed.

Lemma load_images_volume_contents_witness :
  exists raw,
    outcome (load_images_from_stack Samples.world
               [Samples.slice "/data/a.dcm" 0 1;
                Samples.slice "/data/b.dcm" 2 1])
    = Ok {| raw_image := Some raw |}
    /\ holds_slice Samples.world raw (Samples.slice "/data/b.dcm" 2 1)
         [3; 2; 1].
Proof.
  eexists. split; [reflexivity|].
  apply (proj1 (load_images_volume_contents Z Samples.world
                  [Samples.slice "/data/a.dcm" 0 1;
                   Samples.slice "/data/b.dcm" 2 1] _ eq_refl)
           1 (Samples.slice "/data/b.dcm" 2 1) [3; 2; 1]);
    reflexivity.
Defined.

(** X11.  [load_images_from_stack] asks the decoder for the slices in stack
    order, each at most once and none out of turn: the files it has asked
    for are the first [m] files of the stack, and all of them when it
    returns a volume. *)
Theorem load_images_reads_in_stack_order :
  forall (V : Type) (w : World V) (stack : DicomStack),
    exists m,
      m <= length stack
      /\ pixel_read_files (trace (load_images_from_stack w stack))
         = map filename (firstn m stack)
      /\ (forall raw,
            outcome (load_images_from_stack w stack)
            = Ok {| raw_image := Some raw |} -> m = length stack).
Proof.
  intros V w stack.
  destruct stack as [|item0 rest].
  { exists 0. rewrite load_images_from_stack_empty.
    split; [apply le_n|]. split; [reflexivity | discriminate]. }
  destruct (outcome (read_dicom_image w (filename item0)))
    as [[first|]|e0] eqn:Hd.
  - rewrite (load_images_from_stack_decoded w item0 rest first Hd). cbv zeta.
    destruct (outcome (store_slice w _ _ 0 (Some first))) as [raw1|e1] eqn:Es.
    + unfold py_range.
      destruct (loop_read_files w (item0 :: rest)
                  (SamplesPerPixel (metadata item0))
                  (length (item0 :: rest) - 1) 1 raw1)
        as (m & Hm & Hfiles & Hall); [cbn [length]; lia|].
      cbn [skipn] in Hfiles. cbn [length] in Hm.
      exists (S m).
      destruct (outcome (for_in (seq 1 (length (item0 :: rest) - 1)) _ raw1))
        as [raw'|e2] eqn:El; cbn [trace outcome fst snd].
      * rewrite !pixel_read_files_app, pixel_read_files_preamble, Hfiles.
        cbn [firstn map app length pixel_read_files flat_map].
        rewrite app_nil_r.
        split; [lia|]. split; [reflexivity|].
        intros raw _. rewrite (Hall raw' eq_refl). cbn [length]. lia.
      * rewrite !pixel_read_files_app, pixel_read_files_preamble, Hfiles.
        cbn [firstn map app length].
        split; [lia|]. split; [reflexivity | discriminate].
    + exists 1. cbn [trace outcome fst snd].
      rewrite pixel_read_files_preamble. cbn [length].
      split; [lia|]. split; [reflexivity | discriminate].
  - exists 1. rewrite (load_images_from_stack_nothing w item0 rest Hd).
    cbn [length]. split; [lia|]. split; [reflexivity | discriminate].
  - exists 1. rewrite (load_images_from_stack_first_raises w item0 rest e0 Hd).
    cbn [length]. split; [lia|]. split; [reflexivity | discriminate].
Qed.

(** X12.  The progress display of [load_images_from_stack] is completed exactly
    when a filled volume is returned: returning the unset wrapper, like any
    exception, leaves it open. *)
Theorem load_images_completes_progress_iff :
  forall (V : Type) (w : World V) (stack : DicomStack),
    In CompleteProgress (trace (load_images_from_stack w stack))
    <-> exists raw,
          outcome (load_images_from_stack w stack)
          = Ok {| raw_image := Some raw |}.
Proof.
  intros V w stack.
  assert (Hthree : forall (f : string),
             ~ In CompleteProgress
                 [ShowProgress "Reading pixel data"; UpdateProgressValue 0;
                  Dcmread f false None]).
  { intros f H. simpl in H.
    repeat (destruct H as [H|H]; [discriminate|]). exact H. }
  destruct stack as [|item0 rest].
  { rewrite load_images_from_stack_empty. cbn [trace outcome fst snd].
    split; [|intros (raw & H); discriminate].
    intros [H|[H|[]]]; discriminate. }
  destruct (outcome (read_dicom_image w (filename item0)))
    as [[first|]|e0] eqn:Hd.
  - rewrite (load_images_from_stack_decoded w item0 rest first Hd). cbv zeta.
    destruct (outcome (store_slice w _ _ 0 (Some first))) as [raw1|e1] eqn:Es.
    + destruct (outcome (for_in (py_range 1 (length (item0 :: rest))) _ raw1))
        as [raw'|e2] eqn:El; cbn [trace outcome fst snd].
      * split; [intros _; now exists raw'|]. intros _.
        apply in_or_app. right. apply in_or_app. right. now left.
      * split; [|intros (raw & H); discriminate].
        intros H. apply in_app_or in H. destruct H as [H|H].
        -- now apply preamble_not_complete in H.
        -- now apply loop_not_complete in H.
    + cbn [trace outcome fst snd].
      split; [|intros (raw & H); discriminate].
      intros H. now apply preamble_not_complete in H.
  - rewrite (load_images_from_stack_nothing w item0 rest Hd).
    cbn [trace outcome fst snd].
    split; [|intros (raw & H); discriminate].
    intros H. now apply Hthree in H.
  - rewrite (load_images_from_stack_first_raises w item0 rest e0 Hd).
    cbn [trace outcome fst snd].
    split; [|intros (raw & H); discriminate].
    intros H. now apply Hthree in H.
Qed.

(** X13.  [load_images_from_stack] returns the unset wrapper exactly when the
    stack has a first slice and decoding it yields nothing.  A later slice
    that decodes to nothing does not have this effect. *)
Theorem load_images_unset_iff_first_nothing :
  forall (V : Type) (w : World V) (stack : DicomStack),
    outcome (load_images_from_stack w stack) = Ok (CoreWrapper_new V)
    <-> exists item0,
          nth_error stack 0 = Some item0
          /\ outcome (read_dicom_image w (filename item0)) = Ok None.
Proof.
  intros V w stack.
  destruct stack as [|item0 rest].
  { rewrite load_images_from_stack_empty.
    split; [discriminate | intros (it & H & _); discriminate]. }
  destruct (outcome (read_dicom_image w (filename item0)))
    as [[first|]|e0] eqn:Hd.
  - rewrite (load_images_from_stack_decoded w item0 rest first Hd). cbv zeta.
    split.
    + destruct (outcome (store_slice w _ _ 0 (Some first))) as [raw1|e1];
        [|discriminate].
      destruct (outcome (for_in _ _ raw1)) as [raw'|e2]; discriminate.
    + intros (it & H & Hn). injection H as <-. congruence.
  - rewrite (load_images_from_stack_nothing w item0 rest Hd).
    split; [|reflexivity]. intros _. now exists item0.
  - rewrite (load_images_from_stack_first_raises w item0 rest e0 Hd).
    split; [discriminate|].
    intros (it & H & Hn). injection H as <-. congruence.
Qed.

Section LaterNothing.

Context {V : Type} (w : World V).

(** Assigning [None] to a slice of the buffer when NumPy cannot convert
    [None] to the dtype of the buffer. *)
Lemma store_slice_nothing_raises (md : GroupingMetadata) n
    (raw : ndarray V) k e :
  nd_shape raw = volume_shape md n ->
  k < n ->
  np_none w (nd_dtype raw) = Raise e ->
  outcome (store_slice w (SamplesPerPixel md) raw k None) = Raise e.
Proof.
  unfold volume_shape, store_slice, lift, outcome, setitem_axis2. simpl.
  intros Hs Hk Hn. rewrite Hs.
  destruct (1 <? SamplesPerPixel md)%nat; simpl;
    (destruct (Nat.leb_spec n k); [lia|]); now rewrite Hn.
Qed.

End LaterNothing.

(** X14.  A slice after the first that decodes to nothing is not a soft failure:
    when the slices before it have been stored and NumPy cannot convert
    [None] to the dtype of the volume, the exception of that assignment is
    the outcome of the call. *)
Theorem load_images_later_nothing_raises :
  forall (V : Type) (w : World V) (stack : DicomStack)
         (item0 : StackItem) (first : ndarray V)
         (k : nat) (item : StackItem) (e : PyExc),
    nth_error stack 0 = Some item0 ->
    outcome (read_dicom_image w (filename item0)) = Ok (Some first) ->
    1 <= k ->
    nth_error stack k = Some item ->
    outcome (read_dicom_image w (filename item)) = Ok None ->
    (forall i it, i < k -> nth_error stack i = Some it ->
                  decodes_to_fit w (metadata item0) it) ->
    np_none w (nd_dtype first) = Raise e ->
    outcome (load_images_from_stack w stack) = Raise e.
Proof.
  intros V w stack item0 first k item e H0 Hd Hk Hitem Hnone Hfit Hnp.
  destruct stack as [|it rest]; [discriminate|]. injection H0 as ->.
  assert (Hlen : k < length (item0 :: rest)).
  { apply nth_error_Some. congruence. }
  rewrite (load_images_from_stack_decoded w item0 rest first Hd). cbv zeta.
  set (stack := item0 :: rest) in *. set (md := metadata item0) in *.
  destruct (Hfit 0 item0 ltac:(lia) eq_refl) as (first' & Hd' & Hb).
  assert (first' = first) by congruence. subst first'.
  destruct (store_slice_fits w md (length stack)
              (fresh_volume w md (length stack) (nd_dtype first)) first 0)
    as (raw1 & Hs); [reflexivity | lia | assumption |].
  rewrite Hs. destruct (store_slice_keeps _ _ _ _ _ _ Hs) as (Hs1 & Hs2).
  cbn [fresh_volume nd_shape nd_dtype] in Hs1, Hs2.
  assert (Hloop : outcome (for_in (py_range 1 (length stack))
                             (load_next_slice w stack (SamplesPerPixel md))
                             raw1)
                  = Raise e).
  { unfold py_range.
    replace (length stack - 1)
      with ((k - 1) + S (length stack - 1 - k)) by lia.
    rewrite seq_app, for_in_app.
    destruct (loop_fills w stack _ md (k - 1) eq_refl 1 raw1)
      as (raw2 & Hl & Hr1 & Hr2).
    - exact Hs1.
    - lia.
    - intros i it Hi Hit. apply (Hfit i it); [lia | assumption].
    - rewrite (outcome_bind _ _ _ Hl).
      replace (1 + (k - 1)) with k by lia. cbn [seq for_in].
      apply outcome_bind_Raise.
      unfold load_next_slice, stack_getitem. rewrite Hitem, bind_lift_Ok.
      rewrite (outcome_bind _ _ _ Hnone).
      apply outcome_bind_Raise.
      apply (store_slice_nothing_raises w md (length stack));
        [congruence | assumption | congruence]. }
  rewrite Hloop. reflexivity.
Qed.

Lemma load_images_later_nothing_raises_witness :
  outcome (load_images_from_stack Samples.world
             [Samples.slice "/data/a.dcm" 0 1;
              Samples.slice "/data/none.dcm" 2 1;
              Samples.slice "/data/c.dcm" 4 1])
  = Raise (TypeError "int() argument must be a number").
Proof.
  apply (load_images_later_nothing_raises Z Samples.world
           [Samples.slice "/data/a.dcm" 0 1;
            Samples.slice "/data/none.dcm" 2 1;
            Samples.slice "/data/c.dcm" 4 1]
           (Samples.slice "/data/a.dcm" 0 1)
           (Samples.image dt_int16 [4; 4])
           1 (Samples.slice "/data/none.dcm" 2 1)
           (TypeError "int() argument must be a number"));
    [reflexivity | reflexivity | lia | reflexivity | reflexivity
    | | reflexivity].
  intros i it Hi Hit. destruct i as [|i]; [|lia].
  injection Hit as <-.
  exists (Samples.image dt_int16 [4; 4]). split; reflexivity.
Defined.

(** ** load_main_image_from_dicom_files, as a composition *)



